(** * StartingClassRando: the memory scanner, the grace unlocker and the
      stat randomizer of [stat_randomizer_gui.py]

    A shallow embedding of the parts of the program that touch another
    process' memory ([MemoryManager], [EldenRingModTool.unlock_selected_graces])
    and of [randomize_stats], with the properties the design document
    states about them.

    Python integers are unbounded, so addresses and offsets are [Z] without
    wrap-around; [bytes] objects are lists of [Z] in 0..255; [str] is
    [string]; the [while] loop of the manual scan, which the source does
    not bound, is run with fuel and [None] means "still looping". *)

From Stdlib Require Import ZArith List Lia String Ascii.
From stdpp Require Import base option list gmap strings pretty sorting.

Open Scope Z_scope.

(** ** Python primitives used by the program *)

Module Py.

(** Exceptions, by the classes the program's [except] clauses tell apart.
    Every exception carries the text [str(e)] that the f-strings
    interpolate. *)
Inductive exn : Type :=
| ProcessNotFound (msg : string)       (* pymem.exception.ProcessNotFound *)
| CouldNotOpenProcess (msg : string)   (* pymem.exception.CouldNotOpenProcess *)
| OtherException (msg : string).       (* any other subclass of Exception *)

Definition exn_str (e : exn) : string :=
  match e with
  | ProcessNotFound m | CouldNotOpenProcess m | OtherException m => m
  end.

Inductive outcome (A : Type) : Type :=
| Return (a : A)
| Raise (e : exn).
Arguments Return {A} a.
Arguments Raise {A} e.

Definition nl : string := String (ascii_of_nat 10) EmptyString.

(** [s[a:b]] on a sequence: negative indices count from the end, both
    ends are clamped to the sequence, an empty range gives the empty
    sequence. *)
Definition slice_index (len a : Z) : Z :=
  if a <? 0 then Z.max 0 (a + len) else Z.min a len.

Definition slice {A} (l : list A) (a b : Z) : list A :=
  let len := Z.of_nat (length l) in
  let s := slice_index len a in
  let e := slice_index len b in
  take (Z.to_nat (e - s)) (drop (Z.to_nat s) l).

(** Little-endian integers, as [struct.unpack('<i', ...)] and pymem's
    [read_int] / [read_longlong] decode them. *)
Definition le_unsigned (bs : list Z) : Z :=
  foldr (fun b acc => b + 256 * acc) 0 bs.

Definition le_signed (bs : list Z) : Z :=
  let bits := 8 * Z.of_nat (length bs) in
  let u := le_unsigned bs in
  if u <? 2 ^ (bits - 1) then u else u - 2 ^ bits.

(** [struct.unpack('<i', b)[0]]: [struct.error] unless [b] has 4 bytes. *)
Definition unpack_i (b : list Z) : outcome Z :=
  if decide (length b = 4%nat) then Return (le_signed b)
  else Raise (OtherException "unpack requires a buffer of 4 bytes").

(** [f"{n:X}"]: upper-case hexadecimal, a minus sign for negatives. *)
Definition hex_char (d : Z) : ascii :=
  ascii_of_nat (Z.to_nat (if d <? 10 then 48 + d else 55 + d)).

Fixpoint hex_go (fuel : nat) (n : Z) (acc : string) : string :=
  match fuel with
  | O => acc
  | S fuel' =>
      let acc' := String (hex_char (n mod 16)) acc in
      if n / 16 =? 0 then acc' else hex_go fuel' (n / 16) acc'
  end.

Definition format_X (n : Z) : string :=
  let a := Z.abs n in
  let digits := hex_go (S (Z.to_nat (Z.log2 a))) a EmptyString in
  if n <? 0 then String "-" digits else digits.

(** [s.split(' ')]: cut at every single space; never the empty list. *)
Fixpoint split_space (s : string) : list string :=
  match s with
  | EmptyString => [EmptyString]
  | String c s' =>
      if Ascii.eqb c " " then EmptyString :: split_space s'
      else match split_space s' with
           | hd :: tl => String c hd :: tl
           | [] => [String c EmptyString]
           end
  end.

(** [s.replace('??', '..')]: left to right, non-overlapping. *)
Fixpoint replace_qq (s : string) : string :=
  match s with
  | String "?" (String "?" s') => String "." (String "." (replace_qq s'))
  | String c s' => String c (replace_qq s')
  | EmptyString => EmptyString
  end.

(** [", ".join(l)] and ["\n".join(l)]. *)
Fixpoint join (sep : string) (l : list string) : string :=
  match l with
  | [] => EmptyString
  | [x] => x
  | x :: rest => x +:+ sep +:+ join sep rest
  end.

(** [int(s, 16)] on ASCII text: surrounding white space is dropped, then
    an optional sign, an optional [0x] / [0X] prefix, and hexadecimal
    digits in which single underscores may separate digits (one may also
    follow the prefix).  Anything else is a [ValueError].  Text outside
    ASCII is not modelled.  White space is what the parser of [int] skips
    on ASCII text: tab, line feed, vertical tab, form feed, carriage
    return and the space; the separators 0x1C to 0x1F, which [str.split]
    treats as white space, are not skipped and make the literal invalid. *)
Definition hex_digit_value (c : ascii) : option Z :=
  let n := Z.of_nat (nat_of_ascii c) in
  if (48 <=? n) && (n <=? 57) then Some (n - 48)
  else if (65 <=? n) && (n <=? 70) then Some (n - 55)
  else if (97 <=? n) && (n <=? 102) then Some (n - 87)
  else None.

Definition is_space (c : ascii) : bool :=
  let n := nat_of_ascii c in
  ((9 <=? n) && (n <=? 13) || (n =? 32))%nat.

Fixpoint lstrip (s : string) : string :=
  match s with
  | String c s' => if is_space c then lstrip s' else s
  | EmptyString => EmptyString
  end.

Fixpoint rstrip (s : string) : string :=
  match s with
  | String c s' =>
      match rstrip s' with
      | EmptyString => if is_space c then EmptyString else String c EmptyString
      | r => String c r
      end
  | EmptyString => EmptyString
  end.

Fixpoint hex_digits_value (s : string) (acc : Z) (after_digit : bool) : option Z :=
  match s with
  | EmptyString => if after_digit then Some acc else None
  | String c s' =>
      if Ascii.eqb c "_" then
        if after_digit then hex_digits_value s' acc false else None
      else
        match hex_digit_value c with
        | Some d => hex_digits_value s' (16 * acc + d) true
        | None => None
        end
  end.

Definition hex_unsigned (s : string) : option Z :=
  match s with
  | String "0" (String "x" (String "_" s'))
  | String "0" (String "X" (String "_" s'))
  | String "0" (String "x" s')
  | String "0" (String "X" s') =>
      hex_digits_value s' 0 false
  | _ => hex_digits_value s 0 false
  end.

Definition int16 (s : string) : outcome Z :=
  let body := rstrip (lstrip s) in
  let r :=
    match body with
    | String "-" s' => Z.opp <$> hex_unsigned s'
    | String "+" s' => hex_unsigned s'
    | _ => hex_unsigned body
    end in
  match r with
  | Some v => Return v
  | None =>
      Raise (OtherException
               ("invalid literal for int() with base 16: '" +:+ s +:+ "'"))
  end.

End Py.

(** ** The pymem library, as far as the program uses it *)

Module Pymem.
Import Py.

(** One byte of the remote address space with the access the operating
    system grants on it at the moment of the call. *)
Record cell : Type := Cell {
  value : Z;
  can_read : bool;
  can_write : bool
}.

(** An open process: the object [pymem.Pymem(name)] returns.  Addresses
    outside [memory] are not mapped. *)
Record t : Type := Pm {
  process_id : Z;
  process_handle : Z;
  memory : gmap Z cell
}.

(** [MODULEINFO], the result of [pymem.process.module_from_name]. *)
Record MODULEINFO : Type := Module_ {
  lpBaseOfDll : Z;
  SizeOfImage : Z
}.

Definition read_cell (pm : t) (address : Z) : option Z :=
  c ← memory pm !! address;
  if can_read c then Some (value c) else None.

Definition MemoryReadError (address size : Z) : exn :=
  OtherException ("Could not read memory at: " +:+ pretty address
                    +:+ ", length: " +:+ pretty size).

Definition MemoryWriteError (address : Z) : exn :=
  OtherException ("Could not write memory at: " +:+ pretty address).

(** [pm.read_bytes(address, size)]: all of the range or an exception. *)
Definition read_bytes (pm : t) (address size : Z) : outcome (list Z) :=
  if size <? 0 then Raise (MemoryReadError address size)
  else match mapM (read_cell pm) (seqZ address size) with
       | Some bs => Return bs
       | None => Raise (MemoryReadError address size)
       end.

Definition read_uchar (pm : t) (address : Z) : outcome Z :=
  match read_cell pm address with
  | Some b => Return b
  | None => Raise (MemoryReadError address 1)
  end.

Definition read_int (pm : t) (address : Z) : outcome Z :=
  match read_bytes pm address 4 with
  | Return bs => Return (le_signed bs)
  | Raise e => Raise e
  end.

Definition read_longlong (pm : t) (address : Z) : outcome Z :=
  match read_bytes pm address 8 with
  | Return bs => Return (le_signed bs)
  | Raise e => Raise e
  end.

(** [pm.write_uchar(address, value)]: [struct.pack('B', value)] refuses
    values outside 0..255; the byte must be mapped and writable. *)
Definition write_uchar (pm : t) (address v : Z) : outcome t :=
  if (v <? 0) || (255 <? v) then
    Raise (OtherException "ubyte format requires 0 <= number <= 255")
  else match memory pm !! address with
       | Some c =>
           if can_write c then
             Return (Pm (process_id pm) (process_handle pm)
                        (<[address := Cell v (can_read c) (can_write c)]> (memory pm)))
           else Raise (MemoryWriteError address)
       | None => Raise (MemoryWriteError address)
       end.

(** The operating system and the library's pattern matcher: what the
    program asks of them, and what they may answer. *)
Record World : Type := {
  (* pymem.Pymem(name) *)
  open_process : string -> outcome t;
  (* pymem.process.module_from_name(handle, name) *)
  module_from_name : t -> string -> outcome (option MODULEINFO);
  (* pymem.pattern.pattern_scan_module(handle, module, pattern) *)
  pattern_scan_module : t -> option MODULEINFO -> string -> outcome (option Z);
  (* PYMEM_AVAILABLE: whether [import pymem] succeeded *)
  PYMEM_AVAILABLE : bool
}.

End Pymem.

(** ** class MemoryManager *)

Module MemoryManager.
Import Py.

Record t : Type := Mm {
  pm : option Pymem.t;
  module_base : Z;
  module_size : Z;
  process_id : Z;
  process_name : string;
  last_error : string
}.

(** [__init__] *)
Definition init : t := Mm None 0 0 0 "" "".

Definition set_last_error (mm : t) (msg : string) : t :=
  Mm (pm mm) (module_base mm) (module_size mm) (process_id mm)
     (process_name mm) msg.

Definition set_pm (mm : t) (p : Pymem.t) : t :=
  Mm (Some p) (module_base mm) (module_size mm) (process_id mm)
     (process_name mm) (last_error mm).

Definition ELDEN_RING_PROCESSES : list string :=
  ["eldenring.exe"; "start_protected_game.exe"].

Definition is_attached (mm : t) : bool :=
  match pm mm with Some _ => true | None => false end.

(** [detach]: whatever [close_process] does or raises is dropped. *)
Definition detach (mm : t) : t := Mm None 0 0 0 "" (last_error mm).

Section Attach.
Context (W : Pymem.World).

(** What one pass of the [for name in process_names] loop ends in. *)
Inductive attach_iter : Type :=
| Returned (r : bool) (mm : t)
| FellThrough (mm : t).

(** The three [except] clauses of the loop body, in their order. *)
Definition attach_except (e : exn) (name : string) (mm : t)
           (continue_ : t -> attach_iter) : attach_iter :=
  match e with
  | ProcessNotFound _ => continue_ mm
  | CouldNotOpenProcess _ =>
      Returned false
        (set_last_error mm
           ("Could not open process (run as Administrator): " +:+ exn_str e))
  | OtherException _ =>
      continue_
        (set_last_error mm
           ("Error attaching to " +:+ name +:+ ": " +:+ exn_str e))
  end.

Fixpoint attach_loop (names : list string) (mm : t) : attach_iter :=
  match names with
  | [] => FellThrough mm
  | name :: rest =>
      match Pymem.open_process W name with
      | Raise e => attach_except e name mm (attach_loop rest)
      | Return p =>
          let mm1 := Mm (Some p) (module_base mm) (module_size mm)
                        (Pymem.process_id p) name (last_error mm) in
          match Pymem.module_from_name W p name with
          | Raise e => attach_except e name mm1 (attach_loop rest)
          | Return (Some module) =>
              Returned true
                (Mm (Some p) (Pymem.lpBaseOfDll module)
                    (Pymem.SizeOfImage module)
                    (Pymem.process_id p) name (last_error mm))
          | Return None =>
              attach_loop rest
                (set_last_error mm1
                   ("Could not get module info for " +:+ name))
          end
      end
  end.

Definition attach (mm : t) (process_name : option string) : bool * t :=
  if negb (Pymem.PYMEM_AVAILABLE W) then
    (false, set_last_error mm "pymem not installed. Run: pip install pymem")
  else
    let mm := if is_attached mm then detach mm else mm in
    let process_names :=
      match process_name with
      | Some n => if decide (n = EmptyString) then ELDEN_RING_PROCESSES
                  else n :: ELDEN_RING_PROCESSES
      | None => ELDEN_RING_PROCESSES
      end in
    match attach_loop process_names mm with
    | Returned r mm' => (r, mm')
    | FellThrough mm' =>
        (false,
         set_last_error mm'
           ("Process not found. Tried: " +:+ join ", " process_names))
    end.
End Attach.

Definition read_bytes (mm : t) (address size : Z) : list Z * t :=
  match pm mm with
  | None => ([], mm)
  | Some p =>
      match Pymem.read_bytes p address size with
      | Return bs => (bs, mm)
      | Raise e =>
          ([], set_last_error mm
                 ("Read failed at 0x" +:+ format_X address +:+ ": " +:+ exn_str e))
      end
  end.

Definition read_int64 (mm : t) (address : Z) : Z :=
  match pm mm with
  | None => 0
  | Some p =>
      match Pymem.read_longlong p address with
      | Return v => v
      | Raise _ => 0
      end
  end.

Definition read_byte (mm : t) (address : Z) : Z :=
  match pm mm with
  | None => 0
  | Some p =>
      match Pymem.read_uchar p address with
      | Return v => v
      | Raise _ => 0
      end
  end.

Definition write_byte (mm : t) (address v : Z) : bool * t :=
  match pm mm with
  | None => (false, mm)
  | Some p =>
      match Pymem.write_uchar p address (Z.land v 255) with
      | Return p' => (true, set_pm mm p')
      | Raise e =>
          (false, set_last_error mm
                    ("Write failed at 0x" +:+ format_X address +:+ ": " +:+ exn_str e))
      end
  end.

(** *** [_manual_scan_aob] *)

(** The parsing loop: ['??'] is a wildcard (byte 0, mask [False]), any
    other part goes through [int(part, 16)]. *)
Fixpoint parse_parts (parts : list string) (pattern_bytes : list Z)
         (mask : list bool) : outcome (list Z * list bool) :=
  match parts with
  | [] => Return (pattern_bytes, mask)
  | part :: rest =>
      if decide (part = "??") then
        parse_parts rest (pattern_bytes ++ [0]) (mask ++ [false])
      else
        match int16 part with
        | Return v => parse_parts rest (pattern_bytes ++ [v]) (mask ++ [true])
        | Raise e => Raise e
        end
  end.

Definition parse_pattern (pattern : string) : outcome (list Z * list bool) :=
  parse_parts (split_space pattern) [] [].

(** The body of [for i in range(search_end)]: the [j] loop leaves [found]
    true unless a masked position differs. *)
Definition found_at (pattern_bytes : list Z) (mask : list bool)
           (chunk_bytes : list Z) (i : nat) : bool :=
  forallb
    (fun j => negb ((mask !!! j)
                    && negb (chunk_bytes !!! (i + j)%nat =? pattern_bytes !!! j)))
    (seq 0 (length pattern_bytes)).

(** One pass of the [while] loop ends in a [return] or in a new offset. *)
Inductive scan_iter : Type :=
| Found (r : Z) (mm : t)
| NextChunk (offset : Z) (mm : t).

Section ManualScan.
(** [CHUNK_SIZE] is a local constant of the source (4 MiB); the loop is
    written over it so that properties can be stated for any value. *)
Variable CHUNK_SIZE : Z.
Variables (pattern_bytes : list Z) (mask : list bool).
Variables (rel_offset additional : Z).

Definition scan_chunk (mm : t) (offset : Z) : scan_iter :=
  let pattern_len := length pattern_bytes in
  let overlap := Z.of_nat pattern_len - 1 in
  let remaining := module_size mm - offset in
  let current_chunk_size := Z.min CHUNK_SIZE remaining in
  let '(chunk_bytes, mm) :=
    read_bytes mm (module_base mm + offset) current_chunk_size in
  if bool_decide (chunk_bytes = []) || (length chunk_bytes <? pattern_len)%nat
  then NextChunk (offset + (current_chunk_size - overlap)) mm
  else
    let search_end := (length chunk_bytes - pattern_len + 1)%nat in
    match find (found_at pattern_bytes mask chunk_bytes) (seq 0 search_end) with
    | Some i =>
        let pattern_address := module_base mm + offset + Z.of_nat i in
        let relative_offset_bytes :=
          slice chunk_bytes (Z.of_nat i + rel_offset)
                (Z.of_nat i + rel_offset + 4) in
        match unpack_i relative_offset_bytes with
        | Return relative_offset_val =>
            Found (pattern_address + additional + relative_offset_val) mm
        | Raise e =>
            Found 0 (set_last_error mm ("Manual scan failed: " +:+ exn_str e))
        end
    | None => NextChunk (offset + (current_chunk_size - overlap)) mm
    end.

(** [while offset < self.module_size]; [None] when the fuel runs out
    before the loop is left. *)
Fixpoint scan_loop (fuel : nat) (mm : t) (offset : Z) : option (Z * t) :=
  match fuel with
  | O => None
  | S fuel' =>
      if offset <? module_size mm then
        match scan_chunk mm offset with
        | Found r mm' => Some (r, mm')
        | NextChunk offset' mm' => scan_loop fuel' mm' offset'
        end
      else Some (0, set_last_error mm "Pattern not found in module memory")
  end.
End ManualScan.

Definition manual_scan_with (CHUNK_SIZE : Z) (fuel : nat) (mm : t)
           (pattern : string) (rel_offset additional : Z) : option (Z * t) :=
  match parse_pattern pattern with
  | Raise e =>
      Some (0, set_last_error mm ("Manual scan failed: " +:+ exn_str e))
  | Return (pattern_bytes, mask) =>
      scan_loop CHUNK_SIZE pattern_bytes mask rel_offset additional fuel mm 0
  end.

Definition CHUNK_SIZE : Z := 4 * 1024 * 1024.

(** The signature the tool scans for. *)
Definition EVENT_FLAG_MAN_AOB : string :=
  "48 8B 3D ?? ?? ?? ?? 48 85 FF ?? ?? 32 C0 E9".

Definition _manual_scan_aob : nat -> t -> string -> Z -> Z -> option (Z * t) :=
  manual_scan_with CHUNK_SIZE.

(** *** [scan_aob] *)
Section ScanAob.
Context (W : Pymem.World).

(** The accelerated strategy, i.e. the body of the [try] block up to
    its [return]s: the arguments of [pattern_scan_module] are evaluated
    first, then the call, then [read_int] on a hit.  [Return (Some a)]
    is the resolved address, [Return None] the [else] branch (no hit),
    [Raise e] an exception anywhere in the block. *)
Definition accelerated (p : Pymem.t) (mm : t) (pattern : string)
           (rel_offset additional : Z) : outcome (option Z) :=
  let pymem_pattern := replace_qq pattern in
  match Pymem.module_from_name W p (process_name mm) with
  | Raise e => Raise e
  | Return module =>
      match Pymem.pattern_scan_module W p module pymem_pattern with
      | Raise e => Raise e
      | Return None => Return None
      | Return (Some result) =>
          if result =? 0 then Return None
          else
            match Pymem.read_int p (result + rel_offset) with
            | Raise e => Raise e
            | Return relative_offset =>
                Return (Some (result + additional + relative_offset))
            end
      end
  end.

Definition scan_aob (fuel : nat) (mm : t) (pattern : string)
           (rel_offset additional : Z) : option (Z * t) :=
  match pm mm with
  | None =>
      Some (0, set_last_error mm "Cannot scan: not attached or module size is 0")
  | Some p =>
      if module_size mm =? 0 then
        Some (0, set_last_error mm "Cannot scan: not attached or module size is 0")
      else
        match accelerated p mm pattern rel_offset additional with
        | Return (Some absolute_address) => Some (absolute_address, mm)
        | Return None =>
            Some (0, set_last_error mm "Pattern not found in module memory")
        | Raise e =>
            (* Fallback to manual scan *)
            _manual_scan_aob fuel
              (set_last_error mm ("Pattern scan failed: " +:+ exn_str e))
              pattern rel_offset additional
        end
  end.
End ScanAob.

End MemoryManager.

(** ** class EldenRingModTool: the grace tab *)

Module EldenRingModTool.
Import Py.

(** What the user sees: message boxes and the status lines
    ([conn_status_var], [efm_status_var], [grace_status_var]).  The
    recolouring of labels and the text printed to the console are left
    out. *)
Inductive ui : Type :=
| showerror (title message : string)
| showwarning (title message : string)
| showinfo (title message : string)
| conn_status (text : string)
| efm_status (text : string)
| grace_status (text : string).

(** The fields the unlock path reads.  [grace_checkboxes] is the dict of
    check boxes in insertion order, each with the value [var.get()]
    returns. *)
Record t : Type := Tool {
  memory : MemoryManager.t;
  event_flag_man : Z;
  grace_checkboxes : list (string * bool)
}.

Definition get_event_flag_base (self : t) : Z :=
  if event_flag_man self =? 0 then 0
  else
    let ptr := MemoryManager.read_int64 (memory self) (event_flag_man self) in
    if ptr =? 0 then 0
    else MemoryManager.read_int64 (memory self) (ptr + 0x28).

(** [x or default] on strings. *)
Definition or_else (x default : string) : string :=
  if decide (x = EmptyString) then default else x.

Section Connect.
Context (W : Pymem.World).

(** [connect_to_game]; the fuel is that of the scan. *)
Definition connect_to_game (fuel : nat) (self : t) : option (t * list ui) :=
  let ui0 := [conn_status "Searching for Elden Ring..."] in
  let '(attached, mm) := MemoryManager.attach W (memory self) None in
  let self := Tool mm (event_flag_man self) (grace_checkboxes self) in
  if negb attached then
    let error_msg := or_else (MemoryManager.last_error mm) "Elden Ring is not running" in
    Some (self,
          ui0 ++ [conn_status "Game not found";
                  showerror "Error"
                    (error_msg +:+ nl +:+ nl +:+ "Make sure:" +:+ nl
                       +:+ "1. Elden Ring is running" +:+ nl
                       +:+ "2. A character is loaded" +:+ nl
                       +:+ "3. Run this tool as Administrator if needed")])
  else
    let process_info :=
      "Found: " +:+ MemoryManager.process_name mm +:+ " (PID: "
        +:+ pretty (MemoryManager.process_id mm) +:+ ")" in
    let ui1 := ui0 ++ [conn_status process_info] in
    if MemoryManager.module_base mm =? 0 then
      Some (self,
            ui1 ++ [conn_status "Attached but module not ready";
                    efm_status "Wait for game to fully load...";
                    showwarning "Warning"
                      ("Connected to game but module info not available."
                         +:+ nl +:+ nl
                         +:+ "Wait for the game to fully load and try again.")])
    else
      let ui2 := ui1 ++ [conn_status "Scanning memory..."] in
      match MemoryManager.scan_aob W fuel mm MemoryManager.EVENT_FLAG_MAN_AOB 3 7 with
      | None => None
      | Some (found, mm) =>
          let self := Tool mm found (grace_checkboxes self) in
          if negb (found =? 0) then
            Some (self,
                  ui2 ++ [efm_status ("EventFlagMan: 0x" +:+ format_X found);
                          conn_status ("Connected! (" +:+ MemoryManager.process_name mm
                                         +:+ ")")])
          else
            let scan_error := or_else (MemoryManager.last_error mm) "Unknown error" in
            Some (self,
                  ui2 ++ [efm_status ("EventFlagMan: Not found (" +:+ scan_error +:+ ")");
                          conn_status "Partial connection";
                          showwarning "Warning"
                            ("Connected to game but EventFlagMan not found."
                               +:+ nl +:+ nl +:+ "Error: " +:+ scan_error
                               +:+ nl +:+ nl +:+ "Make sure:" +:+ nl
                               +:+ "1. You're past the title screen" +:+ nl
                               +:+ "2. A character is loaded into the game world")])
      end.
End Connect.

Section Unlock.
(** [KNOWN_GRACES]: name -> (offset, bit), the flattened
    [GRACES_BY_REGION] table.  Bit numbers are naturals, as every
    entry of the table is. *)
Variable KNOWN_GRACES : gmap string (Z * nat).

(** The body of the [for grace_name, var in ...items()] loop. *)
Definition unlock_one (flag_base : Z) (entry : string * bool)
           (st : MemoryManager.t * list string) : MemoryManager.t * list string :=
  let '(mm, unlocked) := st in
  let '(grace_name, var) := entry in
  if var then
    match KNOWN_GRACES !! grace_name with
    | Some (offset, bit) =>
        let addr := flag_base + offset in
        let current := MemoryManager.read_byte mm addr in
        let new_value := Z.lor current (Z.shiftl 1 (Z.of_nat bit)) in
        let '(ok, mm') := MemoryManager.write_byte mm addr new_value in
        if ok then (mm', unlocked ++ [grace_name]) else (mm', unlocked)
    | None => st
    end
  else st.

Definition unlock_loop (flag_base : Z) (boxes : list (string * bool))
           (st : MemoryManager.t * list string) : MemoryManager.t * list string :=
  foldl (fun st entry => unlock_one flag_base entry st) st boxes.

Definition success_message (unlocked : list string) : string :=
  "Unlocked " +:+ pretty (length unlocked) +:+ " graces:" +:+ nl +:+ nl
    +:+ join nl (take 10 unlocked)
    +:+ (if (10 <? length unlocked)%nat
         then nl +:+ "...and " +:+ pretty (length unlocked - 10)%nat +:+ " more"
         else "").

Definition unlock_selected_graces (self : t) : t * list ui :=
  if negb (MemoryManager.is_attached (memory self)) then
    (self, [showerror "Error"
              ("Not connected to game!" +:+ nl +:+ nl
                 +:+ "Click 'Connect to Game' first.")])
  else
    let flag_base := get_event_flag_base self in
    if flag_base =? 0 then
      (self, [showerror "Error"
                ("Could not access event flags." +:+ nl +:+ nl
                   +:+ "Make sure a character is loaded.")])
    else
      let '(mm, unlocked) :=
        unlock_loop flag_base (grace_checkboxes self) (memory self, []) in
      let self' := Tool mm (event_flag_man self) (grace_checkboxes self) in
      match unlocked with
      | [] => (self', [showinfo "Info" "No graces selected"])
      | _ =>
          (self',
           [grace_status ("Unlocked " +:+ pretty (length unlocked) +:+ " graces!");
            showinfo "Success" (success_message unlocked)])
      end.
End Unlock.

(** A few rows of [GRACES_BY_REGION], as the source has them. *)
Definition SOME_GRACES : gmap string (Z * nat) :=
  list_to_map
    [("Table of Lost Grace", (0xA58, 1%nat));
     ("The First Step", (0xCBE, 2%nat));
     ("Church of Elleh", (0xCBE, 3%nat));
     ("Gatefront", (0xCBF, 0%nat));
     ("Agheel Lake South", (0xCBF, 5%nat))].

End EldenRingModTool.

(** ** randomize_stats *)

Module Randomizer.

Definition PLAYER_CLASSES : list (Z * string) :=
  [(3000, "Vagabond"); (3001, "Warrior"); (3002, "Hero"); (3003, "Bandit");
   (3004, "Astrologer"); (3005, "Prisoner"); (3006, "Confessor");
   (3007, "Samurai"); (3008, "Prophet"); (3009, "Wretch")].

Definition TARGET_LEVEL : Z := 9.
Definition TOTAL_STATS : Z := 88.
Definition MIN_STAT : Z := 6.
Definition NUM_STATS : Z := 8.

Definition ATTRIBUTES : list string :=
  ["vigor"; "mind"; "endurance"; "strength";
   "dexterity"; "intelligence"; "faith"; "arcane"].

(** A [dict[str, int]] in insertion order. *)
Definition dict : Type := list (string * Z).

Fixpoint dict_get (d : dict) (k : string) : option Z :=
  match d with
  | [] => None
  | (k', v) :: rest => if decide (k' = k) then Some v else dict_get rest k
  end.

(** [d[k] = v]: in place when the key exists, appended otherwise. *)
Fixpoint dict_set (d : dict) (k : string) (v : Z) : dict :=
  match d with
  | [] => [(k, v)]
  | (k', v') :: rest =>
      if decide (k' = k) then (k', v) :: rest else (k', v') :: dict_set rest k v
  end.

Definition keys (d : dict) : list string := d.*1.

(** One value of [all_stats]: [{'name': ..., 'stats': ...}]. *)
Record entry : Type := Entry { name : string; stats : dict }.

Section Random.
(** The hidden generator of the [random] module: its states, the state
    [random.seed(n)] installs for an integer [n], and the index
    [random.choice] draws for a sequence of a given length. *)
Variable rng : Type.
Variable seed_state : Z -> rng.
Variable randbelow : rng -> nat -> nat * rng.

(** [stats[random.choice(list(stats.keys()))] += 1], [n] times.  The
    key comes from the dict's own keys, so the read cannot fail. *)
Fixpoint add_points (n : nat) (stats : dict) (g : rng) : dict * rng :=
  match n with
  | O => (stats, g)
  | S n' =>
      let ks := keys stats in
      let '(i, g') := randbelow g (length ks) in
      let k := ks !!! i in
      add_points n' (dict_set stats k (default 0 (dict_get stats k) + 1)) g'
  end.

Fixpoint classes_loop (classes : list (Z * string)) (remaining_pool : Z)
         (all_stats : list (Z * entry)) (g : rng) : list (Z * entry) * rng :=
  match classes with
  | [] => (all_stats, g)
  | (row_id, class_name) :: rest =>
      let stats0 : dict := (fun k => (k, MIN_STAT)) <$> ATTRIBUTES in
      let '(stats1, g') := add_points (Z.to_nat remaining_pool) stats0 g in
      let stats2 := dict_set stats1 "level" TARGET_LEVEL in
      classes_loop rest remaining_pool
        (all_stats ++ [(row_id, Entry class_name stats2)]) g'
  end.

(** The generator state before the call is an input: the function
    starts by reseeding it. *)
Definition randomize_stats (seed : Z) (g0 : rng) : list (Z * entry) * rng :=
  let g := seed_state seed in
  let remaining_pool := TOTAL_STATS - MIN_STAT * NUM_STATS in
  classes_loop PLAYER_CLASSES remaining_pool [] g.
End Random.

(** A small linear congruential generator, to run the function on. *)
Definition lcg_seed (n : Z) : Z := n mod 2147483648.
Definition lcg_randbelow (g : Z) (n : nat) : nat * Z :=
  let g' := (1103515245 * g + 12345) mod 2147483648 in
  (Z.to_nat (g' mod Z.of_nat n), g').

End Randomizer.

(** ** Statements about the scan *)

Module ScanSpec.
Import Py MemoryManager.

(** [data] carries the pattern at offset [i]: the pattern fits, and every
    position that is not a wildcard holds the pattern's byte. *)
Definition matches_at (pattern_bytes : list Z) (mask : list bool)
           (data : list Z) (i : nat) : Prop :=
  (i + length pattern_bytes ≤ length data)%nat ∧
  ∀ j b, pattern_bytes !! j = Some b → mask !! j = Some true →
         data !! (i + j)%nat = Some b.

(** The lowest offset of [data] that carries the pattern, by brute force
    over the whole buffer. *)
Definition first_match (pattern_bytes : list Z) (mask : list bool)
           (data : list Z) : option nat :=
  find (found_at pattern_bytes mask data)
       (seq 0 (length data + 1 - length pattern_bytes)).

End ScanSpec.

(** ** Inputs to run the program on *)

Module Examples.
Import Py.

(** A process whose memory is [bs] at [base], readable and writable. *)
Definition cells_of (base : Z) (bs : list Z) : gmap Z Pymem.cell :=
  list_to_map (zip (seqZ base (Z.of_nat (length bs)))
                   ((λ b, Pymem.Cell b true true) <$> bs)).

Definition process_of (base : Z) (bs : list Z) : Pymem.t :=
  Pymem.Pm 4242 7 (cells_of base bs).

(** A manager attached to it, the module being exactly [bs]. *)
Definition manager_of (base : Z) (bs : list Z) : MemoryManager.t :=
  MemoryManager.Mm (Some (process_of base bs)) base (Z.of_nat (length bs))
                   4242 "eldenring.exe" "".

(** Ten bytes without the byte 0xAA. *)
Definition plain_module : list Z := [1; 2; 3; 4; 5; 6; 7; 8; 9; 10].

(** Thirty-two zero bytes: no place carries [EVENT_FLAG_MAN_AOB]. *)
Definition zero_module : list Z := replicate 32 0.

(** [EVENT_FLAG_MAN_AOB] once, at offset 5, the relative field being
    0x100 in little-endian order. *)
Definition game_module : list Z :=
  [0; 0; 0; 0; 0;
   0x48; 0x8B; 0x3D; 0x00; 0x01; 0x00; 0x00; 0x48; 0x85; 0xFF; 0x74; 0x05;
   0x32; 0xC0; 0xE9;
   0; 0; 0; 0].

(** Twelve bytes that carry the pattern [05 ?? ?? ?? ??] once, at offset
    4, the four bytes behind the 05 being 0x100 in little-endian order. *)
Definition small_module : list Z := [1; 2; 3; 4; 5; 0; 1; 0; 0; 10; 11; 12].

(** An operating system in which [eldenring.exe] runs with the image
    [game_module] at 0x1000, and nothing else does; the module lookup and
    the library's matcher answer as given. *)
Definition world_of (lookup : outcome (option Pymem.MODULEINFO))
           (matcher : outcome (option Z)) : Pymem.World :=
  {| Pymem.open_process name :=
       if decide (name = "eldenring.exe")
       then Return (process_of 0x1000 game_module)
       else Raise (ProcessNotFound ("Could not find process: " +:+ name));
     Pymem.module_from_name _ _ := lookup;
     Pymem.pattern_scan_module _ _ _ := matcher;
     Pymem.PYMEM_AVAILABLE := true |}.

Definition game_image : Pymem.MODULEINFO := Pymem.Module_ 0x1000 24.

(** The matcher finds the signature at 0x1005. *)
Definition world_hit : Pymem.World :=
  world_of (Return (Some game_image)) (Return (Some 0x1005)).

(** The matcher completes without a hit. *)
Definition world_miss : Pymem.World :=
  world_of (Return (Some game_image)) (Return None).

(** The matcher raises. *)
Definition world_broken : Pymem.World :=
  world_of (Return (Some game_image))
           (Raise (OtherException "cannot use a string pattern on a bytes-like object")).

(** The process opens, but its module is not in the loader's table yet. *)
Definition world_loading : Pymem.World :=
  world_of (Return None) (Return None).

(** Memory for the unlock path: the pointer chain
    [[0x2000] + 0x28] = 0x10000 and some flag bytes behind it. *)
Definition region (base : Z) (r w : bool) (bs : list Z) : gmap Z Pymem.cell :=
  list_to_map (zip (seqZ base (Z.of_nat (length bs)))
                   ((λ b, Pymem.Cell b r w) <$> bs)).

Definition pointer_chain : gmap Z Pymem.cell :=
  region 0x2000 true true [0x00; 0x30; 0; 0; 0; 0; 0; 0]
  ∪ region 0x3028 true true [0x00; 0x00; 0x01; 0; 0; 0; 0; 0].

Definition tool_of (flags : gmap Z Pymem.cell) (boxes : list (string * bool))
  : EldenRingModTool.t :=
  EldenRingModTool.Tool
    (MemoryManager.Mm (Some (Pymem.Pm 4242 7 (pointer_chain ∪ flags)))
                      0x1000 24 4242 "eldenring.exe" "")
    0x2000 boxes.

(** The byte of "Gatefront" (0x10CBF) cannot be written; the byte shared
    by "Church of Elleh" and "The First Step" (0x10CBE) can. *)
Definition flags_gatefront_locked : gmap Z Pymem.cell :=
  region 0x10CBE true true [0x01] ∪ region 0x10CBF true false [0x00].

Definition three_checked : list (string * bool) :=
  [("Church of Elleh", true); ("Gatefront", true); ("The First Step", true)].

Definition two_checked : list (string * bool) :=
  [("Church of Elleh", true); ("Gatefront", false); ("The First Step", true)].

(** The byte of "The First Step" holds 0x41 and cannot be read at the
    moment, though it can be written. *)
Definition flags_first_step_unreadable : gmap Z Pymem.cell :=
  region 0x10CBE false true [0x41] ∪ region 0x10CBF true true [0x00].

Definition first_step_and_gatefront : list (string * bool) :=
  [("The First Step", true); ("Gatefront", true)].

End Examples.

(** ** Statements about the randomizer *)

Module RandomizerSpec.
Import Randomizer.

(** The sum of the eight attributes, [level] left out, as
    [format_stats_text] prints it. *)
Definition attribute_total (d : dict) : Z :=
  foldr (λ k acc, default 0 (dict_get d k) + acc) 0 ATTRIBUTES.

(** A class's stats: the eight attributes and [level], in this order;
    every attribute at least [MIN_STAT]; the attributes adding up to
    [TOTAL_STATS]; [level] equal to [TARGET_LEVEL]. *)
Definition well_formed (d : dict) : Prop :=
  keys d = ATTRIBUTES ++ ["level"] ∧
  (∀ k, k ∈ ATTRIBUTES → ∃ v, dict_get d k = Some v ∧ MIN_STAT ≤ v) ∧
  attribute_total d = TOTAL_STATS ∧
  dict_get d "level" = Some TARGET_LEVEL.

End RandomizerSpec.

(** ** class EldenRingModTool: check boxes and presets *)

Module GraceTab.
Import Py EldenRingModTool.

(** [for var in self.grace_checkboxes.values(): var.set(v)] *)
Definition set_all (v : bool) (boxes : list (string * bool)) : list (string * bool) :=
  (λ entry, (entry.1, v)) <$> boxes.

Definition select_all_graces (self : t) : t :=
  Tool (memory self) (event_flag_man self) (set_all true (grace_checkboxes self)).

Definition deselect_all_graces (self : t) : t :=
  Tool (memory self) (event_flag_man self) (set_all false (grace_checkboxes self)).

Definition unlock_all_graces (KNOWN_GRACES : gmap string (Z * nat)) (self : t)
  : t * list ui :=
  unlock_selected_graces KNOWN_GRACES (select_all_graces self).

(** [self.grace_checkboxes[grace_name].set(True)] *)
Definition check (grace_name : string) (boxes : list (string * bool))
  : list (string * bool) :=
  (λ entry : string * bool,
     if decide (entry.1 = grace_name) then (entry.1, true) else entry) <$> boxes.

(** What the preset functions show: the events of [ui], and the search
    field and its result line, which [apply_grace_preset] clears (setting
    the search variable runs [filter_graces] on the empty text; the
    showing and hiding of widgets is left out). *)
Inductive event : Type :=
| shown (e : ui)
| grace_search (text : string)
| search_results (text : string).

Section Presets.
(** [GRACE_PRESETS]: preset name -> list of grace names. *)
Variable GRACE_PRESETS : gmap string (list string).

(** The loop [for grace_name in preset_graces]. *)
Fixpoint preset_loop (preset_graces : list string) (boxes : list (string * bool))
         (selected_count : nat) (not_found : list string)
  : list (string * bool) * nat * list string :=
  match preset_graces with
  | [] => (boxes, selected_count, not_found)
  | grace_name :: rest =>
      if bool_decide (grace_name ∈ boxes.*1) then
        preset_loop rest (check grace_name boxes) (S selected_count) not_found
      else
        preset_loop rest boxes selected_count (not_found ++ [grace_name])
  end.

(** [apply_grace_preset], [preset_name] being [self.preset_var.get()]. *)
Definition apply_grace_preset (preset_name : string) (self : t) : t * list event :=
  if decide (preset_name = EmptyString) then
    (self, [shown (showinfo "Info" "Please select a preset first.")])
  else
    match GRACE_PRESETS !! preset_name with
    | None => (self, [shown (showerror "Error" ("Unknown preset: " +:+ preset_name))])
    | Some preset_graces =>
        let self := deselect_all_graces self in
        let '(boxes, selected_count, not_found) :=
          preset_loop preset_graces (grace_checkboxes self) 0 [] in
        let self := Tool (memory self) (event_flag_man self) boxes in
        (self,
         [grace_search ""; search_results ""]
           ++ match not_found with
              | [] =>
                  [shown (grace_status
                            ("Preset '" +:+ preset_name +:+ "' applied ("
                               +:+ pretty selected_count +:+ " graces)"))]
              | _ =>
                  [shown (showwarning "Warning"
                            ("Selected " +:+ pretty selected_count +:+ " graces."
                               +:+ nl +:+ nl +:+ "Not found ("
                               +:+ pretty (length not_found) +:+ "):" +:+ nl
                               +:+ join nl not_found))]
              end)
    end.

(** [unlock_preset_graces]: apply the preset, then unlock what is checked. *)
Definition unlock_preset_graces (KNOWN_GRACES : gmap string (Z * nat))
           (preset_name : string) (self : t) : t * list event :=
  if decide (preset_name = EmptyString) then
    (self, [shown (showinfo "Info" "Please select a preset first.")])
  else
    let '(self, applied) := apply_grace_preset preset_name self in
    let '(self, unlocked) := unlock_selected_graces KNOWN_GRACES self in
    (self, applied ++ (shown <$> unlocked)).
End Presets.

(** Two of the presets of the source. *)
Definition SOME_PRESETS : gmap string (list string) :=
  list_to_map
    [("Early Game",
      ["The First Step"; "Church of Elleh"; "Gatefront"; "Stormhill Shack";
       "Agheel Lake South"; "Agheel Lake North"; "Waypoint Ruins Cellar"]);
     ("All Roundtables", ["Table of Lost Grace"])].

End GraceTab.

(** ** The preview text and the weapon offsets *)

Module Stats.
Import Py Randomizer.

(** [c * n] for a one-character string. *)
Fixpoint repeat_char (c : ascii) (n : nat) : string :=
  match n with
  | O => EmptyString
  | S n' => String c (repeat_char c n')
  end.

(** [f"{s:10s}"]: padded with spaces on the right, never cut. *)
Definition ljust (width : nat) (s : string) : string :=
  s +:+ repeat_char " " (width - String.length s).

(** [f"{n:2d}"]: padded with spaces on the left, never cut. *)
Definition fmt_d (width : nat) (n : Z) : string :=
  repeat_char " " (width - String.length (pretty n)) +:+ pretty n.

(** [sum(v for k, v in s.items() if k != 'level')] *)
Definition items_total (s : dict) : Z :=
  foldr Z.add 0 (filter (λ kv : string * Z, kv.1 ≠ "level") s).*2.

(** One line of [format_stats_text]; [None] is the [KeyError] of a missing
    stat. *)
Definition format_row (d : entry) : option string :=
  let s := stats d in
  let total := items_total s in
  level ← dict_get s "level";
  vigor ← dict_get s "vigor";
  mind ← dict_get s "mind";
  endurance ← dict_get s "endurance";
  strength ← dict_get s "strength";
  dexterity ← dict_get s "dexterity";
  intelligence ← dict_get s "intelligence";
  faith ← dict_get s "faith";
  arcane ← dict_get s "arcane";
  Some ("[" +:+ ljust 10 (name d) +:+ "] Lv:" +:+ fmt_d 2 level +:+ " | "
          +:+ "Vig:" +:+ fmt_d 2 vigor +:+ " Min:" +:+ fmt_d 2 mind
          +:+ " End:" +:+ fmt_d 2 endurance +:+ " "
          +:+ "Str:" +:+ fmt_d 2 strength +:+ " Dex:" +:+ fmt_d 2 dexterity
          +:+ " Int:" +:+ fmt_d 2 intelligence +:+ " "
          +:+ "Fai:" +:+ fmt_d 2 faith +:+ " Arc:" +:+ fmt_d 2 arcane
          +:+ " | Total: " +:+ pretty total).

(** [all_stats[row_id]] *)
Fixpoint stats_get (all_stats : list (Z * entry)) (row_id : Z) : option entry :=
  match all_stats with
  | [] => None
  | (k, d) :: rest => if decide (k = row_id) then Some d else stats_get rest row_id
  end.

Definition format_stats_text (all_stats : list (Z * entry)) : option string :=
  rows ← mapM (λ row_id, d ← stats_get all_stats row_id; format_row d)
              (merge_sort Z.le all_stats.*1);
  Some (join nl ([repeat_char "-" 65] ++ rows ++ [repeat_char "-" 65])).

(** [stat_mapping] of [calculate_class_offset], in its order. *)
Definition stat_mapping : list (string * string) :=
  [("str", "strength"); ("dex", "dexterity"); ("int", "intelligence");
   ("fth", "faith"); ("arc", "arcane")].

Section Offset.
(** [int(class_val * 1.5)]: the product in floating point, truncated. *)
Variable times_1_5 : Z → Z.

(** The class value a requirement is compared with. *)
Definition effective (class_stats : dict) (req_stat class_stat : string) : Z :=
  let class_val := default 0 (dict_get class_stats class_stat) in
  if decide (req_stat = "str") then times_1_5 class_val else class_val.

Definition calculate_class_offset (weapon_reqs : gmap string Z)
           (class_stats : dict) : Z :=
  foldl (λ cost (m : string * string),
           let req_val := default 0 (weapon_reqs !! m.1) in
           cost + Z.max 0 (req_val - effective class_stats m.1 m.2))
        0 stat_mapping.
End Offset.

(** [int(x * 1.5)] for the integers a stat can take: below 2^51 in
    absolute value the product is exact, and [int] cuts towards zero. *)
Definition times_1_5_exact (x : Z) : Z := Z.quot (3 * x) 2.

End Stats.

(** ** More statements *)

Module MoreSpec.
Import Py MemoryManager.

(** Two manager states that differ at most in [last_error]. *)
Definition same_session (a b : MemoryManager.t) : Prop :=
  pm a = pm b ∧ module_base a = module_base b ∧ module_size a = module_size b ∧
  process_id a = process_id b ∧ process_name a = process_name b.

(** The line [format_stats_text] prints for a class whose stats are well
    formed: level 9, the eight attributes, total 88. *)
Definition expected_row (d : Randomizer.entry) : string :=
  let v k := default 0 (Randomizer.dict_get (Randomizer.stats d) k) in
  "[" +:+ Stats.ljust 10 (Randomizer.name d) +:+ "] Lv: 9 | Vig:"
    +:+ Stats.fmt_d 2 (v "vigor") +:+ " Min:" +:+ Stats.fmt_d 2 (v "mind")
    +:+ " End:" +:+ Stats.fmt_d 2 (v "endurance")
    +:+ " Str:" +:+ Stats.fmt_d 2 (v "strength")
    +:+ " Dex:" +:+ Stats.fmt_d 2 (v "dexterity")
    +:+ " Int:" +:+ Stats.fmt_d 2 (v "intelligence")
    +:+ " Fai:" +:+ Stats.fmt_d 2 (v "faith")
    +:+ " Arc:" +:+ Stats.fmt_d 2 (v "arcane") +:+ " | Total: 88".

(** The candidate names [attach] tries, in order: the caller's name
    first when one is given, then the known ones. *)
Definition process_names_of (process_name : option string) : list string :=
  match process_name with
  | Some n => if decide (n = EmptyString) then ELDEN_RING_PROCESSES
              else n :: ELDEN_RING_PROCESSES
  | None => ELDEN_RING_PROCESSES
  end.

(** The manager [attach] starts its loop with: a session still held is
    released first. *)
Definition released (mm : MemoryManager.t) : MemoryManager.t :=
  if is_attached mm then detach mm else mm.

(** Module data is recorded only while a process is held. *)
Definition consistent (mm : MemoryManager.t) : Prop :=
  pm mm = None → module_base mm = 0 ∧ module_size mm = 0.

(** Two manager states that differ at most in the bytes of the process
    they hold and in [last_error]. *)
Definition same_session_but_memory (a b : MemoryManager.t) : Prop :=
  (pm a = None ↔ pm b = None) ∧
  module_base a = module_base b ∧ module_size a = module_size b ∧
  process_id a = process_id b ∧ process_name a = process_name b.

(** Bit [bit] of the byte at [address] is set. *)
Definition bit_set (memory : gmap Z Pymem.cell) (address : Z) (bit : nat) : Prop :=
  ∃ c, memory !! address = Some c ∧ Z.testbit (Pymem.value c) (Z.of_nat bit) = true.

(** The remote memory a manager sees; nothing when no process is held. *)
Definition memory_of (mm : MemoryManager.t) : gmap Z Pymem.cell :=
  match pm mm with
  | Some p => Pymem.memory p
  | None => ∅
  end.

(** The names the unlock loop acts on: checked boxes with an entry in the
    table, in the order of the boxes. *)
Definition requested (KNOWN_GRACES : gmap string (Z * nat))
           (boxes : list (string * bool)) : list string :=
  omap (λ entry : string * bool,
          if entry.2 && bool_decide (is_Some (KNOWN_GRACES !! entry.1))
          then Some entry.1 else None) boxes.

(** Every requested flag of [boxes] has a bit number below 8 and lies on a
    mapped byte that holds a value in 0..255 and can be read and written. *)
Definition flags_accessible (KNOWN_GRACES : gmap string (Z * nat))
           (flag_base : Z) (boxes : list (string * bool))
           (memory : gmap Z Pymem.cell) : Prop :=
  ∀ name offset bit,
    (name, true) ∈ boxes → KNOWN_GRACES !! name = Some (offset, bit) →
    (bit < 8)%nat ∧
    ∃ b, memory !! (flag_base + offset) = Some (Pymem.Cell b true true) ∧
         0 ≤ b < 256.

(** No requested flag of [boxes] lies on a byte that can be written. *)
Definition flags_write_protected (KNOWN_GRACES : gmap string (Z * nat))
           (flag_base : Z) (boxes : list (string * bool))
           (memory : gmap Z Pymem.cell) : Prop :=
  ∀ name offset bit c,
    (name, true) ∈ boxes → KNOWN_GRACES !! name = Some (offset, bit) →
    memory !! (flag_base + offset) = Some c → Pymem.can_write c = false.

End MoreSpec.

(** ** More inputs *)

Module MoreExamples.
Import Py Examples.

(** Sixteen bytes that carry the pattern [0A ?? 0C] twice, at offsets 3
    and 9. *)
Definition twice_module : list Z :=
  [1; 2; 3; 0x0A; 0x0B; 0x0C; 7; 8; 9; 0x0A; 0xFF; 0x0C; 0; 0; 0; 0].

(** No candidate process runs. *)
Definition world_empty : Pymem.World :=
  {| Pymem.open_process name :=
       Raise (ProcessNotFound ("Could not find process: " +:+ name));
     Pymem.module_from_name _ _ := Return None;
     Pymem.pattern_scan_module _ _ _ := Return None;
     Pymem.PYMEM_AVAILABLE := true |}.

(** [start_protected_game.exe] runs but may not be opened; nothing else
    runs. *)
Definition world_denied : Pymem.World :=
  {| Pymem.open_process name :=
       if decide (name = "start_protected_game.exe")
       then Raise (CouldNotOpenProcess "Could not open process: 4242")
       else Raise (ProcessNotFound ("Could not find process: " +:+ name));
     Pymem.module_from_name _ _ := Return None;
     Pymem.pattern_scan_module _ _ _ := Return None;
     Pymem.PYMEM_AVAILABLE := true |}.

(** Both flag bytes of [three_checked] can be read and written. *)
Definition flags_open : gmap Z Pymem.cell :=
  region 0x10CBE true true [0x01; 0x40].

(** Both flag bytes are mapped read-only. *)
Definition flags_read_only : gmap Z Pymem.cell :=
  region 0x10CBE true false [0x01; 0x40].

(** The first pointer of the chain is null. *)
Definition tool_without_event_flags : EldenRingModTool.t :=
  EldenRingModTool.Tool
    (MemoryManager.Mm
       (Some (Pymem.Pm 4242 7
                (region 0x2000 true true [0; 0; 0; 0; 0; 0; 0; 0] ∪ flags_open)))
       0x1000 24 4242 "eldenring.exe" "")
    0x2000 three_checked.

(** Four boxes, two of them checked; "Table of Lost Grace" has no box. *)
Definition four_boxes : list (string * bool) :=
  [("Agheel Lake South", true); ("Church of Elleh", false);
   ("Gatefront", true); ("The First Step", false)].

(** Six boxes: three ticked ones with a row in [SOME_GRACES], an unticked
    one before them, a ticked one without a row in between, and an
    unticked one behind them. *)
Definition six_boxes : list (string * bool) :=
  [("Agheel Lake South", false); ("Church of Elleh", true);
   ("Gatefront", true); ("Stormhill Shack", true);
   ("The First Step", true); ("Table of Lost Grace", false)].





(** Modules a few bytes longer than one chunk of the manual scan; each
    carries the pattern [AA ?? ?? ?? ??] exactly once.  In
    [chunk_end_module] the match is the last one the first chunk can hold
    (offset [CHUNK_SIZE - 5]); in [chunk_start_module] it is the first one
    of the second chunk (offset [CHUNK_SIZE - 4]). *)
Definition chunk_end_module : list Z :=
  replicate (Z.to_nat (MemoryManager.CHUNK_SIZE - 5)) 0 ++ [0xAA; 1; 2; 3; 4; 5; 6].

Definition chunk_start_module : list Z :=
  replicate (Z.to_nat (MemoryManager.CHUNK_SIZE - 5)) 0 ++ [0; 0xAA; 1; 2; 3; 4].

(** A pattern of [CHUNK_SIZE + 1] parts ["00"], and a module of as many
    zero bytes: the pattern fits exactly once, at offset 0. *)
Definition long_pattern : string :=
  join " " (replicate (Z.to_nat (MemoryManager.CHUNK_SIZE + 1)) "00").

Definition long_module : list Z :=
  replicate (Z.to_nat (MemoryManager.CHUNK_SIZE + 1)) 0.

(** A greatsword: strength 16, dexterity 13. *)
Definition greatsword : gmap string Z :=
  list_to_map [("str", 16); ("dex", 13)].

(** A class with strength 10 and dexterity 14. *)
Definition warrior_like : Randomizer.dict :=
  [("vigor", 11); ("mind", 12); ("endurance", 11); ("strength", 10);
   ("dexterity", 14); ("intelligence", 10); ("faith", 8); ("arcane", 12);
   ("level", 9)].

End MoreExamples.

(** * Properties *)

(** ** Reading a range of the remote process *)

Module ReadFacts.
Import Py.

(** The bytes [read_bytes] returns are the readable cells of the range,
    in address order. *)
Lemma read_bytes_Return p a n bs :
  Pymem.read_bytes p a n = Return bs ↔
  0 ≤ n ∧ Forall2 (λ x b, Pymem.read_cell p x = Some b) (seqZ a n) bs.
Proof.
  unfold Pymem.read_bytes. destruct (Z.ltb_spec n 0) as [Hn|Hn].
  - split; [discriminate | lia].
  - destruct (mapM _ _) as [bs'|] eqn:E.
    + apply mapM_Some in E. split.
      * intros [= <-]. done.
      * intros [_ H]. apply mapM_Some in E, H.
        rewrite E in H. by injection H as ->.
    + split; [discriminate|]. intros [_ H]. apply mapM_Some in H. congruence.
Qed.

Lemma read_bytes_length p a n bs :
  Pymem.read_bytes p a n = Return bs → length bs = Z.to_nat n.
Proof.
  intros [_ H]%read_bytes_Return.
  apply Forall2_length in H. by rewrite length_seqZ in H.
Qed.

(** A range inside a range that reads as [buf] reads as the matching
    piece of [buf]. *)
Lemma read_bytes_sub p base n buf (o c : nat) :
  Pymem.read_bytes p base n = Return buf →
  (o + c ≤ length buf)%nat →
  Pymem.read_bytes p (base + Z.of_nat o) (Z.of_nat c)
  = Return (take c (drop o buf)).
Proof.
  intros H Hlen. pose proof (read_bytes_length _ _ _ _ H) as Hl.
  apply read_bytes_Return in H as [Hn H].
  apply read_bytes_Return. split; [lia|].
  assert (seqZ (base + Z.of_nat o) (Z.of_nat c) = take c (drop o (seqZ base n))) as ->.
  { replace n with (Z.of_nat o + (Z.of_nat c + (n - Z.of_nat o - Z.of_nat c))) by lia.
    rewrite seqZ_app by lia.
    rewrite drop_app_length' by (rewrite length_seqZ; lia).
    rewrite seqZ_app by lia.
    rewrite take_app_length' by (rewrite length_seqZ; lia). done. }
  by apply Forall2_take, Forall2_drop.
Qed.

(** What [MemoryManager.read_bytes] hands to the scan. *)
Lemma mm_read_bytes_length mm a n :
  (length (MemoryManager.read_bytes mm a n).1 ≤ Z.to_nat n)%nat.
Proof.
  unfold MemoryManager.read_bytes. destruct (MemoryManager.pm mm) as [p|]; simpl; [|lia].
  destruct (Pymem.read_bytes p a n) as [bs|e] eqn:E; simpl; [|lia].
  apply read_bytes_length in E. lia.
Qed.

Lemma mm_read_bytes_keeps mm a n :
  let mm' := (MemoryManager.read_bytes mm a n).2 in
  MemoryManager.pm mm' = MemoryManager.pm mm ∧
  MemoryManager.module_base mm' = MemoryManager.module_base mm ∧
  MemoryManager.module_size mm' = MemoryManager.module_size mm.
Proof.
  unfold MemoryManager.read_bytes. destruct (MemoryManager.pm mm) as [p|] eqn:Hp; simpl; [|done].
  destruct (Pymem.read_bytes p a n); simpl; rewrite ?Hp; done.
Qed.

End ReadFacts.

(** ** The manual chunked scan *)

Module ScanFacts.
Import Py MemoryManager ScanSpec.

(** *** Lists *)

Lemma find_seq_first (f : nat → bool) s k i :
  (s ≤ i < s + k)%nat → f i = true → (∀ j, (s ≤ j < i)%nat → f j = false) →
  find f (seq s k) = Some i.
Proof.
  revert s. induction k as [|k IH]; intros s Hi Hf Hlow; [lia|]. simpl.
  destruct (decide (s = i)) as [->|Hne].
  - by rewrite Hf.
  - rewrite Hlow by lia. apply IH; [lia|done|]. intros j Hj. apply Hlow. lia.
Qed.

Lemma find_seq_none (f : nat → bool) s k :
  (∀ j, (s ≤ j < s + k)%nat → f j = false) → find f (seq s k) = None.
Proof.
  revert s. induction k as [|k IH]; intros s H; [done|]. simpl.
  rewrite H by lia. apply IH. intros j Hj. apply H. lia.
Qed.

Lemma forallb_seq_ext (f g : nat → bool) s k :
  (∀ j, (s ≤ j < s + k)%nat → f j = g j) →
  forallb f (seq s k) = forallb g (seq s k).
Proof.
  revert s. induction k as [|k IH]; intros s H; [done|]. simpl.
  rewrite H by lia. f_equal. apply IH. intros j Hj. apply H. lia.
Qed.

Lemma slice_inside {A} (l : list A) (a b : Z) :
  0 ≤ a → a ≤ b → b ≤ Z.of_nat (length l) →
  slice l a b = take (Z.to_nat (b - a)) (drop (Z.to_nat a) l).
Proof.
  intros Ha Hab Hb. unfold slice, slice_index.
  destruct (Z.ltb_spec a 0); [lia|]. destruct (Z.ltb_spec b 0); [lia|].
  by rewrite !Z.min_l by lia.
Qed.

(** *** The masked compare *)

Lemma found_at_true pattern_bytes mask data i :
  length mask = length pattern_bytes →
  (i + length pattern_bytes ≤ length data)%nat →
  found_at pattern_bytes mask data i = true ↔ matches_at pattern_bytes mask data i.
Proof.
  intros Hm Hfit. unfold found_at, matches_at. rewrite forallb_forall. split.
  - intros H. split; [done|]. intros j b Hb Hmask.
    pose proof (lookup_lt_Some _ _ _ Hb) as Hj.
    specialize (H j). rewrite in_seq in H. specialize (H ltac:(lia)).
    rewrite (list_lookup_total_correct _ _ _ Hmask) in H.
    rewrite (list_lookup_total_correct _ _ _ Hb) in H. simpl in H.
    apply negb_true_iff, negb_false_iff, Z.eqb_eq in H. subst b.
    apply list_lookup_lookup_total_lt. lia.
  - intros [_ H] j [_ Hj]%in_seq. simpl in Hj.
    destruct (lookup_lt_is_Some_2 pattern_bytes j Hj) as [b Hb].
    destruct (lookup_lt_is_Some_2 mask j ltac:(lia)) as [w Hw].
    rewrite (list_lookup_total_correct _ _ _ Hw).
    rewrite (list_lookup_total_correct _ _ _ Hb).
    destruct w; [|done]. simpl.
    rewrite (list_lookup_total_correct _ _ _ (H j b Hb Hw)).
    by rewrite Z.eqb_refl.
Qed.

(** A window of the buffer compares like the buffer itself. *)
Lemma found_at_chunk pattern_bytes mask buf (o c i : nat) :
  (i + length pattern_bytes ≤ c)%nat →
  found_at pattern_bytes mask (take c (drop o buf)) i
  = found_at pattern_bytes mask buf (o + i).
Proof.
  intros Hi. unfold found_at. apply forallb_seq_ext. intros j Hj.
  rewrite lookup_total_take_lt by lia. rewrite lookup_total_drop.
  by rewrite Nat.add_assoc.
Qed.

Lemma parse_parts_lengths parts pattern_bytes mask pb' mask' :
  length mask = length pattern_bytes →
  parse_parts parts pattern_bytes mask = Return (pb', mask') →
  length mask' = length pb' ∧
  length pb' = (length pattern_bytes + length parts)%nat.
Proof.
  revert pattern_bytes mask. induction parts as [|part rest IH]; simpl.
  - intros ?? H [= <- <-]. split; [done|lia].
  - intros pattern_bytes mask H. case_decide.
    + intros E. apply IH in E; [|rewrite !length_app; simpl; lia].
      rewrite length_app in E. simpl in E. split; [tauto|lia].
    + destruct (int16 part); [|discriminate].
      intros E. apply IH in E; [|rewrite !length_app; simpl; lia].
      rewrite length_app in E. simpl in E. split; [tauto|lia].
Qed.

Lemma split_space_length s : (1 ≤ length (split_space s))%nat.
Proof.
  induction s as [|c s IH]; simpl; [lia|].
  destruct (Ascii.eqb c " "); simpl; [lia|].
  destruct (split_space s); simpl in *; lia.
Qed.

(** A pattern that parses has one mask entry per byte and is not empty. *)
Lemma parse_pattern_lengths pattern pattern_bytes mask :
  parse_pattern pattern = Return (pattern_bytes, mask) →
  length mask = length pattern_bytes ∧ (1 ≤ length pattern_bytes)%nat.
Proof.
  intros H. apply parse_parts_lengths in H as [? H2]; [|done].
  pose proof (split_space_length pattern). simpl in H2. split; [done|lia].
Qed.

(** *** The loop over a module that reads as [buf] *)

Lemma module_size_buf p mm buf :
  Pymem.read_bytes p (module_base mm) (module_size mm) = Return buf →
  module_size mm = Z.of_nat (length buf).
Proof.
  intros Hread. pose proof (ReadFacts.read_bytes_length _ _ _ _ Hread) as Hl.
  apply ReadFacts.read_bytes_Return in Hread as [Hn _]. lia.
Qed.

Section Buffer.
Context (C : Z) (pattern_bytes : list Z) (mask : list bool).
Context (rel_offset additional : Z).
Context (p : Pymem.t) (buf : list Z) (mm : t).

Hypothesis Hpm : pm mm = Some p.
Hypothesis Hread :
  Pymem.read_bytes p (module_base mm) (module_size mm) = Return buf.
Hypothesis HL : (1 ≤ length pattern_bytes)%nat.
Hypothesis HC : Z.of_nat (length pattern_bytes) ≤ C.

Local Abbreviation L := (length pattern_bytes).
Local Abbreviation loop := (scan_loop C pattern_bytes mask rel_offset additional).
Local Abbreviation chunk_at := (scan_chunk C pattern_bytes mask rel_offset additional).

(** A chunk that starts where a whole pattern still fits is read in full
    and searched. *)
Lemma scan_chunk_inside (o : nat) :
  (o + L ≤ length buf)%nat →
  let c := Z.to_nat (Z.min C (Z.of_nat (length buf) - Z.of_nat o)) in
  let chunk := take c (drop o buf) in
  (L ≤ c)%nat ∧ (o + c ≤ length buf)%nat ∧
  chunk_at mm (Z.of_nat o) =
  match find (found_at pattern_bytes mask chunk) (seq 0 (c - L + 1)) with
  | Some i =>
      match unpack_i (slice chunk (Z.of_nat i + rel_offset)
                            (Z.of_nat i + rel_offset + 4)) with
      | Return v =>
          Found (module_base mm + Z.of_nat o + Z.of_nat i + additional + v) mm
      | Raise e =>
          Found 0 (set_last_error mm ("Manual scan failed: " +:+ exn_str e))
      end
  | None => NextChunk (Z.of_nat o + (Z.of_nat c - (Z.of_nat L - 1))) mm
  end.
Proof.
  intros Ho c chunk. assert (L ≤ c)%nat as Hc1 by (unfold c; lia).
  assert (o + c ≤ length buf)%nat as Hc2 by (unfold c; lia).
  split; [done|]. split; [done|].
  unfold scan_chunk, read_bytes. rewrite Hpm, (module_size_buf _ _ _ Hread).
  replace (Z.min C (Z.of_nat (length buf) - Z.of_nat o)) with (Z.of_nat c)
    by (unfold c; lia).
  rewrite (ReadFacts.read_bytes_sub _ _ _ _ _ _ Hread) by done.
  fold chunk. assert (length chunk = c) as Hlen.
  { unfold chunk. rewrite length_take, length_drop. lia. }
  rewrite Hlen.
  replace (bool_decide (chunk = [])) with false.
  2:{ symmetry. apply bool_decide_eq_false. intros E. rewrite E in Hlen.
      simpl in Hlen. lia. }
  replace (c <? L)%nat with false by (symmetry; apply Nat.ltb_ge; lia).
  done.
Qed.

(** The four bytes the hit is resolved with come from the buffer. *)
Lemma take_drop_window {A} (l : list A) (o c k w : nat) :
  (k + w ≤ c)%nat →
  take w (drop k (take c (drop o l))) = take w (drop (o + k) l).
Proof.
  intros H. rewrite skipn_firstn_comm, take_take, drop_drop.
  f_equal. lia.
Qed.

(** The loop returns at the lowest offset that carries the pattern, and
    resolves it with the four bytes at [rel_offset] inside the hit. *)
Lemma scan_loop_lowest_match (m : nat) :
  (m + L ≤ length buf)%nat →
  found_at pattern_bytes mask buf m = true →
  (∀ j, (j < m)%nat → found_at pattern_bytes mask buf j = false) →
  0 ≤ rel_offset → rel_offset + 4 ≤ Z.of_nat L →
  ∀ fuel (o : nat), (o ≤ m)%nat → (m - o < fuel)%nat →
  loop fuel mm (Z.of_nat o)
  = Some (module_base mm + Z.of_nat m + additional
          + le_signed (take 4 (drop (m + Z.to_nat rel_offset) buf)), mm).
Proof.
  intros Hfit Hm Hlow Hr0 Hr4. induction fuel as [|fuel IH]; intros o Ho Hf; [lia|].
  simpl. rewrite (module_size_buf _ _ _ Hread).
  destruct (Z.ltb_spec (Z.of_nat o) (Z.of_nat (length buf))) as [_|?]; [|lia].
  destruct (scan_chunk_inside o ltac:(lia)) as (Hc1 & Hc2 & ->).
  set (c := Z.to_nat (Z.min C (Z.of_nat (length buf) - Z.of_nat o))) in *.
  destruct (decide (m - o < c - L + 1)%nat) as [Hin|Hout].
  - rewrite (find_seq_first _ 0 _ (m - o)%nat); [|lia| |].
    + rewrite slice_inside; [| lia | lia |].
      2:{ rewrite length_take, length_drop. lia. }
      replace (Z.to_nat (Z.of_nat (m - o) + rel_offset + 4
                         - (Z.of_nat (m - o) + rel_offset))) with 4%nat by lia.
      replace (Z.to_nat (Z.of_nat (m - o) + rel_offset))
        with (m - o + Z.to_nat rel_offset)%nat by lia.
      rewrite take_drop_window by lia.
      replace (o + (m - o + Z.to_nat rel_offset))%nat
        with (m + Z.to_nat rel_offset)%nat by lia.
      unfold unpack_i. rewrite decide_True.
      2:{ rewrite length_take, length_drop. lia. }
      do 2 f_equal. lia.
    + rewrite found_at_chunk by lia. by replace (o + (m - o))%nat with m by lia.
    + intros j Hj. rewrite found_at_chunk by lia. apply Hlow. lia.
  - rewrite find_seq_none.
    2:{ intros j Hj. rewrite found_at_chunk by lia. apply Hlow. lia. }
    replace (Z.of_nat o + (Z.of_nat c - (Z.of_nat L - 1)))
      with (Z.of_nat (o + c - L + 1)) by lia.
    apply IH; lia.
Qed.

End Buffer.

(** *** The loop when the pattern is absent *)

(** Once fewer bytes remain than the overlap, a pass reads a chunk shorter
    than the pattern and sets [offset] to [module_size - overlap]: with an
    overlap of at least one byte the loop condition stays true. *)
Lemma scan_loop_no_match_diverges C pattern_bytes mask rel_offset additional p buf :
  (2 ≤ length pattern_bytes)%nat →
  Z.of_nat (length pattern_bytes) ≤ C →
  (∀ i, (i + length pattern_bytes ≤ length buf)%nat →
        found_at pattern_bytes mask buf i = false) →
  ∀ fuel mm o,
    pm mm = Some p →
    Pymem.read_bytes p (module_base mm) (module_size mm) = Return buf →
    o < module_size mm →
    0 ≤ o ∨ module_size mm - o ≤ Z.of_nat (length pattern_bytes) - 1 →
    scan_loop C pattern_bytes mask rel_offset additional fuel mm o = None.
Proof.
  intros HL HC Hno. induction fuel as [|fuel IH]; intros mm o Hpm Hread Ho Hinv; [done|].
  simpl. destruct (Z.ltb_spec o (module_size mm)) as [_|?]; [|lia].
  pose proof (module_size_buf _ _ _ Hread) as Hsize.
  destruct (decide (module_size mm - o ≤ Z.of_nat (length pattern_bytes) - 1))
    as [Hstuck|Hroom].
  - unfold scan_chunk.
    pose proof (ReadFacts.mm_read_bytes_length mm (module_base mm + o)
                  (Z.min C (module_size mm - o))) as Hlen.
    pose proof (ReadFacts.mm_read_bytes_keeps mm (module_base mm + o)
                  (Z.min C (module_size mm - o))) as (Kpm & Kbase & Ksize).
    destruct (read_bytes mm _ _) as [chunk mm'] eqn:E. simpl in *.
    replace (length chunk <? length pattern_bytes)%nat with true
      by (symmetry; apply Nat.ltb_lt; lia).
    rewrite orb_true_r. apply IH.
    + congruence.
    + by rewrite Kbase, Ksize.
    + rewrite Ksize. lia.
    + right. rewrite Ksize. lia.
  - destruct Hinv as [H0|?]; [|lia].
    replace o with (Z.of_nat (Z.to_nat o)) in * by lia.
    destruct (scan_chunk_inside C pattern_bytes mask rel_offset additional
                p buf mm Hpm Hread ltac:(lia) HC (Z.to_nat o) ltac:(lia))
      as (Hc1 & Hc2 & ->).
    rewrite find_seq_none.
    2:{ intros j Hj. rewrite found_at_chunk by lia. apply Hno. lia. }
    apply IH; [done|done|lia|lia].
Qed.

(** With a chunk shorter than the pattern no chunk is ever searched and
    the offset never grows. *)
Lemma scan_loop_small_chunk_diverges C pattern_bytes mask rel_offset additional :
  C < Z.of_nat (length pattern_bytes) →
  ∀ fuel mm o, o < module_size mm →
    scan_loop C pattern_bytes mask rel_offset additional fuel mm o = None.
Proof.
  intros HC. induction fuel as [|fuel IH]; intros mm o Ho; [done|].
  simpl. destruct (Z.ltb_spec o (module_size mm)) as [_|?]; [|lia].
  unfold scan_chunk.
  pose proof (ReadFacts.mm_read_bytes_length mm (module_base mm + o)
                (Z.min C (module_size mm - o))) as Hlen.
  pose proof (ReadFacts.mm_read_bytes_keeps mm (module_base mm + o)
                (Z.min C (module_size mm - o))) as (_ & _ & Ksize).
  destruct (read_bytes mm _ _) as [chunk mm'] eqn:E. simpl in *.
  replace (bool_decide (chunk = []) || (length chunk <? length pattern_bytes)%nat)
    with true.
  { apply IH. rewrite Ksize. lia. }
  symmetry. destruct chunk as [|b chunk]; [done|]. simpl in Hlen.
  apply orb_true_iff. right. apply Nat.ltb_lt. simpl. lia.
Qed.

(** *** [first_match] and [matches_at] *)

Lemma find_seq_Some (f : nat → bool) s k m :
  find f (seq s k) = Some m →
  f m = true ∧ (s ≤ m < s + k)%nat ∧ ∀ j, (s ≤ j < m)%nat → f j = false.
Proof.
  revert s. induction k as [|k IH]; intros s; simpl; [discriminate|].
  destruct (f s) eqn:E.
  - intros [= <-]. split; [done|]. split; [lia|]. intros j Hj. lia.
  - intros H. apply IH in H as (Hm & Hr & Hlow). split; [done|]. split; [lia|].
    intros j Hj. destruct (decide (j = s)) as [->|]; [done|]. apply Hlow. lia.
Qed.

Lemma find_seq_None (f : nat → bool) s k :
  find f (seq s k) = None → ∀ j, (s ≤ j < s + k)%nat → f j = false.
Proof.
  intros H j Hj. apply (find_none _ _ H). apply in_seq. lia.
Qed.

Lemma first_match_Some pattern_bytes mask data m :
  length mask = length pattern_bytes →
  first_match pattern_bytes mask data = Some m →
  matches_at pattern_bytes mask data m ∧
  ∀ j, (j < m)%nat → ¬ matches_at pattern_bytes mask data j.
Proof.
  intros Hm (Hf & Hr & Hlow)%find_seq_Some. split.
  - apply found_at_true; [done|lia|done].
  - intros j Hj Hmatch. apply found_at_true in Hmatch; [|done|lia].
    rewrite Hlow in Hmatch by lia. discriminate.
Qed.

Lemma first_match_None pattern_bytes mask data :
  length mask = length pattern_bytes →
  first_match pattern_bytes mask data = None →
  ∀ i, ¬ matches_at pattern_bytes mask data i.
Proof.
  intros Hm H i Hmatch. pose proof Hmatch as [Hfit _].
  apply found_at_true in Hmatch; [|done|lia].
  rewrite (find_seq_None _ _ _ H) in Hmatch by lia. discriminate.
Qed.

(** *** The manual scan on a pattern string *)

(** First match wins, lowest address wins: the scan returns at the lowest
    offset of the module that carries the pattern. *)
Lemma manual_scan_returns_lowest_match C mm p buf pattern pattern_bytes mask
      rel_offset additional (m : nat) :
  pm mm = Some p →
  Pymem.read_bytes p (module_base mm) (module_size mm) = Return buf →
  parse_pattern pattern = Return (pattern_bytes, mask) →
  Z.of_nat (length pattern_bytes) ≤ C →
  0 ≤ rel_offset → rel_offset + 4 ≤ Z.of_nat (length pattern_bytes) →
  matches_at pattern_bytes mask buf m →
  (∀ j, (j < m)%nat → ¬ matches_at pattern_bytes mask buf j) →
  ∀ fuel, (m < fuel)%nat →
    manual_scan_with C fuel mm pattern rel_offset additional
    = Some (module_base mm + Z.of_nat m + additional
            + le_signed (take 4 (drop (m + Z.to_nat rel_offset) buf)), mm).
Proof.
  intros Hpm Hread Hparse HC Hr0 Hr4 Hmatch Hlow fuel Hfuel.
  destruct (parse_pattern_lengths _ _ _ Hparse) as [Hmask HL].
  unfold manual_scan_with. rewrite Hparse.
  pose proof Hmatch as [Hfit _].
  apply (scan_loop_lowest_match C pattern_bytes mask rel_offset additional
           p buf mm Hpm Hread HL HC m Hfit) with (o := 0%nat); try done; try lia.
  - by apply found_at_true.
  - intros j Hj. destruct (found_at pattern_bytes mask buf j) eqn:E; [|done].
    exfalso. apply (Hlow j Hj). apply found_at_true; [done|lia|done].
Qed.

(** When no offset carries a pattern of two bytes or more, the scan is
    still in its loop after any number of passes. *)
Lemma manual_scan_absent_diverges C mm p buf pattern pattern_bytes mask
      rel_offset additional :
  pm mm = Some p →
  Pymem.read_bytes p (module_base mm) (module_size mm) = Return buf →
  0 < module_size mm →
  parse_pattern pattern = Return (pattern_bytes, mask) →
  (2 ≤ length pattern_bytes)%nat →
  Z.of_nat (length pattern_bytes) ≤ C →
  (∀ i, ¬ matches_at pattern_bytes mask buf i) →
  ∀ fuel, manual_scan_with C fuel mm pattern rel_offset additional = None.
Proof.
  intros Hpm Hread Hsize Hparse HL HC Hno fuel.
  destruct (parse_pattern_lengths _ _ _ Hparse) as [Hmask _].
  unfold manual_scan_with. rewrite Hparse.
  apply (scan_loop_no_match_diverges C pattern_bytes mask rel_offset additional
           p buf HL HC); [|done|done|done|lia].
  intros i Hi. destruct (found_at pattern_bytes mask buf i) eqn:E; [|done].
  exfalso. apply (Hno i). by apply found_at_true.
Qed.

End ScanFacts.

(** ** Claims about the scanner *)

Module ScanClaims.
Import Py MemoryManager ScanSpec ScanFacts Examples.

(** C1 (the code does not do this).  The claim: when no offset of the
    module matches a pattern of length at least 1, the manual chunked scan
    terminates and signals PatternNotFound.  What the code does for every
    pattern of two bytes or more on a readable, non-empty module without a
    match: the last pass leaves [offset = module_size - overlap], which is
    still below [module_size], so the loop never ends and nothing is
    signalled; no amount of fuel yields a result. *)
Theorem manual_scan_absent_pattern_never_returns mm p buf pattern pattern_bytes
        mask rel_offset additional :
  pm mm = Some p →
  Pymem.read_bytes p (module_base mm) (module_size mm) = Return buf →
  0 < module_size mm →
  parse_pattern pattern = Return (pattern_bytes, mask) →
  (2 ≤ length pattern_bytes)%nat →
  Z.of_nat (length pattern_bytes) ≤ CHUNK_SIZE →
  (∀ i, ¬ matches_at pattern_bytes mask buf i) →
  ∀ fuel, _manual_scan_aob fuel mm pattern rel_offset additional = None.
Proof.
  intros. by eapply manual_scan_absent_diverges.
Qed.

Lemma manual_scan_absent_pattern_never_returns_witness :
  first_match [0xAA; 0xBB; 0xCC] [true; true; true] plain_module = None ∧
  _manual_scan_aob 1000 (manager_of 0x1000 plain_module) "AA BB CC" 0 0 = None.
Proof.
  split; [reflexivity|].
  apply (manual_scan_absent_pattern_never_returns
           (manager_of 0x1000 plain_module) (process_of 0x1000 plain_module)
           plain_module "AA BB CC" [0xAA; 0xBB; 0xCC] [true; true; true]).
  - reflexivity.
  - vm_compute. reflexivity.
  - vm_compute. reflexivity.
  - reflexivity.
  - simpl. lia.
  - vm_compute. discriminate.
  - apply first_match_None; reflexivity.
Defined.

(** With a one-byte pattern the overlap is zero and absence is signalled. *)
Example manual_scan_one_byte_pattern_absent :
  _manual_scan_aob 2 (manager_of 0x1000 plain_module) "AA" 0 0
  = Some (0, set_last_error (manager_of 0x1000 plain_module)
                            "Pattern not found in module memory").
Proof. vm_compute. reflexivity. Qed.

(** C7 (the code does not do this).  The claim: the masked compare accepts
    an offset exactly when every non-wildcard byte agrees, the scan returns
    the lowest such offset, and signals PatternNotFound when there is
    none.  The first two parts hold ([found_at_true],
    [manual_scan_returns_lowest_match]); the last fails: on a module of 32
    zero bytes, which carries the tool's own signature nowhere, the scan
    never returns. *)
Theorem event_flag_signature_absent_never_returns :
  first_match [0x48; 0x8B; 0x3D; 0; 0; 0; 0; 0x48; 0x85; 0xFF; 0; 0; 0x32; 0xC0; 0xE9]
              [true; true; true; false; false; false; false; true; true; true;
               false; false; true; true; true]
              zero_module = None ∧
  ∀ fuel,
    _manual_scan_aob fuel (manager_of 0x1000 zero_module) EVENT_FLAG_MAN_AOB 3 7
    = None.
Proof.
  split; [reflexivity|]. intros fuel.
  eapply (manual_scan_absent_diverges CHUNK_SIZE (manager_of 0x1000 zero_module)
            (process_of 0x1000 zero_module) zero_module).
  - reflexivity.
  - vm_compute. reflexivity.
  - vm_compute. reflexivity.
  - reflexivity.
  - simpl. lia.
  - vm_compute. discriminate.
  - apply first_match_None; reflexivity.
Qed.

(** C6 (amended).  The claim: for a buffer with exactly one match and
    every chunk size smaller than the buffer, the chunked scan returns what
    a scan with one chunk over the whole buffer returns, wherever the match
    lies.  That holds when the pattern is no longer than a chunk and the
    relative field lies inside the pattern: both scans return the address
    resolved at the match.  The statement is for any chunk size [C], the
    source's [CHUNK_SIZE] of 4 MiB included. *)
Theorem chunked_scan_agrees_with_single_chunk_scan C C' mm p buf pattern
        pattern_bytes mask rel_offset additional (m : nat) :
  pm mm = Some p →
  Pymem.read_bytes p (module_base mm) (module_size mm) = Return buf →
  parse_pattern pattern = Return (pattern_bytes, mask) →
  Z.of_nat (length pattern_bytes) ≤ C →
  C < Z.of_nat (length buf) →
  Z.of_nat (length buf) ≤ C' →
  0 ≤ rel_offset → rel_offset + 4 ≤ Z.of_nat (length pattern_bytes) →
  matches_at pattern_bytes mask buf m →
  (∀ j, matches_at pattern_bytes mask buf j → j = m) →
  ∀ fuel, (m < fuel)%nat →
    manual_scan_with C fuel mm pattern rel_offset additional
    = manual_scan_with C' fuel mm pattern rel_offset additional ∧
    manual_scan_with C fuel mm pattern rel_offset additional
    = Some (module_base mm + Z.of_nat m + additional
            + le_signed (take 4 (drop (m + Z.to_nat rel_offset) buf)), mm).
Proof.
  intros Hpm Hread Hparse HC Hsmall HC' Hr0 Hr4 Hmatch Huniq fuel Hfuel.
  assert (∀ j, (j < m)%nat → ¬ matches_at pattern_bytes mask buf j) as Hlow.
  { intros j Hj Hmj. apply Huniq in Hmj. lia. }
  rewrite (manual_scan_returns_lowest_match C mm p buf pattern pattern_bytes mask
             rel_offset additional m) by done.
  rewrite (manual_scan_returns_lowest_match C' mm p buf pattern pattern_bytes mask
             rel_offset additional m) by (done || lia).
  done.
Qed.

Lemma chunked_scan_agrees_with_single_chunk_scan_witness :
  manual_scan_with 8 5 (manager_of 0x1000 small_module) "05 ?? ?? ?? ??" 1 7
  = manual_scan_with 12 5 (manager_of 0x1000 small_module) "05 ?? ?? ?? ??" 1 7 ∧
  manual_scan_with 8 5 (manager_of 0x1000 small_module) "05 ?? ?? ?? ??" 1 7
  = Some (0x1000 + 4 + 7 + 0x100, manager_of 0x1000 small_module).
Proof.
  apply (chunked_scan_agrees_with_single_chunk_scan 8 12
           (manager_of 0x1000 small_module) (process_of 0x1000 small_module)
           small_module "05 ?? ?? ?? ??" [5; 0; 0; 0; 0]
           [true; false; false; false; false] 1 7 4%nat).
  - reflexivity.
  - vm_compute. reflexivity.
  - reflexivity.
  - simpl. lia.
  - simpl. lia.
  - simpl. lia.
  - lia.
  - simpl. lia.
  - apply found_at_true; [reflexivity | simpl; lia | reflexivity].
  - intros j Hj. pose proof Hj as [Hfit _]. simpl in Hfit.
    apply found_at_true in Hj; [|reflexivity|done].
    do 8 (destruct j as [|j]; [first [reflexivity | discriminate Hj]|]). lia.
  - lia.
Defined.

(** Why the chunk has to hold a whole pattern, in small: were the loop run
    with chunks of 4 bytes and a pattern of 5, on twelve bytes that carry
    the pattern exactly once, it would never return, while with one chunk
    of 12 bytes it returns the resolved address. *)
Example chunk_shorter_than_pattern_never_finds :
  (4 < Z.of_nat (length small_module)) ∧
  first_match [5; 0; 0; 0; 0] [true; false; false; false; false] small_module
  = Some 4%nat ∧
  (∀ fuel,
     manual_scan_with 4 fuel (manager_of 0x1000 small_module) "05 ?? ?? ?? ??" 1 7
     = None) ∧
  manual_scan_with 12 1 (manager_of 0x1000 small_module) "05 ?? ?? ?? ??" 1 7
  = Some (0x1000 + 4 + 7 + 0x100, manager_of 0x1000 small_module).
Proof.
  split; [simpl; lia|]. split; [reflexivity|]. split; [|vm_compute; reflexivity].
  intros fuel. unfold manual_scan_with.
  replace (parse_pattern "05 ?? ?? ?? ??")
    with (Return ([5; 0; 0; 0; 0], [true; false; false; false; false]))
    by reflexivity.
  apply scan_loop_small_chunk_diverges; simpl; lia.
Qed.

(** Why the relative field has to lie inside the pattern, in small: with
    the field at 1 behind a three-byte pattern, the four bytes run past the
    end of an eight-byte chunk and [struct.unpack] raises, while one chunk
    over the whole buffer resolves the same match. *)
Example relative_field_outside_pattern_depends_on_chunks :
  manual_scan_with 8 5 (manager_of 0x1000 small_module) "05 ?? ??" 1 7
  = Some (0, set_last_error (manager_of 0x1000 small_module)
               "Manual scan failed: unpack requires a buffer of 4 bytes") ∧
  manual_scan_with 12 5 (manager_of 0x1000 small_module) "05 ?? ??" 1 7
  = Some (0x1000 + 4 + 7 + 0x100, manager_of 0x1000 small_module).
Proof. split; vm_compute; reflexivity. Qed.




(** C4 (amended).  The claim: whenever the accelerated strategy fails,
    not finding the pattern included, the manual strategy is attempted, and
    an error is reported only when both fail.  The code falls back only
    when the accelerated strategy raises an exception: the scan is then
    whatever the manual strategy makes of it (its result, its error, or its
    endless loop), started with "Pattern scan failed" as last error.  When
    the accelerated strategy completes without a hit the scan reports
    "Pattern not found in module memory" at once; on a hit it returns the
    resolved address. *)
Theorem scan_aob_falls_back_on_exception_only W fuel mm p pattern rel_offset
        additional :
  pm mm = Some p →
  module_size mm ≠ 0 →
  match accelerated W p mm pattern rel_offset additional with
  | Raise e =>
      scan_aob W fuel mm pattern rel_offset additional
      = _manual_scan_aob fuel
          (set_last_error mm ("Pattern scan failed: " +:+ exn_str e))
          pattern rel_offset additional
  | Return None =>
      scan_aob W fuel mm pattern rel_offset additional
      = Some (0, set_last_error mm "Pattern not found in module memory")
  | Return (Some absolute_address) =>
      scan_aob W fuel mm pattern rel_offset additional
      = Some (absolute_address, mm)
  end.
Proof.
  intros Hpm Hsize. unfold scan_aob. rewrite Hpm.
  destruct (Z.eqb_spec (module_size mm) 0) as [?|_]; [done|].
  by destruct (accelerated W p mm pattern rel_offset additional) as [[a|]|e].
Qed.

Lemma scan_aob_falls_back_on_exception_only_witness :
  scan_aob world_broken 6 (manager_of 0x1000 game_module) EVENT_FLAG_MAN_AOB 3 7
  = _manual_scan_aob 6
      (set_last_error (manager_of 0x1000 game_module)
         "Pattern scan failed: cannot use a string pattern on a bytes-like object")
      EVENT_FLAG_MAN_AOB 3 7.
Proof.
  exact (scan_aob_falls_back_on_exception_only world_broken 6
           (manager_of 0x1000 game_module) (process_of 0x1000 game_module)
           EVENT_FLAG_MAN_AOB 3 7 eq_refl ltac:(vm_compute; discriminate)).
Defined.

(** C4, as stated, fails when the accelerated strategy completes without
    a hit: the module carries the signature and the manual strategy would
    resolve it, but the scan reports the pattern as not found. *)
Lemma scan_aob_reports_miss_without_manual_scan :
  accelerated world_miss (process_of 0x1000 game_module)
              (manager_of 0x1000 game_module) EVENT_FLAG_MAN_AOB 3 7
  = Return None ∧
  _manual_scan_aob 6 (manager_of 0x1000 game_module) EVENT_FLAG_MAN_AOB 3 7
  = Some (0x1005 + 7 + 0x100, manager_of 0x1000 game_module) ∧
  ∀ fuel,
    scan_aob world_miss fuel (manager_of 0x1000 game_module) EVENT_FLAG_MAN_AOB 3 7
    = Some (0, set_last_error (manager_of 0x1000 game_module)
                              "Pattern not found in module memory").
Proof.
  split; [reflexivity|]. split; [vm_compute; reflexivity|].
  intros fuel. reflexivity.
Qed.

End ScanClaims.

(** ** Claims about attach *)

Module AttachClaims.
Import Py MemoryManager Examples.

(** [attach] answers [True] only from the branch that has the module. *)
Lemma attach_loop_true_has_module W names mm mm' :
  attach_loop W names mm = Returned true mm' →
  ∃ p name module,
    pm mm' = Some p ∧
    Pymem.module_from_name W p name = Return (Some module) ∧
    module_base mm' = Pymem.lpBaseOfDll module ∧
    module_size mm' = Pymem.SizeOfImage module.
Proof.
  revert mm. induction names as [|name rest IH]; intros mm; simpl; [discriminate|].
  destruct (Pymem.open_process W name) as [p|e].
  - destruct (Pymem.module_from_name W p name) as [[module|]|e] eqn:Hmod.
    + intros [= <-]. by exists p, name, module.
    + apply IH.
    + destruct e; simpl; [apply IH|discriminate|apply IH].
  - destruct e; simpl; [apply IH|discriminate|apply IH].
Qed.

Lemma attach_true_has_module W mm process_name mm' :
  attach W mm process_name = (true, mm') →
  ∃ p name module,
    pm mm' = Some p ∧
    Pymem.module_from_name W p name = Return (Some module) ∧
    module_base mm' = Pymem.lpBaseOfDll module ∧
    module_size mm' = Pymem.SizeOfImage module.
Proof.
  unfold attach. destruct (negb _); [discriminate|].
  destruct (attach_loop _ _ _) as [r mm1|mm1] eqn:E; [|discriminate].
  intros [= -> ->]. by apply attach_loop_true_has_module in E.
Qed.

(** The caller's branch for "attached, module not ready" is dead: no
    module is loaded at address 0, and [attach] succeeds only with a
    module. *)
Lemma connect_never_reports_module_not_ready W fuel self self' shown :
  (∀ p name module,
     Pymem.module_from_name W p name = Return (Some module) →
     Pymem.lpBaseOfDll module ≠ 0) →
  EldenRingModTool.connect_to_game W fuel self = Some (self', shown) →
  EldenRingModTool.conn_status "Attached but module not ready" ∉ shown.
Proof.
  intros Hbase. unfold EldenRingModTool.connect_to_game.
  destruct (attach W _ None) as [[] mm] eqn:Hattach; cbn [negb].
  - apply attach_true_has_module in Hattach as (p & name & module & _ & Hm & Hb & _).
    destruct (Z.eqb_spec (module_base mm) 0) as [Hz|_].
    { exfalso. apply (Hbase _ _ _ Hm). congruence. }
    destruct (scan_aob W fuel mm EVENT_FLAG_MAN_AOB 3 7) as [[found mm2]|];
      [|discriminate].
    destruct (negb (found =? 0)); intros [= <- <-];
      rewrite !elem_of_cons, elem_of_nil; simpl;
      intros H; decompose [or] H; discriminate || done.
  - intros [= <- <-].
    rewrite !elem_of_cons, elem_of_nil; simpl.
    intros H; decompose [or] H; discriminate || done.
Qed.

(** C3 (the code does not do this).  The claim: when a candidate process
    opens but its module cannot be resolved, attach still succeeds, with
    module size 0.  In the code that branch only stores an error text and
    goes on to the next candidate; when none is left, attach returns
    [False] with "Process not found", although the manager keeps the
    opened process and a module size of 0.  The caller's "Attached but
    module not ready" branch is therefore never reached. *)
Theorem attach_fails_when_module_unresolved :
  Pymem.open_process world_loading "eldenring.exe"
  = Return (process_of 0x1000 game_module) ∧
  Pymem.module_from_name world_loading (process_of 0x1000 game_module)
                         "eldenring.exe" = Return None ∧
  attach world_loading init None
  = (false,
     Mm (Some (process_of 0x1000 game_module)) 0 0 4242 "eldenring.exe"
        "Process not found. Tried: eldenring.exe, start_protected_game.exe") ∧
  ∀ fuel,
    (λ r, r.2) <$> EldenRingModTool.connect_to_game world_loading fuel
                     (EldenRingModTool.Tool init 0 [])
    = Some [EldenRingModTool.conn_status "Searching for Elden Ring...";
            EldenRingModTool.conn_status "Game not found";
            EldenRingModTool.showerror "Error"
              ("Process not found. Tried: eldenring.exe, start_protected_game.exe"
                 +:+ nl +:+ nl +:+ "Make sure:" +:+ nl
                 +:+ "1. Elden Ring is running" +:+ nl
                 +:+ "2. A character is loaded" +:+ nl
                 +:+ "3. Run this tool as Administrator if needed")].
Proof.
  split; [reflexivity|]. split; [reflexivity|].
  split; [vm_compute; reflexivity|]. intros fuel. vm_compute. reflexivity.
Qed.

End AttachClaims.

(** ** Claims about unlocking *)

Module UnlockClaims.
Import Py MemoryManager EldenRingModTool Examples.

Lemma unlock_loop_app KNOWN flag_base pre post st :
  unlock_loop KNOWN flag_base (pre ++ post) st
  = unlock_loop KNOWN flag_base post (unlock_loop KNOWN flag_base pre st).
Proof. unfold unlock_loop. apply foldl_app. Qed.

Lemma unlock_loop_cons KNOWN flag_base entry post st :
  unlock_loop KNOWN flag_base (entry :: post) st
  = unlock_loop KNOWN flag_base post (unlock_one KNOWN flag_base entry st).
Proof. done. Qed.

(** A checked, known flag: read, OR, write, and record on a good write. *)
Lemma unlock_one_known KNOWN flag_base name offset bit mm unlocked :
  KNOWN !! name = Some (offset, bit) →
  unlock_one KNOWN flag_base (name, true) (mm, unlocked)
  = let addr := flag_base + offset in
    let w := write_byte mm addr
               (Z.lor (read_byte mm addr) (Z.shiftl 1 (Z.of_nat bit))) in
    (w.2, if w.1 then unlocked ++ [name] else unlocked).
Proof.
  intros H. unfold unlock_one. rewrite H. simpl.
  by destruct (write_byte _ _ _) as [[] mm'].
Qed.

(** C2 (amended).  The claim: a flag whose current byte cannot be read is
    recorded as ReadFailed, is not written, and the remaining flags are
    processed.  In the code [read_byte] answers 0 for a failed read, so the
    write is made all the same, with the value [1 << bit]; the flag is
    listed as unlocked exactly when that write succeeds; there is no record
    of the failed read; the remaining flags are processed. *)
Theorem unlock_failed_read_still_writes KNOWN flag_base pre name post st mm
        unlocked offset bit p e :
  unlock_loop KNOWN flag_base pre st = (mm, unlocked) →
  KNOWN !! name = Some (offset, bit) →
  pm mm = Some p →
  Pymem.read_uchar p (flag_base + offset) = Raise e →
  unlock_loop KNOWN flag_base (pre ++ (name, true) :: post) st
  = let w := write_byte mm (flag_base + offset) (Z.shiftl 1 (Z.of_nat bit)) in
    unlock_loop KNOWN flag_base post
      (w.2, if w.1 then unlocked ++ [name] else unlocked).
Proof.
  intros Hpre Hknown Hpm Hread.
  rewrite unlock_loop_app, Hpre, unlock_loop_cons, (unlock_one_known _ _ _ _ _ _ _ Hknown).
  unfold read_byte. rewrite Hpm, Hread. done.
Qed.

Lemma unlock_failed_read_still_writes_witness :
  unlock_loop SOME_GRACES 0x10000 first_step_and_gatefront
    (memory (tool_of flags_first_step_unreadable first_step_and_gatefront), [])
  = unlock_loop SOME_GRACES 0x10000 [("Gatefront", true)]
      ((write_byte (memory (tool_of flags_first_step_unreadable
                                    first_step_and_gatefront))
                   0x10CBE 4).2,
       ["The First Step"]).
Proof.
  exact (unlock_failed_read_still_writes SOME_GRACES 0x10000 [] "The First Step"
           [("Gatefront", true)]
           (memory (tool_of flags_first_step_unreadable first_step_and_gatefront), [])
           (memory (tool_of flags_first_step_unreadable first_step_and_gatefront)) []
           0xCBE 2%nat
           (Pymem.Pm 4242 7 (pointer_chain ∪ flags_first_step_unreadable))
           (Pymem.MemoryReadError 0x10CBE 1)
           eq_refl eq_refl eq_refl ltac:(vm_compute; reflexivity)).
Defined.

(** C2, as stated, fails: the byte of "The First Step" holds 0x41 and
    cannot be read; the flag is nevertheless written (the byte becomes
    0x04, the other bits are gone) and reported as unlocked. *)
Lemma unlock_writes_after_failed_read :
  let self := tool_of flags_first_step_unreadable first_step_and_gatefront in
  get_event_flag_base self = 0x10000 ∧
  (∃ e, Pymem.read_uchar (Pymem.Pm 4242 7 (pointer_chain ∪ flags_first_step_unreadable))
                         (0x10000 + 0xCBE) = Raise e) ∧
  ∃ mm' p',
    unlock_loop SOME_GRACES 0x10000 (grace_checkboxes self) (memory self, [])
    = (mm', ["The First Step"; "Gatefront"]) ∧
    pm mm' = Some p' ∧
    Pymem.memory p' !! (0x10000 + 0xCBE) = Some (Pymem.Cell 0x04 false true) ∧
    (unlock_selected_graces SOME_GRACES self).2
    = [grace_status "Unlocked 2 graces!";
       showinfo "Success"
         ("Unlocked 2 graces:" +:+ nl +:+ nl +:+ "The First Step" +:+ nl +:+ "Gatefront")].
Proof.
  split; [vm_compute; reflexivity|]. split; [eexists; vm_compute; reflexivity|].
  eexists _, _. split; [vm_compute; reflexivity|].
  split; [reflexivity|]. split; vm_compute; reflexivity.
Qed.

(** A box that is not ticked, or whose name has no row in the table, is
    passed over: nothing is read, written or recorded. *)
Lemma unlock_loop_unrequested KNOWN flag_base boxes st :
  Forall (λ entry : string * bool, entry.2 = false ∨ KNOWN !! entry.1 = None) boxes →
  unlock_loop KNOWN flag_base boxes st = st.
Proof.
  intros H. revert st. induction H as [|[name var] boxes Hx _ IH]; intros [mm unlocked];
    [done|].
  rewrite unlock_loop_cons, <- IH. f_equal. unfold unlock_one.
  destruct Hx as [Hx|Hx]; simpl in Hx; rewrite Hx; [done|by destruct var].
Qed.

(** C5 (amended).  The claim: with three requested flags of which the
    second cannot be written, the remaining flags are still processed,
    [unlocked] is exactly the first and the third, and [writeFailed] is
    exactly the second.  In the code, for any boxes among which exactly
    three are requested (ticked and in the table; the others, anywhere
    around them, are unticked or unknown), when the write of the second
    fails and the other two succeed, all three are processed and
    [unlocked] is exactly the first and the third, in the success dialog
    too; the code keeps no list of failed writes, the second name appears
    nowhere. *)
Theorem unlock_continues_after_failed_write KNOWN self flag_base
        boxes0 boxes1 boxes2 boxes3 n1 n2 n3 o1 b1 o2 b2 o3 b3 mm1 mm2 mm3 :
  is_attached (memory self) = true →
  get_event_flag_base self = flag_base →
  flag_base ≠ 0 →
  grace_checkboxes self
  = boxes0 ++ (n1, true) :: boxes1 ++ (n2, true) :: boxes2 ++ (n3, true) :: boxes3 →
  Forall (λ entry : string * bool, entry.2 = false ∨ KNOWN !! entry.1 = None)
         (boxes0 ++ boxes1 ++ boxes2 ++ boxes3) →
  KNOWN !! n1 = Some (o1, b1) →
  KNOWN !! n2 = Some (o2, b2) →
  KNOWN !! n3 = Some (o3, b3) →
  write_byte (memory self) (flag_base + o1)
    (Z.lor (read_byte (memory self) (flag_base + o1)) (Z.shiftl 1 (Z.of_nat b1)))
  = (true, mm1) →
  write_byte mm1 (flag_base + o2)
    (Z.lor (read_byte mm1 (flag_base + o2)) (Z.shiftl 1 (Z.of_nat b2)))
  = (false, mm2) →
  write_byte mm2 (flag_base + o3)
    (Z.lor (read_byte mm2 (flag_base + o3)) (Z.shiftl 1 (Z.of_nat b3)))
  = (true, mm3) →
  unlock_loop KNOWN flag_base (grace_checkboxes self) (memory self, [])
  = (mm3, [n1; n3]) ∧
  unlock_selected_graces KNOWN self
  = (Tool mm3 (event_flag_man self) (grace_checkboxes self),
     [grace_status "Unlocked 2 graces!";
      showinfo "Success" (success_message [n1; n3])]).
Proof.
  intros Hatt Hbase Hnz Hboxes Hrest H1 H2 H3 W1 W2 W3.
  apply Forall_app in Hrest as [Hr0 Hrest].
  apply Forall_app in Hrest as [Hr1 Hrest].
  apply Forall_app in Hrest as [Hr2 Hr3].
  assert (unlock_loop KNOWN flag_base (grace_checkboxes self) (memory self, [])
          = (mm3, [n1; n3])) as Hloop.
  { rewrite Hboxes.
    rewrite unlock_loop_app, (unlock_loop_unrequested _ _ _ _ Hr0), unlock_loop_cons.
    rewrite (unlock_one_known _ _ _ _ _ _ _ H1). cbv zeta. rewrite W1. cbn [fst snd app].
    rewrite unlock_loop_app, (unlock_loop_unrequested _ _ _ _ Hr1), unlock_loop_cons.
    rewrite (unlock_one_known _ _ _ _ _ _ _ H2). cbv zeta. rewrite W2. cbn [fst snd app].
    rewrite unlock_loop_app, (unlock_loop_unrequested _ _ _ _ Hr2), unlock_loop_cons.
    rewrite (unlock_one_known _ _ _ _ _ _ _ H3). cbv zeta. rewrite W3. cbn [fst snd app].
    apply unlock_loop_unrequested, Hr3. }
  split; [done|].
  unfold unlock_selected_graces. rewrite Hatt, Hbase. simpl.
  destruct (Z.eqb_spec flag_base 0) as [?|_]; [done|].
  rewrite Hloop. done.
Qed.

Lemma unlock_continues_after_failed_write_witness :
  (unlock_selected_graces SOME_GRACES
     (tool_of flags_gatefront_locked MoreExamples.six_boxes)).2
  = [grace_status "Unlocked 2 graces!";
     showinfo "Success" (success_message ["Church of Elleh"; "The First Step"])].
Proof.
  pose (self := tool_of flags_gatefront_locked MoreExamples.six_boxes).
  pose (w1 := write_byte (memory self) 0x10CBE 0x09).
  pose (w2 := write_byte w1.2 0x10CBF 0x01).
  pose (w3 := write_byte w2.2 0x10CBE 0x0D).
  refine (f_equal snd
            (proj2 (unlock_continues_after_failed_write SOME_GRACES self 0x10000
                      [("Agheel Lake South", false)] [] [("Stormhill Shack", true)]
                      [("Table of Lost Grace", false)]
                      "Church of Elleh" "Gatefront" "The First Step"
                      0xCBE 3%nat 0xCBF 0%nat 0xCBE 2%nat w1.2 w2.2 w3.2
                      _ _ _ _ _ _ _ _ _ _ _))).
  - reflexivity.
  - vm_compute. reflexivity.
  - vm_compute. discriminate.
  - reflexivity.
  - repeat (apply Forall_cons; split; [first [by left | by right]|]). apply Forall_nil_2.
  - reflexivity.
  - reflexivity.
  - reflexivity.
  - vm_compute. reflexivity.
  - vm_compute. reflexivity.
  - vm_compute. reflexivity.
Defined.

(** C5, as stated, fails in its last part: what the tool shows is the same
    whether the write of "Gatefront" failed or the flag was never
    requested, so no record of a failed write is in it. *)
Lemma unlock_report_has_no_failed_writes :
  let failed := tool_of flags_gatefront_locked three_checked in
  let never_asked := tool_of flags_gatefront_locked two_checked in
  (∃ mm1 mm2,
     write_byte (memory failed) 0x10CBE 0x09 = (true, mm1) ∧
     write_byte mm1 0x10CBF 0x01 = (false, mm2)) ∧
  (unlock_loop SOME_GRACES 0x10000 (grace_checkboxes failed) (memory failed, [])).2
  = ["Church of Elleh"; "The First Step"] ∧
  (unlock_loop SOME_GRACES 0x10000 (grace_checkboxes never_asked)
               (memory never_asked, [])).2
  = ["Church of Elleh"; "The First Step"] ∧
  (unlock_selected_graces SOME_GRACES failed).2
  = (unlock_selected_graces SOME_GRACES never_asked).2.
Proof.
  split; [eexists _, _; split; vm_compute; reflexivity|].
  repeat split; vm_compute; reflexivity.
Qed.

End UnlockClaims.

(** ** Claims about the stat randomizer *)

Module RandomizerClaims.
Import Randomizer RandomizerSpec.

(** *** The ordered dict *)

Lemma dict_get_set d k v k' :
  dict_get (dict_set d k v) k' = if decide (k = k') then Some v else dict_get d k'.
Proof.
  induction d as [|[k0 v0] d IH]; simpl.
  - repeat case_decide; congruence.
  - repeat (case_decide; simpl); try congruence.
Qed.

Lemma dict_set_keys_present d k v :
  is_Some (dict_get d k) → keys (dict_set d k v) = keys d.
Proof.
  unfold keys. induction d as [|[k0 v0] d IH]; simpl.
  - by intros [? [=]].
  - case_decide; simpl; [done|]. intros Hk. f_equal. by apply IH.
Qed.

Lemma dict_set_keys_absent d k v :
  dict_get d k = None → keys (dict_set d k v) = keys d ++ [k].
Proof.
  unfold keys. induction d as [|[k0 v0] d IH]; simpl; [done|].
  case_decide; simpl; [done|]. intros Hk. f_equal. by apply IH.
Qed.

(** A sum over keys that leave out [k] does not see a change at [k]. *)
Lemma sum_dict_set_other (ks : list string) d k v' :
  k ∉ ks →
  foldr (λ k0 acc, default 0 (dict_get (dict_set d k v') k0) + acc) 0 ks
  = foldr (λ k0 acc, default 0 (dict_get d k0) + acc) 0 ks.
Proof.
  induction ks as [|k1 ks IH]; intros Hk; [done|]. simpl.
  rewrite dict_get_set, decide_False by set_solver. f_equal. apply IH. set_solver.
Qed.

(** Changing one key moves a sum over distinct keys by the difference. *)
Lemma sum_dict_set (ks : list string) d k v v' :
  NoDup ks → k ∈ ks → dict_get d k = Some v →
  foldr (λ k0 acc, default 0 (dict_get (dict_set d k v') k0) + acc) 0 ks
  = foldr (λ k0 acc, default 0 (dict_get d k0) + acc) 0 ks - v + v'.
Proof.
  intros Hnd Hin Hget.
  induction Hnd as [|k0 ks Hk0 Hnd IH]; [by apply elem_of_nil in Hin|].
  simpl. rewrite dict_get_set. apply elem_of_cons in Hin as [->|Hin].
  - rewrite decide_True by done. rewrite Hget. simpl.
    rewrite (sum_dict_set_other ks d k0 v' Hk0). lia.
  - rewrite decide_False by (intros ->; done). rewrite IH by done. lia.
Qed.

Lemma NoDup_ATTRIBUTES : NoDup ATTRIBUTES.
Proof. by apply (bool_decide_unpack _). Qed.

Lemma level_not_attribute : "level" ∉ ATTRIBUTES.
Proof. by apply (bool_decide_unpack _). Qed.

(** *** The loops *)

Section Random.
Context (rng : Type) (seed_state : Z → rng) (randbelow : rng → nat → nat * rng).

(** [random.choice] picks inside the sequence. *)
Hypothesis randbelow_range : ∀ g n, (0 < n)%nat → ((randbelow g n).1 < n)%nat.

(** Handing out [n] points keeps the eight keys and the lower bound, and
    raises the sum by [n]. *)
Lemma add_points_inv n : ∀ stats g T,
  keys stats = ATTRIBUTES →
  (∀ k, k ∈ ATTRIBUTES → ∃ v, dict_get stats k = Some v ∧ MIN_STAT ≤ v) →
  attribute_total stats = T →
  let r := add_points rng randbelow n stats g in
  keys r.1 = ATTRIBUTES ∧
  (∀ k, k ∈ ATTRIBUTES → ∃ v, dict_get r.1 k = Some v ∧ MIN_STAT ≤ v) ∧
  attribute_total r.1 = T + Z.of_nat n.
Proof.
  induction n as [|n IH]; intros stats g T Hkeys Hmin Htot.
  - simpl. split; [done|]. split; [done|]. lia.
  - simpl. rewrite Hkeys.
    pose proof (randbelow_range g (length ATTRIBUTES) ltac:(simpl; lia)) as Hi.
    destruct (randbelow g (length ATTRIBUTES)) as [i g'] eqn:E. simpl in Hi.
    assert (ATTRIBUTES !!! i ∈ ATTRIBUTES) as Hk
      by (by apply list_elem_of_lookup_total_2).
    destruct (Hmin _ Hk) as (v & Hv & Hv6). rewrite Hv. simpl default.
    specialize (IH (dict_set stats (ATTRIBUTES !!! i) (v + 1)) g' (T + 1)).
    destruct IH as (Ik & Im & It).
    + rewrite dict_set_keys_present; [done|]. by rewrite Hv.
    + intros k Hin. rewrite dict_get_set. case_decide.
      * exists (v + 1). split; [done|lia].
      * by apply Hmin.
    + unfold attribute_total.
      rewrite (sum_dict_set ATTRIBUTES stats _ v (v + 1) NoDup_ATTRIBUTES Hk Hv).
      unfold attribute_total in Htot. lia.
    + split; [done|]. split; [done|]. lia.
Qed.

(** Every class gets well-formed stats, under its own id and name. *)
Lemma classes_loop_inv classes remaining_pool : ∀ all_stats g,
  MIN_STAT * NUM_STATS + Z.of_nat (Z.to_nat remaining_pool) = TOTAL_STATS →
  let r := classes_loop rng randbelow classes remaining_pool all_stats g in
  ∃ added,
    r.1 = all_stats ++ added ∧
    (λ row, (row.1, name row.2)) <$> added = classes ∧
    Forall (λ row, well_formed (stats row.2)) added.
Proof.
  induction classes as [|[row_id class_name] rest IH]; intros all_stats g Hpool.
  - exists []. cbn [classes_loop fst]. by rewrite app_nil_r.
  - cbn [classes_loop].
    pose proof (add_points_inv (Z.to_nat remaining_pool)
                  ((λ k, (k, MIN_STAT)) <$> ATTRIBUTES) g
                  (MIN_STAT * NUM_STATS)) as Hadd.
    destruct (add_points rng randbelow _ _ g) as [stats1 g'] eqn:E.
    destruct Hadd as (Hk & Hm & Ht).
    + reflexivity.
    + intros k Hin. exists MIN_STAT. split; [|done].
      repeat (apply elem_of_cons in Hin as [->|Hin]; [reflexivity|]).
      by apply elem_of_nil in Hin.
    + reflexivity.
    + cbn [fst] in Hk, Hm, Ht.
      destruct (IH (all_stats ++ [(row_id,
                      Entry class_name (dict_set stats1 "level" TARGET_LEVEL))]) g'
                   Hpool)
        as (added & Hr & Hn & Hw).
      exists ((row_id, Entry class_name (dict_set stats1 "level" TARGET_LEVEL)) :: added).
      split; [by rewrite Hr, <-app_assoc|]. split; [by rewrite fmap_cons, Hn|].
      constructor; [|done]. cbn [snd stats].
      assert (dict_get stats1 "level" = None) as Hnone.
      { destruct (dict_get stats1 "level") as [v|] eqn:Hl; [|done].
        exfalso. apply level_not_attribute. rewrite <-Hk.
        clear -Hl. unfold keys. induction stats1 as [|[k0 v0] d IHd]; [done|].
        cbn [dict_get] in Hl. rewrite fmap_cons. cbn [fst].
        case_decide; [subst; left|right; by apply IHd]. }
      split; [by rewrite dict_set_keys_absent, Hk|]. split; [|split].
      * intros k Hin. rewrite dict_get_set. rewrite decide_False.
        -- by apply Hm.
        -- intros <-. by apply level_not_attribute.
      * unfold attribute_total.
        rewrite sum_dict_set_other by apply level_not_attribute.
        unfold attribute_total in Ht. rewrite Ht. exact Hpool.
      * rewrite dict_get_set. by rewrite decide_True.
Qed.

(** C9.  For every integer seed [randomize_stats] yields stats for exactly
    the ten known classes, under their ids and names, and for each class
    every one of the eight attributes is at least 6, the eight add up to
    88, and the level is 9. *)
Theorem randomize_stats_well_formed seed g0 :
  let all_stats := (randomize_stats rng seed_state randbelow seed g0).1 in
  all_stats.*1 = [3000; 3001; 3002; 3003; 3004; 3005; 3006; 3007; 3008; 3009] ∧
  (λ row, (row.1, name row.2)) <$> all_stats = PLAYER_CLASSES ∧
  Forall (λ row, well_formed (stats row.2)) all_stats.
Proof.
  unfold randomize_stats. cbv zeta.
  destruct (classes_loop_inv PLAYER_CLASSES (TOTAL_STATS - MIN_STAT * NUM_STATS)
              [] (seed_state seed) eq_refl)
    as (added & Hr & Hn & Hw).
  rewrite Hr, app_nil_l. split; [|done].
  transitivity (((λ row : Z * entry, (row.1, name row.2)) <$> added).*1).
  - rewrite <-list_fmap_compose. done.
  - by rewrite Hn.
Qed.

(** C10.  The stats depend on the seed alone: whatever state the generator
    is in when [randomize_stats] is called (before a first call, after an
    earlier one, after other draws), the same seed gives the same stats
    and leaves the generator in the same state. *)
Theorem randomize_stats_deterministic seed g1 g2 :
  randomize_stats rng seed_state randbelow seed g1
  = randomize_stats rng seed_state randbelow seed g2.
Proof. reflexivity. Qed.

End Random.

Lemma lcg_randbelow_range g n : (0 < n)%nat → ((lcg_randbelow g n).1 < n)%nat.
Proof.
  intros Hn. unfold lcg_randbelow. simpl.
  pose proof (Z.mod_pos_bound ((1103515245 * g + 12345) mod 2147483648)
                (Z.of_nat n) ltac:(lia)). lia.
Qed.

Lemma randomize_stats_well_formed_witness :
  let all_stats := (randomize_stats Z lcg_seed lcg_randbelow 2024 0).1 in
  all_stats.*1 = [3000; 3001; 3002; 3003; 3004; 3005; 3006; 3007; 3008; 3009] ∧
  (λ row, (row.1, name row.2)) <$> all_stats = PLAYER_CLASSES ∧
  Forall (λ row, well_formed (stats row.2)) all_stats.
Proof.
  exact (randomize_stats_well_formed Z lcg_seed lcg_randbelow
           lcg_randbelow_range 2024 0).
Defined.

End RandomizerClaims.

(** ** More about the manual scan *)

Module ScanExtras.
Import Py MemoryManager ScanSpec ScanFacts Examples MoreExamples.

(** The masked compare of the inner loops accepts an offset exactly when
    the pattern fits there and every byte that is not a wildcard agrees;
    what the data holds at the wildcards does not matter. *)
Theorem masked_compare_accepts_exactly_matches pattern pattern_bytes mask data i :
  parse_pattern pattern = Return (pattern_bytes, mask) →
  (i + length pattern_bytes ≤ length data)%nat →
  found_at pattern_bytes mask data i = true
  ↔ ∀ j b, pattern_bytes !! j = Some b → mask !! j = Some true →
           data !! (i + j)%nat = Some b.
Proof.
  intros Hparse Hfit. destruct (parse_pattern_lengths _ _ _ Hparse) as [Hm _].
  rewrite found_at_true by done. unfold matches_at.
  split; [by intros [_ H] | by intros H].
Qed.

Lemma masked_compare_accepts_exactly_matches_witness :
  found_at [0x0A; 0; 0x0C] [true; false; true] twice_module 9 = true
  ↔ ∀ j b, [0x0A; 0; 0x0C] !! j = Some b → [true; false; true] !! j = Some true →
           twice_module !! (9 + j)%nat = Some b.
Proof.
  apply (masked_compare_accepts_exactly_matches "0A ?? 0C").
  - reflexivity.
  - simpl. lia.
Defined.

(** First match wins, lowest address wins, at every chunk size that holds
    a pattern: when the module carries the pattern, the chunked scan
    returns the address resolved at the lowest offset a search of the whole
    buffer finds, however many matches follow. *)
Theorem manual_scan_first_match_wins C mm p buf pattern pattern_bytes mask
        rel_offset additional (m : nat) :
  pm mm = Some p →
  Pymem.read_bytes p (module_base mm) (module_size mm) = Return buf →
  parse_pattern pattern = Return (pattern_bytes, mask) →
  Z.of_nat (length pattern_bytes) ≤ C →
  0 ≤ rel_offset → rel_offset + 4 ≤ Z.of_nat (length pattern_bytes) →
  first_match pattern_bytes mask buf = Some m →
  ∀ fuel, (m < fuel)%nat →
    manual_scan_with C fuel mm pattern rel_offset additional
    = Some (module_base mm + Z.of_nat m + additional
            + le_signed (take 4 (drop (m + Z.to_nat rel_offset) buf)), mm).
Proof.
  intros Hpm Hread Hparse HC Hr0 Hr4 Hfirst fuel Hfuel.
  destruct (parse_pattern_lengths _ _ _ Hparse) as [Hm _].
  destruct (first_match_Some _ _ _ _ Hm Hfirst) as [Hmatch Hlow].
  by eapply manual_scan_returns_lowest_match.
Qed.

Lemma manual_scan_first_match_wins_witness :
  manual_scan_with 5 4 (manager_of 0x1000 twice_module) "0A ?? 0C ?? ??" 1 2
  = Some (0x1000 + 3 + 2 + 0x08070C0B, manager_of 0x1000 twice_module).
Proof.
  apply (manual_scan_first_match_wins 5 (manager_of 0x1000 twice_module)
           (process_of 0x1000 twice_module) twice_module "0A ?? 0C ?? ??"
           [0x0A; 0; 0x0C; 0; 0] [true; false; true; false; false] 1 2 3%nat).
  - reflexivity.
  - vm_compute. reflexivity.
  - reflexivity.
  - simpl. lia.
  - lia.
  - simpl. lia.
  - reflexivity.
  - lia.
Defined.

(** With a pattern of one byte the overlap is zero, every pass moves on
    by a whole chunk, and an absent pattern is reported. *)
Lemma scan_loop_one_byte_absent C pattern_bytes mask rel_offset additional p buf mm :
  pm mm = Some p →
  Pymem.read_bytes p (module_base mm) (module_size mm) = Return buf →
  length pattern_bytes = 1%nat →
  1 ≤ C →
  (∀ i, (i + 1 ≤ length buf)%nat → found_at pattern_bytes mask buf i = false) →
  ∀ fuel (o : nat), (o ≤ length buf)%nat → (length buf - o < fuel)%nat →
    scan_loop C pattern_bytes mask rel_offset additional fuel mm (Z.of_nat o)
    = Some (0, set_last_error mm "Pattern not found in module memory").
Proof.
  intros Hpm Hread HL HC Hno. induction fuel as [|fuel IH]; intros o Ho Hf; [lia|].
  simpl. rewrite (module_size_buf _ _ _ Hread).
  destruct (Z.ltb_spec (Z.of_nat o) (Z.of_nat (length buf))) as [Hlt|_]; [|done].
  destruct (scan_chunk_inside C pattern_bytes mask rel_offset additional
              p buf mm Hpm Hread ltac:(lia) ltac:(lia) o ltac:(lia))
    as (Hc1 & Hc2 & ->).
  rewrite find_seq_none.
  2:{ intros j Hj. rewrite found_at_chunk by lia. apply Hno. lia. }
  rewrite HL.
  set (c := Z.to_nat (Z.min C (Z.of_nat (length buf) - Z.of_nat o))) in *.
  replace (Z.of_nat o + (Z.of_nat c - (Z.of_nat 1 - 1))) with (Z.of_nat (o + c)) by lia.
  apply IH; lia.
Qed.

(** The scan of a readable module for an absent one-byte pattern ends,
    after at most one pass per byte, with 0 and "Pattern not found in
    module memory"; nothing else of the manager changes. *)
Theorem manual_scan_one_byte_absent_is_reported mm p buf pattern pattern_bytes
        mask rel_offset additional :
  pm mm = Some p →
  Pymem.read_bytes p (module_base mm) (module_size mm) = Return buf →
  parse_pattern pattern = Return (pattern_bytes, mask) →
  length pattern_bytes = 1%nat →
  first_match pattern_bytes mask buf = None →
  ∀ fuel, (length buf < fuel)%nat →
    _manual_scan_aob fuel mm pattern rel_offset additional
    = Some (0, set_last_error mm "Pattern not found in module memory").
Proof.
  intros Hpm Hread Hparse HL Hfirst fuel Hfuel.
  destruct (parse_pattern_lengths _ _ _ Hparse) as [Hm _].
  unfold _manual_scan_aob, manual_scan_with. rewrite Hparse.
  apply (scan_loop_one_byte_absent CHUNK_SIZE pattern_bytes mask rel_offset
           additional p buf mm Hpm Hread HL ltac:(vm_compute; discriminate))
    with (o := 0%nat); [|lia|lia].
  intros i Hi. apply (find_seq_None _ _ _ Hfirst). rewrite HL. lia.
Qed.

Lemma manual_scan_one_byte_absent_is_reported_witness :
  _manual_scan_aob 17 (manager_of 0x1000 twice_module) "EE" 0 0
  = Some (0, set_last_error (manager_of 0x1000 twice_module)
               "Pattern not found in module memory").
Proof.
  apply (manual_scan_one_byte_absent_is_reported (manager_of 0x1000 twice_module)
           (process_of 0x1000 twice_module) twice_module "EE" [0xEE] [true]).
  - reflexivity.
  - vm_compute. reflexivity.
  - reflexivity.
  - reflexivity.
  - reflexivity.
  - simpl. lia.
Defined.

(** *** Patterns that do not parse *)

Lemma split_space_app a b :
  split_space (a +:+ " " +:+ b) = split_space a ++ split_space b.
Proof.
  induction a as [|c a IH]; [done|].
  change (String c a +:+ " " +:+ b) with (String c (a +:+ " " +:+ b)).
  cbn [split_space]. rewrite IH. destruct (Ascii.eqb c " "); [done|].
  pose proof (split_space_length a) as Hlen.
  destruct (split_space a); [simpl in Hlen; lia | done].
Qed.

Lemma parse_parts_empty_part parts pattern_bytes mask :
  EmptyString ∈ parts → ∃ e, parse_parts parts pattern_bytes mask = Raise e.
Proof.
  revert pattern_bytes mask. induction parts as [|part rest IH]; intros pb mk Hin.
  - by apply elem_of_nil in Hin.
  - apply elem_of_cons in Hin as [<-|Hin].
    + eexists. reflexivity.
    + simpl. case_decide; [by apply IH|].
      destruct (int16 part); [by apply IH|by eexists].
Qed.

(** An empty pattern, a pattern that starts or ends with a space, and a
    pattern with two spaces in a row have an empty part, which [int]
    refuses: the scan returns 0 with "Manual scan failed: ..." and reads
    nothing, whatever the fuel. *)
Theorem manual_scan_rejects_empty_part pattern :
  pattern = EmptyString ∨ (∃ b, pattern = " " +:+ b) ∨ (∃ a, pattern = a +:+ " ")
  ∨ (∃ a b, pattern = a +:+ " " +:+ " " +:+ b) →
  ∃ e, ∀ C fuel mm rel_offset additional,
    manual_scan_with C fuel mm pattern rel_offset additional
    = Some (0, set_last_error mm ("Manual scan failed: " +:+ exn_str e)).
Proof.
  intros H.
  assert (EmptyString ∈ split_space pattern) as Hin.
  { destruct H as [->|[[b ->]|[[a ->]|(a & b & ->)]]].
    - left.
    - left.
    - change (a +:+ " ") with (a +:+ " " +:+ ""). rewrite split_space_app.
      apply elem_of_app. right. left.
    - rewrite split_space_app. apply elem_of_app. right. left. }
  destruct (parse_parts_empty_part _ [] [] Hin) as [e He].
  exists e. intros. unfold manual_scan_with, parse_pattern. by rewrite He.
Qed.

Lemma manual_scan_rejects_empty_part_witness :
  ∃ e, ∀ C fuel mm rel_offset additional,
    manual_scan_with C fuel mm "48  8B" rel_offset additional
    = Some (0, set_last_error mm ("Manual scan failed: " +:+ exn_str e)).
Proof.
  apply manual_scan_rejects_empty_part.
  right. right. right. exists "48", "8B". reflexivity.
Defined.

(** *** What a scan leaves alone *)

Lemma same_session_refl mm : MoreSpec.same_session mm mm.
Proof. by repeat split. Qed.

Lemma same_session_set_last_error mm msg :
  MoreSpec.same_session mm (set_last_error mm msg).
Proof. by repeat split. Qed.

Lemma same_session_trans a b c :
  MoreSpec.same_session a b → MoreSpec.same_session b c → MoreSpec.same_session a c.
Proof.
  intros (?&?&?&?&?) (?&?&?&?&?). repeat split; congruence.
Qed.

Lemma same_session_read_bytes mm a n :
  MoreSpec.same_session mm (read_bytes mm a n).2.
Proof.
  unfold read_bytes. destruct (pm mm) as [p|] eqn:Hp; [|apply same_session_refl].
  destruct (Pymem.read_bytes p a n); simpl;
    [apply same_session_refl | apply same_session_set_last_error].
Qed.

Lemma same_session_scan_chunk C pattern_bytes mask rel_offset additional mm o :
  match scan_chunk C pattern_bytes mask rel_offset additional mm o with
  | Found _ mm' | NextChunk _ mm' => MoreSpec.same_session mm mm'
  end.
Proof.
  unfold scan_chunk.
  pose proof (same_session_read_bytes mm (module_base mm + o)
                (Z.min C (module_size mm - o))) as Hs.
  destruct (read_bytes mm _ _) as [chunk mm1]. simpl in Hs.
  destruct (_ || _); [done|]. destruct (find _ _); [|done].
  destruct (unpack_i _); [done|].
  eapply same_session_trans; [done|apply same_session_set_last_error].
Qed.

Lemma same_session_scan_loop C pattern_bytes mask rel_offset additional fuel :
  ∀ mm o r mm',
    scan_loop C pattern_bytes mask rel_offset additional fuel mm o = Some (r, mm') →
    MoreSpec.same_session mm mm'.
Proof.
  induction fuel as [|fuel IH]; intros mm o r mm'; [discriminate|]. simpl.
  destruct (o <? module_size mm).
  - pose proof (same_session_scan_chunk C pattern_bytes mask rel_offset additional mm o) as Hs.
    destruct (scan_chunk _ _ _ _ _ mm o) as [r1 mm1|o1 mm1].
    + by intros [= <- <-].
    + intros H. apply IH in H. by eapply same_session_trans.
  - intros [= <- <-]. apply same_session_set_last_error.
Qed.

Lemma same_session_manual_scan C fuel mm pattern rel_offset additional r mm' :
  manual_scan_with C fuel mm pattern rel_offset additional = Some (r, mm') →
  MoreSpec.same_session mm mm'.
Proof.
  unfold manual_scan_with. destruct (parse_pattern pattern) as [[pb mk]|e].
  - apply same_session_scan_loop.
  - intros [= <- <-]. apply same_session_set_last_error.
Qed.

Lemma same_session_scan_aob W fuel mm pattern rel_offset additional r mm' :
  scan_aob W fuel mm pattern rel_offset additional = Some (r, mm') →
  MoreSpec.same_session mm mm'.
Proof.
  intros H. unfold scan_aob in H. destruct (pm mm) as [p|].
  2:{ injection H as <- <-. apply same_session_set_last_error. }
  destruct (module_size mm =? 0).
  { injection H as <- <-. apply same_session_set_last_error. }
  destruct (accelerated W p mm pattern rel_offset additional) as [[a|]|e].
  - injection H as <- <-. apply same_session_refl.
  - injection H as <- <-. apply same_session_set_last_error.
  - apply same_session_manual_scan in H.
    eapply same_session_trans; [apply same_session_set_last_error|done].
Qed.

(** Neither strategy touches the session: whatever a scan returns, the
    manager afterwards holds the same process, module base and size,
    process id and name; only [last_error] may differ. *)
Theorem scan_keeps_session W fuel mm pattern rel_offset additional r mm' :
  _manual_scan_aob fuel mm pattern rel_offset additional = Some (r, mm')
  ∨ scan_aob W fuel mm pattern rel_offset additional = Some (r, mm') →
  MoreSpec.same_session mm mm'.
Proof.
  intros [H|H].
  - by eapply same_session_manual_scan.
  - by eapply same_session_scan_aob.
Qed.

Lemma scan_keeps_session_witness :
  MoreSpec.same_session (manager_of 0x1000 game_module)
    (set_last_error (manager_of 0x1000 game_module)
                    "Pattern not found in module memory").
Proof.
  apply (scan_keeps_session world_miss 1 (manager_of 0x1000 game_module)
           EVENT_FLAG_MAN_AOB 3 7 0).
  right. reflexivity.
Defined.

End ScanExtras.

(** ** More about attach and detach *)

Module AttachExtras.
Import Py MemoryManager MoreSpec Examples MoreExamples.

Lemma attach_unfold W mm process_name :
  Pymem.PYMEM_AVAILABLE W = true →
  attach W mm process_name
  = match attach_loop W (process_names_of process_name) (released mm) with
    | Returned r mm' => (r, mm')
    | FellThrough mm' =>
        (false,
         set_last_error mm'
           ("Process not found. Tried: "
              +:+ join ", " (process_names_of process_name)))
    end.
Proof. intros H. unfold attach. by rewrite H. Qed.

(** Candidates that are not running are passed over without a trace. *)
Lemma attach_loop_skips_missing W pre rest mm :
  Forall (λ n, ∃ m, Pymem.open_process W n = Raise (ProcessNotFound m)) pre →
  attach_loop W (pre ++ rest) mm = attach_loop W rest mm.
Proof.
  induction 1 as [|n pre [m Hn] _ IH]; [done|]. simpl. by rewrite Hn.
Qed.

(** A process that exists but may not be opened ends the search at once:
    [attach] returns [False] with the advice to run as Administrator, the
    candidates after it are not tried, and no session is held. *)
Theorem attach_stops_when_access_denied W mm process_name pre name post msg :
  Pymem.PYMEM_AVAILABLE W = true →
  process_names_of process_name = pre ++ name :: post →
  Forall (λ n, ∃ m, Pymem.open_process W n = Raise (ProcessNotFound m)) pre →
  Pymem.open_process W name = Raise (CouldNotOpenProcess msg) →
  attach W mm process_name
  = (false,
     set_last_error (released mm)
       ("Could not open process (run as Administrator): " +:+ msg)) ∧
  is_attached (attach W mm process_name).2 = false.
Proof.
  intros Hav Hnames Hpre Hden.
  assert (attach W mm process_name
          = (false,
             set_last_error (released mm)
               ("Could not open process (run as Administrator): " +:+ msg))) as E.
  { rewrite attach_unfold, Hnames, attach_loop_skips_missing by done.
    simpl. by rewrite Hden. }
  split; [done|]. rewrite E. unfold released, is_attached.
  destruct (pm mm) eqn:Hp; simpl; [done|]. by rewrite Hp.
Qed.

Lemma attach_stops_when_access_denied_witness :
  attach world_denied init None
  = (false,
     set_last_error init
       "Could not open process (run as Administrator): Could not open process: 4242") ∧
  is_attached (attach world_denied init None).2 = false.
Proof.
  apply (attach_stops_when_access_denied world_denied init None
           ["eldenring.exe"] "start_protected_game.exe" []).
  - reflexivity.
  - reflexivity.
  - constructor; [|constructor]. eexists. reflexivity.
  - reflexivity.
Defined.

(** When every candidate before it, in priority order, is not running
    (opening it raises [ProcessNotFound]), the first candidate that opens
    and whose module resolves becomes the session: [attach] returns [True]
    and records the process, its id and name, and the module's base and
    size; [last_error] is left as it was. *)
Theorem attach_takes_first_resolved_candidate W mm process_name pre name post
        p module :
  Pymem.PYMEM_AVAILABLE W = true →
  process_names_of process_name = pre ++ name :: post →
  Forall (λ n, ∃ m, Pymem.open_process W n = Raise (ProcessNotFound m)) pre →
  Pymem.open_process W name = Return p →
  Pymem.module_from_name W p name = Return (Some module) →
  attach W mm process_name
  = (true,
     Mm (Some p) (Pymem.lpBaseOfDll module) (Pymem.SizeOfImage module)
        (Pymem.process_id p) name (last_error mm)).
Proof.
  intros Hav Hnames Hpre Hopen Hmod.
  rewrite attach_unfold, Hnames, attach_loop_skips_missing by done.
  simpl. rewrite Hopen, Hmod. do 2 f_equal.
  unfold released. by destruct (is_attached mm).
Qed.

Lemma attach_takes_first_resolved_candidate_witness :
  attach world_hit init (Some "modded_game.exe")
  = (true, Mm (Some (process_of 0x1000 game_module)) 0x1000 24 4242
               "eldenring.exe" "").
Proof.
  apply (attach_takes_first_resolved_candidate world_hit init
           (Some "modded_game.exe") ["modded_game.exe"] "eldenring.exe"
           ["start_protected_game.exe"] (process_of 0x1000 game_module) game_image).
  - reflexivity.
  - reflexivity.
  - constructor; [|constructor]. eexists. reflexivity.
  - reflexivity.
  - reflexivity.
Defined.

(** When no candidate runs, [attach] returns [False], names every
    candidate it tried in [last_error], and holds no session: one held
    before the call has been released. *)
Theorem attach_reports_candidates_tried W mm process_name :
  Pymem.PYMEM_AVAILABLE W = true →
  Forall (λ n, ∃ m, Pymem.open_process W n = Raise (ProcessNotFound m))
         (process_names_of process_name) →
  attach W mm process_name
  = (false,
     Mm None (module_base (released mm)) (module_size (released mm))
        (process_id (released mm)) (MemoryManager.process_name (released mm))
        ("Process not found. Tried: "
           +:+ join ", " (process_names_of process_name))) ∧
  (is_attached mm = true →
   (attach W mm process_name).2
   = Mm None 0 0 0 ""
        ("Process not found. Tried: "
           +:+ join ", " (process_names_of process_name))).
Proof.
  intros Hav Hnone.
  assert (pm (released mm) = None) as Hrel.
  { unfold released, is_attached. destruct (pm mm) eqn:Hp; simpl; [done|].
    by rewrite Hp. }
  assert (attach W mm process_name
          = (false,
             Mm None (module_base (released mm)) (module_size (released mm))
                (process_id (released mm)) (MemoryManager.process_name (released mm))
                ("Process not found. Tried: "
                   +:+ join ", " (process_names_of process_name)))) as E.
  { rewrite attach_unfold by done.
    rewrite <-(app_nil_r (process_names_of process_name)) at 1.
    rewrite attach_loop_skips_missing by done. simpl.
    unfold set_last_error. by rewrite Hrel. }
  split; [done|]. intros Hatt. rewrite E. unfold released. by rewrite Hatt.
Qed.

Lemma attach_reports_candidates_tried_witness :
  attach world_empty (manager_of 0x1000 game_module) (Some "modded_game.exe")
  = (false,
     Mm None 0 0 0 ""
        "Process not found. Tried: modded_game.exe, eldenring.exe, start_protected_game.exe").
Proof.
  refine (proj1 (attach_reports_candidates_tried world_empty
                   (manager_of 0x1000 game_module) (Some "modded_game.exe") _ _)).
  - reflexivity.
  - repeat constructor; eexists; reflexivity.
Defined.

(** A pass of the loop that does not return [True] leaves the module data
    as it found it. *)
Lemma attach_loop_keeps_module W names : ∀ mm,
  match attach_loop W names mm with
  | Returned true _ => True
  | Returned false mm' | FellThrough mm' =>
      module_base mm' = module_base mm ∧ module_size mm' = module_size mm
  end.
Proof.
  induction names as [|name rest IH]; intros mm; [done|]. simpl.
  assert (∀ e m0, module_base m0 = module_base mm → module_size m0 = module_size mm →
          match attach_except e name m0 (attach_loop W rest) with
          | Returned true _ => True
          | Returned false mm' | FellThrough mm' =>
              module_base mm' = module_base mm ∧ module_size mm' = module_size mm
          end) as Hexc.
  { intros e m0 Hb Hs. destruct e; simpl; [| done |].
    - specialize (IH m0). destruct (attach_loop W rest m0) as [[] ?|?]; [done|..];
        destruct IH; split; congruence.
    - specialize (IH (set_last_error m0 ("Error attaching to " +:+ name +:+ ": " +:+ msg))).
      destruct (attach_loop W rest _) as [[] ?|?]; [done|..];
        destruct IH; split; simpl in *; congruence. }
  destruct (Pymem.open_process W name) as [p|e]; [|by apply Hexc].
  destruct (Pymem.module_from_name W p name) as [[module|]|e]; [done| |by apply Hexc].
  match goal with |- context [attach_loop W rest ?m] => specialize (IH m) end.
  destruct (attach_loop W rest _) as [[] ?|?]; [done|..]; destruct IH; by split.
Qed.

Lemma failed_attach_leaves_nothing_to_scan_aux W mm process_name mm' :
  Pymem.PYMEM_AVAILABLE W = true →
  consistent mm →
  attach W mm process_name = (false, mm') →
  module_base mm' = 0 ∧ module_size mm' = 0.
Proof.
  intros Hav Hcons Hattach.
  assert (module_base (released mm) = 0 ∧ module_size (released mm) = 0) as [Hb Hs].
  { unfold released, is_attached. destruct (pm mm) eqn:Hp; simpl; [done|].
    by apply Hcons. }
  rewrite attach_unfold in Hattach by done.
  pose proof (attach_loop_keeps_module W (process_names_of process_name) (released mm)) as Hk.
  destruct (attach_loop W _ _) as [[] m1|m1]; [discriminate|..];
    injection Hattach as <-; simpl; destruct Hk; split; congruence.
Qed.

(** After an attach that failed, the recorded module is empty and
    [scan_aob] refuses to scan, whether or not a process was opened on the
    way. *)
Theorem failed_attach_leaves_nothing_to_scan W mm process_name mm' :
  Pymem.PYMEM_AVAILABLE W = true →
  consistent mm →
  attach W mm process_name = (false, mm') →
  module_base mm' = 0 ∧ module_size mm' = 0 ∧
  ∀ fuel pattern rel_offset additional,
    scan_aob W fuel mm' pattern rel_offset additional
    = Some (0, set_last_error mm' "Cannot scan: not attached or module size is 0").
Proof.
  intros Hav Hcons Hattach.
  destruct (failed_attach_leaves_nothing_to_scan_aux W mm process_name mm'
              Hav Hcons Hattach) as [Hb' Hs'].
  split; [done|]. split; [done|]. intros. unfold scan_aob. rewrite Hs'.
  by destruct (pm mm').
Qed.

Lemma failed_attach_leaves_nothing_to_scan_witness :
  let mm' := (attach world_loading init None).2 in
  is_attached mm' = true ∧ module_base mm' = 0 ∧ module_size mm' = 0 ∧
  ∀ fuel pattern rel_offset additional,
    scan_aob world_loading fuel mm' pattern rel_offset additional
    = Some (0, set_last_error mm' "Cannot scan: not attached or module size is 0").
Proof.
  split; [reflexivity|].
  apply (failed_attach_leaves_nothing_to_scan world_loading init None).
  - reflexivity.
  - intros _. by split.
  - vm_compute. reflexivity.
Defined.

(** Module data is recorded only while a process is held, and every
    operation of the manager keeps it so: a fresh manager, [attach]
    (whatever it returns), [detach], reads, writes and scans. *)
Theorem manager_stays_consistent W mm :
  consistent mm →
  consistent init ∧
  (∀ process_name, consistent (attach W mm process_name).2) ∧
  consistent (detach mm) ∧
  (∀ a n, consistent (read_bytes mm a n).2) ∧
  (∀ a v, consistent (write_byte mm a v).2) ∧
  (∀ fuel pattern rel_offset additional r mm',
     scan_aob W fuel mm pattern rel_offset additional = Some (r, mm') →
     consistent mm').
Proof.
  intros Hcons.
  assert (∀ m', same_session mm m' → consistent m') as Hsame.
  { intros m' (Hp & Hb & Hs & _) Hnone. rewrite <-Hb, <-Hs. apply Hcons. congruence. }
  split; [by intros _|]. split; [|split; [by intros _|]].
  - intros process_name. destruct (Pymem.PYMEM_AVAILABLE W) eqn:Hav.
    + destruct (attach W mm process_name) as [[] m'] eqn:E.
      * apply AttachClaims.attach_true_has_module in E as (p & _ & _ & Hp & _).
        intros Hnone. simpl in Hnone. congruence.
      * destruct (failed_attach_leaves_nothing_to_scan_aux W mm process_name m' Hav Hcons E)
          as [Hb Hs]. by intros _.
    + unfold attach. rewrite Hav. simpl. apply Hsame, ScanExtras.same_session_set_last_error.
  - split; [|split].
    + intros a n. apply Hsame, ScanExtras.same_session_read_bytes.
    + intros a v. unfold write_byte. destruct (pm mm) as [p|] eqn:Hp; [|done].
      destruct (Pymem.write_uchar p a (Z.land v 255)); simpl.
      * intros Hnone. discriminate.
      * apply Hsame, ScanExtras.same_session_set_last_error.
    + intros fuel pattern rel_offset additional r mm' H.
      apply Hsame. eapply (ScanExtras.same_session_scan_aob W). exact H.
Qed.

Lemma manager_stays_consistent_witness :
  consistent (attach world_loading init None).2.
Proof.
  destruct (manager_stays_consistent world_loading init) as (_ & H & _).
  - intros _. by split.
  - apply H.
Defined.

End AttachExtras.

(** ** More about memory writes and unlocking *)

Module UnlockExtras.
Import Py MemoryManager EldenRingModTool MoreSpec Examples MoreExamples.

(** *** Writing one byte *)

(** A successful [write_byte] stores [value & 0xFF]: reading the byte back
    gives the low eight bits of what was written; every other address
    reads as before; nothing else of the manager changes.  A failed one
    changes no byte at all. *)
Theorem write_byte_then_read_byte mm a v ok mm' :
  write_byte mm a v = (ok, mm') →
  same_session_but_memory mm mm' ∧
  (∀ b, b ≠ a → read_byte mm' b = read_byte mm b) ∧
  (ok = true → last_error mm' = last_error mm ∧
               ∀ p old, pm mm = Some p → Pymem.read_uchar p a = Return old →
                        read_byte mm' a = Z.land v 255) ∧
  (ok = false → memory_of mm' = memory_of mm).
Proof.
  unfold write_byte, same_session_but_memory, memory_of.
  destruct (pm mm) as [p|] eqn:Hp.
  2:{ intros [= <- <-]. rewrite Hp. repeat split; try done. }
  unfold Pymem.write_uchar.
  assert (0 ≤ Z.land v 255 < 256) as Hrange.
  { change 255 with (Z.ones 8). rewrite Z.land_ones by lia.
    apply Z.mod_pos_bound. lia. }
  destruct (Z.ltb_spec (Z.land v 255) 0) as [?|_]; [lia|].
  destruct (Z.ltb_spec 255 (Z.land v 255)) as [?|_]; [lia|]. simpl.
  destruct (Pymem.memory p !! a) as [c|] eqn:Hc.
  2:{ intros [= <- <-]. simpl. rewrite Hp. repeat split; try done. }
  destruct (Pymem.can_write c) eqn:Hw.
  2:{ intros [= <- <-]. simpl. rewrite Hp. repeat split; try done. }
  intros [= <- <-]. simpl. split; [done|]. split; [|split; [|done]].
  - intros b Hb. unfold read_byte. simpl. rewrite Hp.
    unfold Pymem.read_uchar, Pymem.read_cell. simpl.
    by rewrite lookup_insert_ne.
  - intros _. split; [done|]. intros p0 old [= <-] Hold.
    unfold read_byte. simpl. unfold Pymem.read_uchar, Pymem.read_cell in *. simpl.
    rewrite lookup_insert_eq. simpl. rewrite Hc in Hold. simpl in Hold.
    by destruct (Pymem.can_read c).
Qed.

(** *** One flag *)

Lemma shiftl_1_pow2 (bit : nat) : Z.shiftl 1 (Z.of_nat bit) = 2 ^ Z.of_nat bit.
Proof. rewrite Z.shiftl_1_l. done. Qed.

Lemma testbit_lor_pow2 b (bit : nat) j :
  0 ≤ j →
  Z.testbit (Z.lor b (2 ^ Z.of_nat bit)) j
  = Z.testbit b j || bool_decide (j = Z.of_nat bit).
Proof.
  intros Hj. rewrite Z.lor_spec, Z.pow2_bits_eqb by lia. f_equal.
  case_bool_decide; [apply Z.eqb_eq|apply Z.eqb_neq]; lia.
Qed.

Lemma lor_pow2_byte b (bit : nat) :
  0 ≤ b < 256 → (bit < 8)%nat → 0 ≤ Z.lor b (2 ^ Z.of_nat bit) < 256.
Proof.
  intros Hb Hbit. split; [apply Z.lor_nonneg; split; [lia|apply Z.pow_nonneg; lia]|].
  destruct (decide (Z.lor b (2 ^ Z.of_nat bit) = 0)) as [->|Hnz]; [lia|].
  assert (0 < Z.lor b (2 ^ Z.of_nat bit)) as Hpos.
  { assert (0 ≤ Z.lor b (2 ^ Z.of_nat bit)); [|lia].
    apply Z.lor_nonneg; split; [lia|apply Z.pow_nonneg; lia]. }
  change 256 with (2 ^ 8). apply Z.log2_lt_pow2; [done|].
  rewrite Z.log2_lor by (try lia; apply Z.pow_nonneg; lia).
  apply Z.max_lub_lt.
  - destruct (decide (b = 0)) as [->|]; [simpl; lia|].
    apply Z.log2_lt_pow2; lia.
  - rewrite Z.log2_pow2 by lia. lia.
Qed.

Lemma lor_pow2_set b (bit : nat) :
  Z.testbit b (Z.of_nat bit) = true → Z.lor b (2 ^ Z.of_nat bit) = b.
Proof.
  intros Hset. apply Z.bits_inj'. intros j Hj. rewrite testbit_lor_pow2 by done.
  case_bool_decide; [subst; by rewrite Hset|by rewrite orb_false_r].
Qed.

Lemma land_255_byte x : 0 ≤ x < 256 → Z.land x 255 = x.
Proof.
  intros Hx. change 255 with (Z.ones 8). rewrite Z.land_ones by lia.
  apply Z.mod_small. lia.
Qed.

(** The pass of the loop over a requested flag whose byte is accessible. *)
Lemma unlock_one_accessible K flag_base name offset bit mm unlocked p b :
  K !! name = Some (offset, bit) → (bit < 8)%nat →
  pm mm = Some p →
  Pymem.memory p !! (flag_base + offset) = Some (Pymem.Cell b true true) →
  0 ≤ b < 256 →
  unlock_one K flag_base (name, true) (mm, unlocked)
  = (set_pm mm
       (Pymem.Pm (Pymem.process_id p) (Pymem.process_handle p)
          (<[flag_base + offset := Pymem.Cell (Z.lor b (2 ^ Z.of_nat bit)) true true]>
             (Pymem.memory p))),
     unlocked ++ [name]).
Proof.
  intros HK Hbit Hpm Hcell Hb. unfold unlock_one. rewrite HK.
  unfold read_byte, write_byte. rewrite Hpm.
  unfold Pymem.read_uchar, Pymem.read_cell. rewrite Hcell. simpl.
  rewrite shiftl_1_pow2.
  pose proof (lor_pow2_byte b bit Hb Hbit) as Hr.
  rewrite land_255_byte by done.
  unfold Pymem.write_uchar. rewrite Hcell. simpl.
  destruct (Z.ltb_spec (Z.lor b (2 ^ Z.of_nat bit)) 0) as [?|_]; [lia|].
  destruct (Z.ltb_spec 255 (Z.lor b (2 ^ Z.of_nat bit))) as [?|_]; [lia|]. done.
Qed.

(** Unlocking a flag whose byte is accessible sets the flag's bit in that
    byte and nothing else: the other bits of the byte and every other byte
    stay as they were, and the name joins the unlocked list. *)
Theorem unlock_sets_one_bit K flag_base name offset bit mm unlocked b :
  K !! name = Some (offset, bit) → (bit < 8)%nat →
  memory_of mm !! (flag_base + offset) = Some (Pymem.Cell b true true) →
  0 ≤ b < 256 →
  ∃ mm' b',
    unlock_one K flag_base (name, true) (mm, unlocked) = (mm', unlocked ++ [name]) ∧
    memory_of mm' = <[flag_base + offset := Pymem.Cell b' true true]> (memory_of mm) ∧
    Z.testbit b' (Z.of_nat bit) = true ∧
    (∀ j, 0 ≤ j → j ≠ Z.of_nat bit → Z.testbit b' j = Z.testbit b j) ∧
    last_error mm' = last_error mm.
Proof.
  intros HK Hbit Hcell Hb. unfold memory_of in Hcell.
  destruct (pm mm) as [p|] eqn:Hpm; [|by rewrite lookup_empty in Hcell].
  eexists _, (Z.lor b (2 ^ Z.of_nat bit)).
  split; [by eapply unlock_one_accessible|].
  split; [unfold memory_of; by rewrite Hpm|]. split; [|split; [|done]].
  - rewrite testbit_lor_pow2 by lia. rewrite bool_decide_eq_true_2 by done.
    apply orb_true_r.
  - intros j Hj Hne. rewrite testbit_lor_pow2 by done.
    rewrite bool_decide_eq_false_2 by done. apply orb_false_r.
Qed.

(** *** The whole loop *)

Lemma requested_cons K name var l :
  requested K ((name, var) :: l)
  = if var && bool_decide (is_Some (K !! name)) then name :: requested K l
    else requested K l.
Proof. unfold requested. simpl. by destruct (var && _). Qed.

Lemma accessible_after_write K flag_base boxes M a b b' :
  flags_accessible K flag_base boxes M →
  M !! a = Some (Pymem.Cell b true true) → 0 ≤ b' < 256 →
  flags_accessible K flag_base boxes (<[a := Pymem.Cell b' true true]> M).
Proof.
  intros Hacc Ha Hb' name offset bit Hin HK.
  destruct (Hacc name offset bit Hin HK) as (Hbit & b0 & Hc & Hb0).
  split; [done|]. destruct (decide (a = flag_base + offset)) as [->|Hne].
  - exists b'. by rewrite lookup_insert_eq.
  - exists b0. by rewrite lookup_insert_ne.
Qed.

Lemma bit_set_after_or M a b (bit : nat) x k :
  M !! a = Some (Pymem.Cell b true true) →
  bit_set M x k →
  bit_set (<[a := Pymem.Cell (Z.lor b (2 ^ Z.of_nat bit)) true true]> M) x k.
Proof.
  intros Ha (c & Hc & Hset). destruct (decide (a = x)) as [->|Hne].
  - eexists. rewrite lookup_insert_eq. split; [done|]. simpl.
    rewrite Ha in Hc. injection Hc as <-. simpl in Hset.
    rewrite testbit_lor_pow2 by lia. by rewrite Hset.
  - exists c. by rewrite lookup_insert_ne.
Qed.

Lemma memory_of_set_pm mm pid handle M :
  memory_of (set_pm mm (Pymem.Pm pid handle M)) = M.
Proof. done. Qed.

(** A pass over accessible flags unlocks every requested one, only sets
    bits, and leaves every requested bit set. *)
Lemma unlock_pass K flag_base boxes l :
  (∀ e, e ∈ l → e ∈ boxes) →
  ∀ mm unlocked,
    flags_accessible K flag_base boxes (memory_of mm) →
    ∃ mm',
      unlock_loop K flag_base l (mm, unlocked) = (mm', unlocked ++ requested K l) ∧
      flags_accessible K flag_base boxes (memory_of mm') ∧
      (∀ a bit, bit_set (memory_of mm) a bit → bit_set (memory_of mm') a bit) ∧
      (∀ name offset bit, (name, true) ∈ l → K !! name = Some (offset, bit) →
                          bit_set (memory_of mm') (flag_base + offset) bit) ∧
      last_error mm' = last_error mm.
Proof.
  induction l as [|[name var] l IH]; intros Hsub mm unlocked Hacc.
  - exists mm. rewrite app_nil_r.
    split; [done|]. split; [done|]. split; [done|]. split; [|done].
    intros ??? Hin. by apply elem_of_nil in Hin.
  - assert (∀ e, e ∈ l → e ∈ boxes) as Hsub' by (intros e He; apply Hsub; by right).
    rewrite UnlockClaims.unlock_loop_cons, requested_cons.
    destruct var; [destruct (K !! name) as [[offset bit]|] eqn:HK|].
    + destruct (Hacc name offset bit ltac:(apply Hsub; left) HK) as (Hbit & b & Hc & Hb).
      assert (∃ p, pm mm = Some p ∧ Pymem.memory p = memory_of mm) as (p & Hpm & HM).
      { unfold memory_of in *. destruct (pm mm) as [p|]; [by exists p|].
        by rewrite lookup_empty in Hc. }
      rewrite <-HM in Hc.
      rewrite (unlock_one_accessible K flag_base name offset bit mm unlocked p b
                 HK Hbit Hpm Hc Hb).
      rewrite HM in Hc.
      set (mm1 := set_pm mm _).
      assert (memory_of mm1
              = <[flag_base + offset := Pymem.Cell (Z.lor b (2 ^ Z.of_nat bit)) true true]>
                  (memory_of mm)) as HM1 by (unfold mm1; by rewrite memory_of_set_pm, HM).
      destruct (IH Hsub' mm1 (unlocked ++ [name])) as (mm' & Hrun & Hacc' & Hmono & Hset & Herr).
      { rewrite HM1. eapply accessible_after_write; [done..|].
        by apply lor_pow2_byte. }
      exists mm'. simpl. rewrite <-app_assoc in Hrun. split; [done|]. split; [done|].
      split; [|split; [|done]].
      * intros a k Hk. apply Hmono. rewrite HM1. by apply bit_set_after_or.
      * intros name' offset' bit' Hin HK'. apply elem_of_cons in Hin as [[= ->]|Hin].
        -- rewrite HK in HK'. injection HK' as <- <-. apply Hmono. rewrite HM1.
           eexists. rewrite lookup_insert_eq. split; [done|]. simpl.
           rewrite testbit_lor_pow2 by lia. rewrite bool_decide_eq_true_2 by done.
           apply orb_true_r.
        -- by eapply Hset.
    + assert (unlock_one K flag_base (name, true) (mm, unlocked) = (mm, unlocked)) as ->
        by (unfold unlock_one; by rewrite HK).
      simpl.
      destruct (IH Hsub' mm unlocked Hacc) as (mm' & Hrun & Hacc' & Hmono & Hset & Herr).
      exists mm'. split; [done|]. split; [done|]. split; [done|]. split; [|done].
      intros name' offset' bit' Hin HK'. apply elem_of_cons in Hin as [[= ->]|Hin];
        [congruence|by eapply Hset].
    + assert (unlock_one K flag_base (name, false) (mm, unlocked) = (mm, unlocked)) as ->
        by done.
      simpl.
      destruct (IH Hsub' mm unlocked Hacc) as (mm' & Hrun & Hacc' & Hmono & Hset & Herr).
      exists mm'. split; [done|]. split; [done|]. split; [done|]. split; [|done].
      intros name' offset' bit' Hin HK'. apply elem_of_cons in Hin as [[=]|Hin].
      by eapply Hset.
Qed.

(** A pass over flags whose bits are all set changes nothing. *)
Lemma unlock_pass_set K flag_base boxes l :
  (∀ e, e ∈ l → e ∈ boxes) →
  ∀ mm unlocked,
    flags_accessible K flag_base boxes (memory_of mm) →
    (∀ name offset bit, (name, true) ∈ l → K !! name = Some (offset, bit) →
                        bit_set (memory_of mm) (flag_base + offset) bit) →
    unlock_loop K flag_base l (mm, unlocked) = (mm, unlocked ++ requested K l).
Proof.
  induction l as [|[name var] l IH]; intros Hsub mm unlocked Hacc Hset.
  - by rewrite app_nil_r.
  - assert (∀ e, e ∈ l → e ∈ boxes) as Hsub' by (intros e He; apply Hsub; by right).
    assert (∀ name offset bit, (name, true) ∈ l → K !! name = Some (offset, bit) →
                               bit_set (memory_of mm) (flag_base + offset) bit) as Hset'
      by (intros ??? Hin; apply Hset; by right).
    rewrite UnlockClaims.unlock_loop_cons, requested_cons.
    destruct var; [destruct (K !! name) as [[offset bit]|] eqn:HK|].
    + destruct (Hacc name offset bit ltac:(apply Hsub; left) HK) as (Hbit & b & Hc & Hb).
      destruct (Hset name offset bit ltac:(left) HK) as (c & Hc' & Hbitset).
      rewrite Hc in Hc'. injection Hc' as <-. simpl in Hbitset.
      assert (∃ p, pm mm = Some p ∧ Pymem.memory p = memory_of mm) as (p & Hpm & HM).
      { unfold memory_of in *. destruct (pm mm) as [p|]; [by exists p|].
        by rewrite lookup_empty in Hc. }
      rewrite <-HM in Hc.
      rewrite (unlock_one_accessible K flag_base name offset bit mm unlocked p b
                 HK Hbit Hpm Hc Hb).
      rewrite lor_pow2_set by done. rewrite insert_id by done.
      assert (set_pm mm (Pymem.Pm (Pymem.process_id p) (Pymem.process_handle p)
                                  (Pymem.memory p)) = mm) as ->.
      { destruct mm, p. simpl in *. by rewrite Hpm. }
      simpl. rewrite IH by done. by rewrite <-app_assoc.
    + assert (unlock_one K flag_base (name, true) (mm, unlocked) = (mm, unlocked)) as ->
        by (unfold unlock_one; by rewrite HK).
      simpl.
      by apply IH.
    + assert (unlock_one K flag_base (name, false) (mm, unlocked) = (mm, unlocked)) as ->
        by done.
      simpl. by apply IH.
Qed.

(** When every requested flag lies on an accessible byte, the loop unlocks
    all of them, in the order of the boxes, and unlocking is safe to
    repeat: a second run over the same boxes finds every bit set, changes
    no byte and reports the same names. *)
Theorem unlock_twice_is_unlock_once K flag_base boxes mm :
  flags_accessible K flag_base boxes (memory_of mm) →
  let first := unlock_loop K flag_base boxes (mm, []) in
  first.2 = requested K boxes ∧
  unlock_loop K flag_base boxes (first.1, []) = first.
Proof.
  intros Hacc.
  destruct (unlock_pass K flag_base boxes boxes ltac:(done) mm [] Hacc)
    as (mm' & Hrun & Hacc' & _ & Hset & _).
  simpl. rewrite Hrun. simpl. split; [done|].
  by apply (unlock_pass_set K flag_base boxes boxes).
Qed.

Lemma three_checked_accessible :
  flags_accessible SOME_GRACES 0x10000 three_checked
    (memory_of (memory (tool_of flags_open three_checked))).
Proof.
  intros name offset bit Hin HK.
  repeat (apply elem_of_cons in Hin as [[= ->]|Hin]);
    [..|by apply elem_of_nil in Hin];
    vm_compute in HK; injection HK as <- <-; (split; [lia|]);
    eexists; (split; [vm_compute; reflexivity|lia]).
Qed.

Lemma unlock_twice_is_unlock_once_witness :
  let first := unlock_loop SOME_GRACES 0x10000 three_checked
                 (memory (tool_of flags_open three_checked), []) in
  first.2 = ["Church of Elleh"; "Gatefront"; "The First Step"] ∧
  unlock_loop SOME_GRACES 0x10000 three_checked (first.1, []) = first.
Proof.
  exact (unlock_twice_is_unlock_once SOME_GRACES 0x10000 three_checked
           (memory (tool_of flags_open three_checked)) three_checked_accessible).
Defined.

Lemma unlock_sets_one_bit_witness :
  ∃ mm' b',
    unlock_one SOME_GRACES 0x10000 ("The First Step", true)
      (memory (tool_of flags_open three_checked), [])
    = (mm', ["The First Step"]) ∧
    memory_of mm'
    = <[0x10000 + 0xCBE := Pymem.Cell b' true true]>
        (memory_of (memory (tool_of flags_open three_checked))) ∧
    Z.testbit b' 2 = true ∧
    (∀ j, 0 ≤ j → j ≠ 2 → Z.testbit b' j = Z.testbit 0x01 j) ∧
    last_error mm' = "".
Proof.
  apply (unlock_sets_one_bit SOME_GRACES 0x10000 "The First Step" 0xCBE 2
           (memory (tool_of flags_open three_checked)) [] 0x01).
  - reflexivity.
  - lia.
  - vm_compute. reflexivity.
  - lia.
Defined.

Lemma write_byte_then_read_byte_witness :
  let mm := memory (tool_of flags_open three_checked) in
  let mm' := (write_byte mm 0x10CBE 0x1FF).2 in
  read_byte mm' 0x10CBE = 0xFF ∧ read_byte mm' 0x10CBF = 0x40.
Proof.
  intros mm mm'.
  destruct (write_byte_then_read_byte mm 0x10CBE 0x1FF true mm')
    as (_ & Hother & Hsame & _).
  - vm_compute. reflexivity.
  - split.
    + destruct (Hsame eq_refl) as [_ H].
      apply (H (Pymem.Pm 4242 7 (pointer_chain ∪ flags_open)) 0x01).
      * reflexivity.
      * vm_compute. reflexivity.
    + rewrite (Hother 0x10CBF) by lia. vm_compute. reflexivity.
Defined.

(** *** What the loop reports *)

Lemma unlock_loop_sublist K flag_base boxes : ∀ mm unlocked,
  ∃ added,
    (unlock_loop K flag_base boxes (mm, unlocked)).2 = unlocked ++ added ∧
    added `sublist_of` requested K boxes.
Proof.
  induction boxes as [|[name var] boxes IH]; intros mm unlocked.
  - exists []. by rewrite app_nil_r.
  - rewrite UnlockClaims.unlock_loop_cons, requested_cons.
    destruct var; [destruct (K !! name) as [[offset bit]|] eqn:HK|].
    + rewrite (UnlockClaims.unlock_one_known _ _ _ _ _ _ _ HK). cbv zeta.
      destruct (write_byte _ _ _) as [[] mm1]; cbn [fst snd].
      * destruct (IH mm1 (unlocked ++ [name])) as (added & -> & Hsub).
        exists (name :: added). simpl. rewrite <-app_assoc. split; [done|].
        by apply sublist_skip.
      * destruct (IH mm1 unlocked) as (added & -> & Hsub).
        exists added. simpl. split; [done|]. by apply sublist_cons.
    + assert (unlock_one K flag_base (name, true) (mm, unlocked) = (mm, unlocked)) as ->
        by (unfold unlock_one; by rewrite HK).
      simpl. apply IH.
    + assert (unlock_one K flag_base (name, false) (mm, unlocked) = (mm, unlocked)) as ->
        by done.
      simpl. apply IH.
Qed.

(** The unlocked list only grows, by requested names in the order of the
    boxes: flags that are unchecked or missing from the table are never
    reported, and neither order nor multiplicity is changed. *)
Theorem unlocked_is_sublist_of_requested K flag_base boxes mm unlocked :
  ∃ added,
    (unlock_loop K flag_base boxes (mm, unlocked)).2 = unlocked ++ added ∧
    added `sublist_of` requested K boxes.
Proof. apply unlock_loop_sublist. Qed.

Lemma requested_elem K boxes n :
  n ∈ requested K boxes ↔ (n, true) ∈ boxes ∧ is_Some (K !! n).
Proof.
  unfold requested. rewrite list_elem_of_omap. split.
  - intros ([name var] & Hin & Hsome). simpl in Hsome.
    destruct var; simpl in Hsome; [|discriminate].
    case_bool_decide; [|discriminate]. by injection Hsome as <-.
  - intros [Hin Hk]. exists (n, true). split; [done|]. simpl.
    by rewrite bool_decide_eq_true_2.
Qed.

Lemma write_byte_protected mm a v :
  (∀ c, memory_of mm !! a = Some c → Pymem.can_write c = false) →
  (write_byte mm a v).1 = false ∧
  memory_of (write_byte mm a v).2 = memory_of mm ∧
  is_attached (write_byte mm a v).2 = is_attached mm.
Proof.
  intros Hprot. unfold write_byte, memory_of, is_attached in *.
  destruct (pm mm) as [p|] eqn:Hp; simpl; [|by rewrite ?Hp].
  unfold Pymem.write_uchar. destruct (_ || _); simpl; [by rewrite ?Hp|].
  destruct (Pymem.memory p !! a) as [c|] eqn:Hc; simpl; [|by rewrite ?Hp].
  rewrite (Hprot c eq_refl). simpl. by rewrite ?Hp.
Qed.

Lemma unlock_loop_protected K flag_base boxes l :
  (∀ e, e ∈ l → e ∈ boxes) →
  ∀ mm unlocked,
    flags_write_protected K flag_base boxes (memory_of mm) →
    ∃ mm', unlock_loop K flag_base l (mm, unlocked) = (mm', unlocked) ∧
           memory_of mm' = memory_of mm.
Proof.
  induction l as [|[name var] l IH]; intros Hsub mm unlocked Hprot; [by exists mm|].
  assert (∀ e, e ∈ l → e ∈ boxes) as Hsub' by (intros e He; apply Hsub; by right).
  rewrite UnlockClaims.unlock_loop_cons.
  destruct var; [destruct (K !! name) as [[offset bit]|] eqn:HK|].
  - rewrite (UnlockClaims.unlock_one_known _ _ _ _ _ _ _ HK). cbv zeta.
    destruct (write_byte_protected mm (flag_base + offset)
                (Z.lor (read_byte mm (flag_base + offset)) (Z.shiftl 1 (Z.of_nat bit))))
      as (Hfail & Hmem & _).
    { intros c Hc. eapply Hprot; [apply Hsub; left|done|done]. }
    destruct (write_byte _ _ _) as [ok mm1]. simpl in *. subst ok.
    destruct (IH Hsub' mm1 unlocked) as (mm' & Hrun & Hmem'); [by rewrite Hmem|].
    exists mm'. split; [done|congruence].
  - assert (unlock_one K flag_base (name, true) (mm, unlocked) = (mm, unlocked)) as ->
      by (unfold unlock_one; by rewrite HK).
    by apply IH.
  - assert (unlock_one K flag_base (name, false) (mm, unlocked) = (mm, unlocked)) as ->
      by done.
    by apply IH.
Qed.

(** When no requested flag byte can be written, no byte changes and the
    tool's only message is "No graces selected", however many flags were
    requested. *)
Theorem unlock_says_nothing_selected_when_writes_fail K self :
  is_attached (memory self) = true →
  get_event_flag_base self ≠ 0 →
  flags_write_protected K (get_event_flag_base self) (grace_checkboxes self)
                        (memory_of (memory self)) →
  (unlock_selected_graces K self).2 = [showinfo "Info" "No graces selected"] ∧
  memory_of (memory (unlock_selected_graces K self).1) = memory_of (memory self).
Proof.
  intros Hatt Hbase Hprot. unfold unlock_selected_graces. rewrite Hatt. simpl.
  destruct (Z.eqb_spec (get_event_flag_base self) 0) as [?|_]; [done|].
  destruct (unlock_loop_protected K (get_event_flag_base self) (grace_checkboxes self)
              (grace_checkboxes self) ltac:(done) (memory self) [] Hprot)
    as (mm' & -> & Hmem).
  done.
Qed.

Lemma unlock_says_nothing_selected_when_writes_fail_witness :
  (unlock_selected_graces SOME_GRACES (tool_of flags_read_only three_checked)).2
  = [showinfo "Info" "No graces selected"] ∧
  memory_of (memory (unlock_selected_graces SOME_GRACES
                       (tool_of flags_read_only three_checked)).1)
  = memory_of (memory (tool_of flags_read_only three_checked)).
Proof.
  apply unlock_says_nothing_selected_when_writes_fail.
  - reflexivity.
  - vm_compute. discriminate.
  - replace (get_event_flag_base (tool_of flags_read_only three_checked))
      with 0x10000 by (vm_compute; reflexivity).
    intros name offset bit c Hin HK Hc.
    repeat (apply elem_of_cons in Hin as [[= ->]|Hin]);
      [..|by apply elem_of_nil in Hin];
      vm_compute in HK; injection HK as <- <-;
      vm_compute in Hc; by injection Hc as <-.
Defined.

(** Without a structure base nothing is unlocked: when no process is held,
    no anchor was found, or a pointer of the chain is null or cannot be
    read, the tool shows an error and neither its state nor any byte of
    the process changes. *)
Theorem unlock_refuses_without_flag_base K self :
  is_attached (memory self) = false ∨ event_flag_man self = 0
  ∨ read_int64 (memory self) (event_flag_man self) = 0
  ∨ read_int64 (memory self)
      (read_int64 (memory self) (event_flag_man self) + 0x28) = 0 →
  ∃ message, unlock_selected_graces K self = (self, [showerror "Error" message]).
Proof.
  intros H. unfold unlock_selected_graces.
  destruct (is_attached (memory self)) eqn:Hatt; simpl; [|by eexists].
  assert (get_event_flag_base self = 0) as ->; [|by eexists].
  unfold get_event_flag_base.
  destruct H as [?|[->|[->|H]]]; [done|done|by destruct (_ =? 0)|].
  destruct (_ =? 0); [done|]. by destruct (_ =? 0).
Qed.

Lemma unlock_refuses_without_flag_base_witness :
  ∃ message,
    unlock_selected_graces SOME_GRACES tool_without_event_flags
    = (tool_without_event_flags, [showerror "Error" message]).
Proof.
  apply unlock_refuses_without_flag_base.
  right. right. left. vm_compute. reflexivity.
Defined.

End UnlockExtras.

(** ** Presets *)

Module PresetExtras.
Import Py MemoryManager EldenRingModTool GraceTab MoreSpec Examples MoreExamples.

Lemma check_names name boxes : (check name boxes).*1 = boxes.*1.
Proof.
  unfold check. rewrite <-list_fmap_compose. apply list_fmap_ext.
  intros i [n v] _. simpl. by case_decide.
Qed.

(** The loop checks the boxes named in the preset, leaves the others,
    counts the names that have a box and collects those that have none. *)
Lemma preset_loop_spec preset_graces : ∀ boxes selected_count not_found,
  preset_loop preset_graces boxes selected_count not_found
  = ((λ entry : string * bool,
        (entry.1, entry.2 || bool_decide (entry.1 ∈ preset_graces))) <$> boxes,
     (selected_count
      + length (filter (λ n, n ∈ boxes.*1) preset_graces))%nat,
     not_found ++ filter (λ n, n ∉ boxes.*1) preset_graces).
Proof.
  induction preset_graces as [|name rest IH]; intros boxes selected_count not_found.
  - cbn [preset_loop]. rewrite !filter_nil. cbn [length].
    rewrite app_nil_r, Nat.add_0_r.
    apply pair_equal_spec; split; [apply pair_equal_spec; split|]; [|done|done].
    rewrite <-(list_fmap_id boxes) at 1. apply list_fmap_ext.
    intros i [n v] _. cbn [fst snd].
    rewrite (bool_decide_eq_false_2 (n ∈ [])) by apply not_elem_of_nil.
    by rewrite orb_false_r.
  - cbn [preset_loop]. case_bool_decide as Hin.
    + rewrite IH, check_names.
      rewrite (filter_cons_True (λ n, n ∈ boxes.*1)) by done.
      rewrite (filter_cons_False (λ n, n ∉ boxes.*1)) by (intros H; by apply H).
      apply pair_equal_spec; split; [apply pair_equal_spec; split|];
        [|simpl; lia|done].
      unfold check. rewrite <-list_fmap_compose. apply list_fmap_ext.
      intros i [n v] _. simpl. case_decide as Hn; simpl.
      * subst. rewrite bool_decide_eq_true_2 by left. by rewrite orb_true_r.
      * f_equal. f_equal. apply bool_decide_ext. rewrite elem_of_cons.
        split; [by right|by intros [?|?]].
    + rewrite IH.
      rewrite (filter_cons_False (λ n, n ∈ boxes.*1)) by done.
      rewrite (filter_cons_True (λ n, n ∉ boxes.*1)) by done.
      rewrite <-app_assoc.
      apply pair_equal_spec; split; [apply pair_equal_spec; split|]; [|done|done].
      apply list_fmap_ext. intros i [n v] Hlook. simpl. f_equal. f_equal.
      apply bool_decide_ext. rewrite elem_of_cons.
      assert (n ≠ name) as Hnn; [|split; [by right|by intros [?|?]]].
      intros ->. apply Hin. apply list_elem_of_fmap. exists (name, v).
      split; [done|]. by eapply list_elem_of_lookup_2.
Qed.

(** Applying a known preset keeps the boxes and their order, and leaves
    checked exactly the boxes whose name is in the preset, whatever was
    checked before; memory and anchor are not touched. *)
Theorem apply_grace_preset_checks_exactly_the_preset PRESETS preset_name
        preset_graces self :
  preset_name ≠ EmptyString →
  PRESETS !! preset_name = Some preset_graces →
  (apply_grace_preset PRESETS preset_name self).1
  = Tool (memory self) (event_flag_man self)
         ((λ entry : string * bool,
             (entry.1, bool_decide (entry.1 ∈ preset_graces)))
            <$> grace_checkboxes self).
Proof.
  intros Hne Hknown. unfold apply_grace_preset.
  rewrite decide_False by done. rewrite Hknown. rewrite preset_loop_spec.
  simpl. f_equal. unfold set_all. rewrite <-list_fmap_compose.
  apply list_fmap_ext. by intros i [n v] _.
Qed.

Lemma apply_grace_preset_checks_exactly_the_preset_witness :
  grace_checkboxes
    (apply_grace_preset SOME_PRESETS "Early Game"
       (tool_of flags_open four_boxes)).1
  = [("Agheel Lake South", true); ("Church of Elleh", true);
     ("Gatefront", true); ("The First Step", true)].
Proof.
  rewrite (apply_grace_preset_checks_exactly_the_preset SOME_PRESETS "Early Game"
             ["The First Step"; "Church of Elleh"; "Gatefront"; "Stormhill Shack";
              "Agheel Lake South"; "Agheel Lake North"; "Waypoint Ruins Cellar"]).
  - vm_compute. reflexivity.
  - discriminate.
  - reflexivity.
Defined.

(** What the user is told after a preset is applied: the search field is
    cleared; the count is the number of preset names that have a box; the
    names without a box are listed, in the preset's order, in a warning,
    and when there is none the status line confirms the preset.  Counted
    and listed names together are the whole preset. *)
Theorem apply_grace_preset_reports_missing_names PRESETS preset_name
        preset_graces self :
  preset_name ≠ EmptyString →
  PRESETS !! preset_name = Some preset_graces →
  let names := (grace_checkboxes self).*1 in
  let selected_count := length (filter (λ n, n ∈ names) preset_graces) in
  let not_found := filter (λ n, n ∉ names) preset_graces in
  (selected_count + length not_found = length preset_graces)%nat ∧
  (apply_grace_preset PRESETS preset_name self).2
  = [grace_search ""; search_results "";
     match not_found with
     | [] =>
         shown (grace_status
                  ("Preset '" +:+ preset_name +:+ "' applied ("
                     +:+ pretty selected_count +:+ " graces)"))
     | _ =>
         shown (showwarning "Warning"
                  ("Selected " +:+ pretty selected_count +:+ " graces."
                     +:+ nl +:+ nl +:+ "Not found ("
                     +:+ pretty (length not_found) +:+ "):" +:+ nl
                     +:+ join nl not_found))
     end].
Proof.
  intros Hne Hknown names selected_count not_found. split.
  - unfold selected_count, not_found. clear. induction preset_graces as [|n l IH]; [done|].
    destruct (decide (n ∈ names)).
    + rewrite (filter_cons_True (λ n, n ∈ names)) by done.
      rewrite (filter_cons_False (λ n, n ∉ names)) by (intros H; by apply H).
      simpl. lia.
    + rewrite (filter_cons_False (λ n, n ∈ names)) by done.
      rewrite (filter_cons_True (λ n, n ∉ names)) by done.
      simpl. lia.
  - unfold apply_grace_preset. rewrite decide_False by done.
    rewrite Hknown, preset_loop_spec.
    assert ((grace_checkboxes (deselect_all_graces self)).*1 = names) as ->.
    { unfold names, deselect_all_graces, set_all. simpl.
      rewrite <-list_fmap_compose. by apply list_fmap_ext. }
    fold selected_count not_found. simpl. by destruct not_found.
Qed.

Lemma apply_grace_preset_reports_missing_names_witness :
  (apply_grace_preset SOME_PRESETS "Early Game" (tool_of flags_open four_boxes)).2
  = [grace_search ""; search_results "";
     shown (showwarning "Warning"
              ("Selected 4 graces." +:+ nl +:+ nl +:+ "Not found (3):" +:+ nl
                 +:+ "Stormhill Shack" +:+ nl +:+ "Agheel Lake North" +:+ nl
                 +:+ "Waypoint Ruins Cellar"))].
Proof.
  destruct (apply_grace_preset_reports_missing_names SOME_PRESETS "Early Game"
              ["The First Step"; "Church of Elleh"; "Gatefront"; "Stormhill Shack";
               "Agheel Lake South"; "Agheel Lake North"; "Waypoint Ruins Cellar"]
              (tool_of flags_open four_boxes)) as [_ H].
  - discriminate.
  - reflexivity.
  - rewrite H. vm_compute. reflexivity.
Defined.

(** Unlocking a preset never reports a flag from outside the preset,
    whatever was checked before: every name the loop unlocks after the
    preset is applied is a name of the preset with an entry in the table. *)
Theorem preset_unlocks_only_preset_flags PRESETS K preset_name preset_graces
        self flag_base n :
  preset_name ≠ EmptyString →
  PRESETS !! preset_name = Some preset_graces →
  let self' := (apply_grace_preset PRESETS preset_name self).1 in
  n ∈ (unlock_loop K flag_base (grace_checkboxes self') (memory self', [])).2 →
  n ∈ preset_graces ∧ is_Some (K !! n).
Proof.
  intros Hne Hknown self' Hin.
  destruct (UnlockExtras.unlock_loop_sublist K flag_base (grace_checkboxes self')
              (memory self') []) as (added & Heq & Hsub).
  rewrite Heq in Hin. simpl in Hin.
  apply (elem_of_sublist _ _ _ Hin) in Hsub. clear Hin. rename Hsub into Hin.
  apply UnlockExtras.requested_elem in Hin as [Hbox Hk]. split; [|done].
  unfold self' in Hbox.
  assert (grace_checkboxes (apply_grace_preset PRESETS preset_name self).1
          = (λ entry : string * bool,
               (entry.1, bool_decide (entry.1 ∈ preset_graces)))
              <$> grace_checkboxes self) as Hboxes.
  { unfold apply_grace_preset. rewrite decide_False by done.
    rewrite Hknown, preset_loop_spec. simpl. unfold set_all.
    rewrite <-list_fmap_compose. apply list_fmap_ext. by intros i [m v] _. }
  rewrite Hboxes in Hbox. apply list_elem_of_fmap in Hbox as ([m v] & Heq' & _).
  simpl in Heq'. injection Heq' as -> Htrue. symmetry in Htrue.
  by apply bool_decide_eq_true in Htrue.
Qed.

Lemma preset_unlocks_only_preset_flags_witness :
  "Gatefront" ∈ ["The First Step"; "Church of Elleh"; "Gatefront"; "Stormhill Shack";
                 "Agheel Lake South"; "Agheel Lake North"; "Waypoint Ruins Cellar"]
  ∧ is_Some (SOME_GRACES !! "Gatefront").
Proof.
  apply (preset_unlocks_only_preset_flags SOME_PRESETS SOME_GRACES "Early Game"
           _ (tool_of flags_open four_boxes) 0x10000 "Gatefront").
  - discriminate.
  - reflexivity.
  - replace (unlock_loop _ _ _ _).2
      with ["Agheel Lake South"; "Church of Elleh"; "Gatefront"; "The First Step"].
    + set_solver.
    + vm_compute. reflexivity.
Defined.

End PresetExtras.

(** ** The preview text and the weapon offsets *)

Module StatsExtras.
Import Py Randomizer RandomizerSpec Stats MoreSpec MoreExamples.

Lemma foldl_cost (f : string * string → Z) l : ∀ c,
  (∀ m, 0 ≤ f m) →
  c ≤ foldl (λ cost m, cost + f m) c l ∧
  (foldl (λ cost m, cost + f m) c l = c ↔ ∀ m, m ∈ l → f m = 0).
Proof.
  induction l as [|x l IH]; intros c Hf; simpl.
  - split; [lia|]. split; [|done]. intros _ m Hm. by apply elem_of_nil in Hm.
  - destruct (IH (c + f x) Hf) as [Hle Hiff]. pose proof (Hf x). split; [lia|].
    split.
    + intros Heq. assert (f x = 0) as Hx by lia.
      intros m [->|Hm]%elem_of_cons; [done|]. apply Hiff; [lia|done].
    + intros Hall. pose proof (Hall x ltac:(left)) as Hx.
      destruct Hiff as [_ Hback]. rewrite Hback; [lia|].
      intros m Hm. apply Hall. by right.
Qed.

(** The offset is the sum, over strength, dexterity, intelligence, faith
    and arcane, of what the class lacks: it is never negative, and it is 0
    exactly when every requirement of the weapon is met (a missing
    requirement or stat counting as 0, strength counting two-handed). *)
Theorem class_offset_zero_iff_requirements_met times_1_5 weapon_reqs class_stats :
  0 ≤ calculate_class_offset times_1_5 weapon_reqs class_stats ∧
  (calculate_class_offset times_1_5 weapon_reqs class_stats = 0 ↔
   ∀ req_stat class_stat, (req_stat, class_stat) ∈ stat_mapping →
     default 0 (weapon_reqs !! req_stat)
     ≤ effective times_1_5 class_stats req_stat class_stat).
Proof.
  unfold calculate_class_offset.
  destruct (foldl_cost
              (λ m, Z.max 0 (default 0 (weapon_reqs !! m.1)
                             - effective times_1_5 class_stats m.1 m.2))
              stat_mapping 0 ltac:(intros; lia)) as [Hle Hiff].
  split; [done|]. rewrite Hiff. split.
  - intros H req_stat class_stat Hin. specialize (H _ Hin). simpl in H. lia.
  - intros H [req_stat class_stat] Hin. specialize (H _ _ Hin). simpl. lia.
Qed.

(** Strength 10 held two-handed counts as 15, one short of 16; dexterity
    14 meets 13. *)
Example class_offset_of_a_greatsword :
  calculate_class_offset times_1_5_exact greatsword warrior_like = 1.
Proof. vm_compute. reflexivity. Qed.

(** *** The preview of randomized stats *)

Lemma format_row_well_formed d :
  well_formed (stats d) → format_row d = Some (expected_row d).
Proof.
  destruct d as [nm st]. intros (Hkeys & _ & Htot & Hlevel). simpl in *.
  unfold keys in Hkeys.
  destruct st as [|[k1 v1] st]; [discriminate Hkeys|].
  destruct st as [|[k2 v2] st]; [discriminate Hkeys|].
  destruct st as [|[k3 v3] st]; [discriminate Hkeys|].
  destruct st as [|[k4 v4] st]; [discriminate Hkeys|].
  destruct st as [|[k5 v5] st]; [discriminate Hkeys|].
  destruct st as [|[k6 v6] st]; [discriminate Hkeys|].
  destruct st as [|[k7 v7] st]; [discriminate Hkeys|].
  destruct st as [|[k8 v8] st]; [discriminate Hkeys|].
  destruct st as [|[k9 v9] st]; [discriminate Hkeys|].
  destruct st; [|discriminate Hkeys].
  injection Hkeys as -> -> -> -> -> -> -> -> ->.
  vm_compute in Hlevel. injection Hlevel as ->.
  unfold attribute_total in Htot. vm_compute in Htot.
  assert (items_total
            [("vigor", v1); ("mind", v2); ("endurance", v3); ("strength", v4);
             ("dexterity", v5); ("intelligence", v6); ("faith", v7);
             ("arcane", v8); ("level", 9)] = 88) as Htotal.
  { transitivity (v1 + (v2 + (v3 + (v4 + (v5 + (v6 + (v7 + (v8 + 0))))))));
      [reflexivity|exact Htot]. }
  unfold format_row, expected_row. cbn [stats name]. rewrite Htotal.
  reflexivity.
Qed.

Lemma stats_get_elem all_stats k d :
  NoDup all_stats.*1 → (k, d) ∈ all_stats → stats_get all_stats k = Some d.
Proof.
  induction all_stats as [|[k0 d0] l IH]; intros Hnd Hin.
  - by apply elem_of_nil in Hin.
  - rewrite fmap_cons in Hnd. apply NoDup_cons in Hnd as [Hk0 Hnd]. simpl.
    apply elem_of_cons in Hin as [[= -> ->]|Hin]; [by rewrite decide_True|].
    rewrite decide_False; [by apply IH|].
    intros ->. apply Hk0. apply list_elem_of_fmap. by exists (k, d).
Qed.

(** Rows in ascending id order with well-formed stats are printed one per
    class, between two rules. *)
Lemma format_stats_text_well_formed all_stats :
  Sorted Z.le all_stats.*1 → NoDup all_stats.*1 →
  Forall (λ row, well_formed (stats row.2)) all_stats →
  format_stats_text all_stats
  = Some (join nl ([repeat_char "-" 65]
                     ++ ((λ row, expected_row row.2) <$> all_stats)
                     ++ [repeat_char "-" 65])).
Proof.
  intros Hsorted Hnd Hwf. unfold format_stats_text.
  assert (merge_sort Z.le all_stats.*1 = all_stats.*1) as ->.
  { apply (Sorted_unique Z.le); [apply Sorted_merge_sort; apply _|done|].
    apply merge_sort_Permutation. }
  assert (mapM (λ row_id, d ← stats_get all_stats row_id; format_row d) all_stats.*1
          = Some ((λ row, expected_row row.2) <$> all_stats)) as ->; [|done].
  apply mapM_Some. apply Forall2_fmap_l, Forall2_fmap_r.
  apply Forall_Forall2_diag. apply Forall_forall. intros [k d] Hin. simpl.
  rewrite (stats_get_elem all_stats k d Hnd Hin). simpl.
  apply format_row_well_formed.
  rewrite Forall_forall in Hwf. by apply (Hwf (k, d)).
Qed.

(** The preview of freshly randomized stats has ten rows between two
    rules, one per class in ascending id order, and every row shows level
    9 and a total of 88. *)
Theorem preview_of_randomized_stats rng seed_state randbelow seed g0 :
  (∀ g n, (0 < n)%nat → ((randbelow g n).1 < n)%nat) →
  let all_stats := (randomize_stats rng seed_state randbelow seed g0).1 in
  length all_stats = 10%nat ∧
  format_stats_text all_stats
  = Some (join nl ([repeat_char "-" 65]
                     ++ ((λ row, expected_row row.2) <$> all_stats)
                     ++ [repeat_char "-" 65])).
Proof.
  intros Hrange all_stats. unfold all_stats, randomize_stats.
  destruct (RandomizerClaims.classes_loop_inv rng randbelow Hrange PLAYER_CLASSES
              (TOTAL_STATS - MIN_STAT * NUM_STATS) [] (seed_state seed) eq_refl)
    as (added & Hr & Hn & Hw).
  rewrite Hr, app_nil_l.
  assert (added.*1 = PLAYER_CLASSES.*1) as Hkeys.
  { rewrite <-Hn, <-list_fmap_compose. done. }
  split.
  - rewrite <-(length_fmap fst), Hkeys. reflexivity.
  - apply format_stats_text_well_formed; [| |done]; rewrite Hkeys.
    + repeat constructor; vm_compute; discriminate.
    + apply (bool_decide_unpack _). vm_compute. reflexivity.
Qed.

Lemma preview_of_randomized_stats_witness :
  let all_stats := (randomize_stats Z lcg_seed lcg_randbelow 2024 0).1 in
  length all_stats = 10%nat ∧
  format_stats_text all_stats
  = Some (join nl ([repeat_char "-" 65]
                     ++ ((λ row, expected_row row.2) <$> all_stats)
                     ++ [repeat_char "-" 65])).
Proof.
  exact (preview_of_randomized_stats Z lcg_seed lcg_randbelow 2024 0
           RandomizerClaims.lcg_randbelow_range).
Defined.

End StatsExtras.

(** ** The manual scan at a chunk boundary *)

Module ChunkBoundary.
Import Py MemoryManager ScanSpec ScanFacts Examples.

(** A process made of [bs] at [base] reads as [bs]. *)
Lemma read_process_of base bs :
  Pymem.read_bytes (process_of base bs) base (Z.of_nat (length bs)) = Return bs.
Proof.
  apply ReadFacts.read_bytes_Return. split; [lia|].
  apply Forall2_same_length_lookup. split; [rewrite length_seqZ; lia|].
  intros i x b Hx Hb. apply lookup_seqZ in Hx as [-> Hi].
  unfold Pymem.read_cell, process_of, cells_of. cbn [Pymem.memory].
  rewrite (elem_of_list_to_map_1 _ _ (Pymem.Cell b true true)); [done| |].
  - rewrite fst_zip; [apply NoDup_seqZ|]. rewrite length_seqZ, length_fmap. lia.
  - apply (list_elem_of_lookup_2 _ i). apply lookup_zip_with_Some.
    eexists _, _. split; [done|]. split; [by apply lookup_seqZ_lt|].
    by rewrite list_lookup_fmap, Hb.
Qed.

Lemma take_drop_take_drop {A} (l : list A) (o c k w : nat) :
  (k + w ≤ c)%nat →
  take w (drop k (take c (drop o l))) = take w (drop (o + k) l).
Proof.
  intros H. rewrite skipn_firstn_comm, take_take, drop_drop.
  f_equal. lia.
Qed.

Lemma unpack_i_short (b : list Z) :
  length b ≠ 4%nat →
  unpack_i b = Raise (OtherException "unpack requires a buffer of 4 bytes").
Proof. intros H. unfold unpack_i. by rewrite decide_False. Qed.

(** A slice that starts inside the sequence and ends behind it is cut at
    the end of the sequence. *)
Lemma slice_length_cut {A} (l : list A) (a b : Z) :
  0 ≤ a ≤ Z.of_nat (length l) → Z.of_nat (length l) ≤ b →
  length (slice l a b) = Z.to_nat (Z.of_nat (length l) - a).
Proof.
  intros Ha Hb. unfold slice, slice_index.
  destruct (Z.ltb_spec a 0); [lia|]. destruct (Z.ltb_spec b 0); [lia|].
  rewrite length_take, length_drop. lia.
Qed.

Section Buffer.
Context (C : Z) (pattern_bytes : list Z) (mask : list bool).
Context (rel_offset additional : Z).
Context (p : Pymem.t) (buf : list Z) (mm : t).

Hypothesis Hpm : pm mm = Some p.
Hypothesis Hread :
  Pymem.read_bytes p (module_base mm) (module_size mm) = Return buf.
Hypothesis HL : (1 ≤ length pattern_bytes)%nat.
Hypothesis HC : Z.of_nat (length pattern_bytes) ≤ C.

Local Abbreviation L := (length pattern_bytes).
Local Abbreviation step := (Z.to_nat (C - (Z.of_nat (length pattern_bytes) - 1))).

(** The chunks start at the multiples of [CHUNK_SIZE - overlap]; the
    lowest match is found in the chunk whose block of candidate offsets it
    lies in, and is resolved with a slice of that chunk. *)
Lemma scan_loop_finds_in_chunk (m : nat) :
  (m + L ≤ length buf)%nat →
  found_at pattern_bytes mask buf m = true →
  (∀ j, (j < m)%nat → found_at pattern_bytes mask buf j = false) →
  ∀ (k fuel o : nat),
    (o + k * step ≤ m < o + k * step + step)%nat → (k < fuel)%nat →
    scan_loop C pattern_bytes mask rel_offset additional fuel mm (Z.of_nat o)
    = let start := (o + k * step)%nat in
      let chunk :=
        take (Z.to_nat (Z.min C (Z.of_nat (length buf) - Z.of_nat start)))
             (drop start buf) in
      match unpack_i (slice chunk (Z.of_nat (m - start) + rel_offset)
                            (Z.of_nat (m - start) + rel_offset + 4)) with
      | Return v => Some (module_base mm + Z.of_nat m + additional + v, mm)
      | Raise e => Some (0, set_last_error mm ("Manual scan failed: " +:+ exn_str e))
      end.
Proof.
  intros Hfit Hm Hlow.
  induction k as [|k IH]; intros fuel o Hk Hf; (destruct fuel as [|fuel]; [lia|]);
    cbn [scan_loop]; rewrite (module_size_buf _ _ _ Hread);
    (destruct (Z.ltb_spec (Z.of_nat o) (Z.of_nat (length buf))) as [_|?]; [|lia]);
    destruct (scan_chunk_inside C pattern_bytes mask rel_offset additional
                p buf mm Hpm Hread HL HC o ltac:(lia)) as (Hc1 & Hc2 & ->).
  - cbv zeta. replace (o + 0 * step)%nat with o by lia.
    set (c := Z.to_nat (Z.min C (Z.of_nat (length buf) - Z.of_nat o))) in *.
    rewrite (find_seq_first _ 0 _ (m - o)%nat); [|lia| |].
    + destruct (unpack_i _); do 2 f_equal; lia.
    + rewrite found_at_chunk by lia. by replace (o + (m - o))%nat with m by lia.
    + intros j Hj. rewrite found_at_chunk by lia. apply Hlow. lia.
  - assert (o + step ≤ m)%nat as Hstep by nia.
    rewrite find_seq_none.
    2:{ intros j Hj. rewrite found_at_chunk by lia. apply Hlow. lia. }
    match goal with |- scan_loop _ _ _ _ _ _ _ ?x = _ =>
      replace x with (Z.of_nat (o + step)) by lia end.
    rewrite (IH fuel (o + step)%nat) by lia. cbv zeta.
    by replace (o + step + k * step)%nat with (o + S k * step)%nat by lia.
Qed.

End Buffer.


(** The same on a pattern string: the match at the lowest offset [m] is
    found in the chunk that starts at [start], the [k]-th multiple of
    [C - overlap]. *)
Lemma manual_scan_in_chunk C mm p buf pattern pattern_bytes mask rel_offset
      additional (m k start : nat) :
  pm mm = Some p →
  Pymem.read_bytes p (module_base mm) (module_size mm) = Return buf →
  parse_pattern pattern = Return (pattern_bytes, mask) →
  Z.of_nat (length pattern_bytes) ≤ C →
  matches_at pattern_bytes mask buf m →
  (∀ j, (j < m)%nat → ¬ matches_at pattern_bytes mask buf j) →
  Z.of_nat start = Z.of_nat k * (C - (Z.of_nat (length pattern_bytes) - 1)) →
  Z.of_nat start ≤ Z.of_nat m
  < Z.of_nat start + (C - (Z.of_nat (length pattern_bytes) - 1)) →
  ∀ fuel, (k < fuel)%nat →
    manual_scan_with C fuel mm pattern rel_offset additional
    = match unpack_i
              (slice (take (Z.to_nat (Z.min C (Z.of_nat (length buf) - Z.of_nat start)))
                           (drop start buf))
                     (Z.of_nat (m - start) + rel_offset)
                     (Z.of_nat (m - start) + rel_offset + 4)) with
      | Return v => Some (module_base mm + Z.of_nat m + additional + v, mm)
      | Raise e => Some (0, set_last_error mm ("Manual scan failed: " +:+ exn_str e))
      end.
Proof.
  intros Hpm Hread Hparse HC Hmatch Hlow Hstart Hm fuel Hfuel.
  destruct (parse_pattern_lengths _ _ _ Hparse) as [Hmask HL].
  unfold manual_scan_with. rewrite Hparse.
  pose proof Hmatch as [Hfit _].
  assert (start = (0 + k * Z.to_nat (C - (Z.of_nat (length pattern_bytes) - 1))))%nat
    as Hs by nia.
  pose proof (scan_loop_finds_in_chunk C pattern_bytes mask rel_offset additional
                p buf mm Hpm Hread HL HC m Hfit) as H.
  specialize (H ltac:(by apply found_at_true)).
  assert (∀ j, (j < m)%nat → found_at pattern_bytes mask buf j = false) as Hlow'.
  { intros j Hj. destruct (found_at pattern_bytes mask buf j) eqn:E; [|done].
    exfalso. apply (Hlow j Hj). apply found_at_true; [done|lia|done]. }
  specialize (H Hlow' k fuel 0%nat). cbv zeta in H. rewrite <- Hs in H.
  apply H; lia.
Qed.


(** *** Modules that are zero up to a short tail *)

(** A pattern whose first byte is fixed and not zero matches behind the
    zeros only. *)
Lemma matches_behind_zeros pattern_bytes mask (y : nat) tail j b :
  pattern_bytes !! 0%nat = Some b → b ≠ 0 → mask !! 0%nat = Some true →
  matches_at pattern_bytes mask (replicate y 0 ++ tail) j ↔
  (y ≤ j)%nat ∧ matches_at pattern_bytes mask tail (j - y).
Proof.
  intros Hb Hnz Hm. unfold matches_at. rewrite length_app, length_replicate. split.
  - intros [Hfit H]. assert (y ≤ j)%nat as Hj.
    { destruct (decide (y ≤ j)%nat); [done|]. specialize (H 0%nat b Hb Hm).
      rewrite Nat.add_0_r, lookup_app_l in H by (rewrite length_replicate; lia).
      rewrite lookup_replicate_2 in H by lia. congruence. }
    split; [done|]. split; [lia|]. intros i c Hc Hmi. specialize (H i c Hc Hmi).
    rewrite lookup_app_r in H by (rewrite length_replicate; lia).
    rewrite length_replicate in H. by replace (j - y + i)%nat with (j + i - y)%nat by lia.
  - intros [Hj [Hfit H]]. split; [lia|]. intros i c Hc Hmi.
    rewrite lookup_app_r by (rewrite length_replicate; lia). rewrite length_replicate.
    replace (j + i - y)%nat with (j - y + i)%nat by lia. by apply H.
Qed.

Lemma tail_at_chunk_end i :
  matches_at [0xAA; 0; 0; 0; 0] [true; false; false; false; false]
             [0xAA; 1; 2; 3; 4; 5; 6] i ↔ i = 0%nat.
Proof.
  split.
  - intros H. pose proof H as [Hfit _]. simpl in Hfit.
    apply found_at_true in H; [|reflexivity|done].
    do 3 (destruct i as [|i]; [first [reflexivity | discriminate H]|]). lia.
  - intros ->. apply found_at_true; [reflexivity | simpl; lia | reflexivity].
Qed.

Lemma tail_at_chunk_start i :
  matches_at [0xAA; 0; 0; 0; 0] [true; false; false; false; false]
             [0; 0xAA; 1; 2; 3; 4] i ↔ i = 1%nat.
Proof.
  split.
  - intros H. pose proof H as [Hfit _]. simpl in Hfit.
    apply found_at_true in H; [|reflexivity|done].
    do 2 (destruct i as [|i]; [first [reflexivity | discriminate H]|]). lia.
  - intros ->. apply found_at_true; [reflexivity | simpl; lia | reflexivity].
Qed.

(** The match is the last one the first chunk holds and the relative
    field ends one byte behind the pattern: the chunk ends inside the
    field, the whole module does not. *)
Lemma field_behind_chunk_end C (y : nat) base additional :
  Z.of_nat y = C - 5 →
  let buf := replicate y 0 ++ [0xAA; 1; 2; 3; 4; 5; 6] in
  (∀ j, matches_at [0xAA; 0; 0; 0; 0] [true; false; false; false; false] buf j
        ↔ j = y) ∧
  (∀ fuel, (0 < fuel)%nat →
     manual_scan_with C fuel (manager_of base buf) "AA ?? ?? ?? ??" 2 additional
     = Some (0, set_last_error (manager_of base buf)
                  "Manual scan failed: unpack requires a buffer of 4 bytes")) ∧
  (∀ C' fuel, Z.of_nat (length buf) ≤ C' → (0 < fuel)%nat →
     manual_scan_with C' fuel (manager_of base buf) "AA ?? ?? ?? ??" 2 additional
     = Some (base + (C - 5) + additional + le_signed [2; 3; 4; 5],
             manager_of base buf)).
Proof.
  intros Hy buf.
  assert (∀ j, matches_at [0xAA; 0; 0; 0; 0] [true; false; false; false; false] buf j
               ↔ j = y) as Huniq.
  { intros j. unfold buf. rewrite (matches_behind_zeros _ _ _ _ _ 0xAA) by done.
    rewrite tail_at_chunk_end. lia. }
  assert (length buf = (y + 7)%nat) as Hlen.
  { unfold buf. rewrite length_app, length_replicate. done. }
  split; [done|]. split.
  - intros fuel Hfuel.
    rewrite (manual_scan_in_chunk C (manager_of base buf) (process_of base buf) buf
               "AA ?? ?? ?? ??" [0xAA; 0; 0; 0; 0] [true; false; false; false; false]
               2 additional y 0 0);
      [|done|apply read_process_of|done|simpl; lia|by apply Huniq
       |intros j Hj Hmj; apply Huniq in Hmj; lia|simpl; lia|simpl; lia|done].
    rewrite unpack_i_short; [done|].
    rewrite slice_length_cut; rewrite length_take, length_drop, Hlen; lia.
  - intros C' fuel HC' Hfuel.
    rewrite (manual_scan_in_chunk C' (manager_of base buf) (process_of base buf) buf
               "AA ?? ?? ?? ??" [0xAA; 0; 0; 0; 0] [true; false; false; false; false]
               2 additional y 0 0);
      [|done|apply read_process_of|done|simpl; lia|by apply Huniq
       |intros j Hj Hmj; apply Huniq in Hmj; lia|simpl; lia|simpl; lia|done].
    rewrite slice_inside; [|lia|lia|rewrite length_take, length_drop, Hlen; lia].
    replace (Z.to_nat (Z.of_nat (y - 0) + 2 + 4 - (Z.of_nat (y - 0) + 2)))
      with 4%nat by lia.
    replace (Z.to_nat (Z.of_nat (y - 0) + 2)) with (y + 2)%nat by lia.
    rewrite take_drop_take_drop by (rewrite Hlen; lia).
    unfold buf. rewrite drop_app_ge by (rewrite length_replicate; lia).
    rewrite length_replicate. replace (0 + (y + 2) - y)%nat with 2%nat by lia.
    cbn [drop take]. change (unpack_i [2; 3; 4; 5]) with (Return (le_signed [2; 3; 4; 5])).
    cbn [module_base manager_of]. do 3 f_equal. lia.
Qed.


(** The match is the first one of the second chunk and the relative field
    starts one byte before the pattern: the byte before it is not in the
    chunk, where index -1 means the last byte; it is in the whole module. *)
Lemma field_before_chunk_start C (y : nat) base additional :
  Z.of_nat y = C - 5 →
  let buf := replicate y 0 ++ [0; 0xAA; 1; 2; 3; 4] in
  (∀ j, matches_at [0xAA; 0; 0; 0; 0] [true; false; false; false; false] buf j
        ↔ j = (y + 1)%nat) ∧
  (∀ fuel, (1 < fuel)%nat →
     manual_scan_with C fuel (manager_of base buf) "AA ?? ?? ?? ??" (-1) additional
     = Some (0, set_last_error (manager_of base buf)
                  "Manual scan failed: unpack requires a buffer of 4 bytes")) ∧
  (∀ C' fuel, Z.of_nat (length buf) ≤ C' → (0 < fuel)%nat →
     manual_scan_with C' fuel (manager_of base buf) "AA ?? ?? ?? ??" (-1) additional
     = Some (base + (C - 4) + additional + le_signed [0; 0xAA; 1; 2],
             manager_of base buf)).
Proof.
  intros Hy buf.
  assert (∀ j, matches_at [0xAA; 0; 0; 0; 0] [true; false; false; false; false] buf j
               ↔ j = (y + 1)%nat) as Huniq.
  { intros j. unfold buf. rewrite (matches_behind_zeros _ _ _ _ _ 0xAA) by done.
    rewrite tail_at_chunk_start. lia. }
  assert (length buf = (y + 6)%nat) as Hlen.
  { unfold buf. rewrite length_app, length_replicate. done. }
  split; [done|]. split.
  - intros fuel Hfuel.
    rewrite (manual_scan_in_chunk C (manager_of base buf) (process_of base buf) buf
               "AA ?? ?? ?? ??" [0xAA; 0; 0; 0; 0] [true; false; false; false; false]
               (-1) additional (y + 1) 1 (y + 1));
      [|done|apply read_process_of|done|simpl; lia|by apply Huniq
       |intros j Hj Hmj; apply Huniq in Hmj; lia|simpl; lia|simpl; lia|done].
    rewrite Hlen.
    replace (Z.to_nat (Z.min C (Z.of_nat (y + 6) - Z.of_nat (y + 1)))) with 5%nat by lia.
    unfold buf. rewrite drop_app_ge by (rewrite length_replicate; lia).
    rewrite length_replicate. replace (y + 1 - y)%nat with 1%nat by lia.
    rewrite Nat.sub_diag. done.
  - intros C' fuel HC' Hfuel.
    rewrite (manual_scan_in_chunk C' (manager_of base buf) (process_of base buf) buf
               "AA ?? ?? ?? ??" [0xAA; 0; 0; 0; 0] [true; false; false; false; false]
               (-1) additional (y + 1) 0 0);
      [|done|apply read_process_of|done|simpl; lia|by apply Huniq
       |intros j Hj Hmj; apply Huniq in Hmj; lia|simpl; lia|simpl; lia|done].
    rewrite slice_inside; [|lia|lia|rewrite length_take, length_drop, Hlen; lia].
    replace (Z.to_nat (Z.of_nat (y + 1 - 0) + -1 + 4 - (Z.of_nat (y + 1 - 0) + -1)))
      with 4%nat by lia.
    replace (Z.to_nat (Z.of_nat (y + 1 - 0) + -1)) with y by lia.
    rewrite take_drop_take_drop by (rewrite Hlen; lia).
    unfold buf. rewrite drop_app_ge by (rewrite length_replicate; lia).
    rewrite length_replicate. replace (0 + y - y)%nat with 0%nat by lia.
    cbn [drop take].
    change (unpack_i [0; 170; 1; 2]) with (Return (le_signed [0; 0xAA; 1; 2])).
    cbn [module_base manager_of]. do 3 f_equal. lia.
Qed.

(** *** A pattern of zero bytes *)

Lemma split_space_zeros (n : nat) :
  split_space (join " " (replicate (S n) "00")) = replicate (S n) "00".
Proof.
  induction n as [|n IH]; [done|].
  change (join " " (replicate (S (S n)) "00"))
    with ("00" +:+ " " +:+ join " " (replicate (S n) "00")).
  rewrite ScanExtras.split_space_app, IH. done.
Qed.

Lemma parse_parts_zeros (n : nat) pattern_bytes mask :
  parse_parts (replicate n "00") pattern_bytes mask
  = Return (pattern_bytes ++ replicate n 0, mask ++ replicate n true).
Proof.
  revert pattern_bytes mask. induction n as [|n IH]; intros pattern_bytes mask.
  - by rewrite !app_nil_r.
  - cbn [replicate parse_parts]. rewrite decide_False by done.
    change (int16 "00") with (Return (A:=Z) 0). cbv iota beta.
    rewrite IH, <- !app_assoc. done.
Qed.

(** A pattern longer than a chunk, on a module that is one match of it:
    the scan with chunks never returns, the scan over the whole module
    resolves the match. *)
Lemma pattern_longer_than_chunk C (n : nat) base additional :
  (4 ≤ n)%nat → C < Z.of_nat n →
  let pattern := join " " (replicate n "00") in
  let buf := replicate n 0 in
  parse_pattern pattern = Return (replicate n 0, replicate n true) ∧
  (∀ j, matches_at (replicate n 0) (replicate n true) buf j ↔ j = 0%nat) ∧
  (∀ fuel, manual_scan_with C fuel (manager_of base buf) pattern 0 additional = None) ∧
  (∀ C' fuel, Z.of_nat (length buf) ≤ C' → (0 < fuel)%nat →
     manual_scan_with C' fuel (manager_of base buf) pattern 0 additional
     = Some (base + additional, manager_of base buf)).
Proof.
  intros Hn HC pattern buf.
  assert (parse_pattern pattern = Return (replicate n 0, replicate n true)) as Hparse.
  { unfold parse_pattern, pattern. destruct n as [|n']; [lia|].
    rewrite split_space_zeros. apply parse_parts_zeros. }
  assert (∀ j, matches_at (replicate n 0) (replicate n true) buf j ↔ j = 0%nat)
    as Huniq.
  { intros j. unfold matches_at, buf. rewrite length_replicate. split.
    - intros [Hfit _]. lia.
    - intros ->. split; [lia|]. by intros i b Hb _. }
  split; [done|]. split; [done|]. split.
  - intros fuel. unfold manual_scan_with. rewrite Hparse.
    apply scan_loop_small_chunk_diverges.
    + by rewrite length_replicate.
    + cbn [module_size manager_of]. unfold buf. rewrite length_replicate. lia.
  - intros C' fuel HC' Hfuel. unfold buf in HC'. rewrite length_replicate in HC'.
    rewrite (manual_scan_returns_lowest_match C' (manager_of base buf)
               (process_of base buf) buf pattern (replicate n 0) (replicate n true)
               0 additional 0);
      [|done|apply read_process_of|done|by rewrite length_replicate|done
       |rewrite length_replicate; lia|by apply Huniq|intros j Hj; lia|done].
    unfold buf. cbn [module_base manager_of Nat.add].
    change (Z.to_nat 0) with 0%nat. rewrite drop_0, take_replicate. replace (4 `min` n)%nat with 4%nat by lia.
    change (le_signed (replicate 4 0)) with 0. do 2 f_equal. lia.
Qed.


(** C6, as stated, fails at the source's chunk size of 4 MiB, on modules a
    few bytes longer than one chunk that carry the pattern exactly once.
    (1) A pattern longer than a chunk: every chunk is shorter than the
    pattern, the offset never advances and the scan never returns, while a
    scan with one chunk over the module resolves the match.  (2) A
    relative field that starts one byte before the pattern, the match being
    the first of the second chunk: [chunk[-1:3]] is empty, [struct.unpack]
    raises and the scan returns 0.  (3) A relative field that ends one byte
    behind the pattern, the match being the last of the first chunk:
    [chunk[i+2:i+6]] has three bytes, and the scan returns 0.  In (2) and
    (3) a scan with one chunk over the module resolves the match. *)
Lemma chunked_scan_differs_from_single_chunk_scan :
  (CHUNK_SIZE < Z.of_nat (length MoreExamples.long_module) ∧
   parse_pattern MoreExamples.long_pattern
   = Return (MoreExamples.long_module, replicate (Z.to_nat (CHUNK_SIZE + 1)) true) ∧
   (∀ j, matches_at MoreExamples.long_module
                    (replicate (Z.to_nat (CHUNK_SIZE + 1)) true)
                    MoreExamples.long_module j ↔ j = 0%nat) ∧
   (∀ fuel,
      _manual_scan_aob fuel (manager_of 0x1000 MoreExamples.long_module)
                       MoreExamples.long_pattern 0 7 = None) ∧
   (∀ C' fuel, Z.of_nat (length MoreExamples.long_module) ≤ C' → (0 < fuel)%nat →
      manual_scan_with C' fuel (manager_of 0x1000 MoreExamples.long_module)
                       MoreExamples.long_pattern 0 7
      = Some (0x1000 + 7, manager_of 0x1000 MoreExamples.long_module))) ∧
  (CHUNK_SIZE < Z.of_nat (length MoreExamples.chunk_start_module) ∧
   (∀ j, matches_at [0xAA; 0; 0; 0; 0] [true; false; false; false; false]
                    MoreExamples.chunk_start_module j
         ↔ Z.of_nat j = CHUNK_SIZE - 4) ∧
   (∀ fuel, (1 < fuel)%nat →
      _manual_scan_aob fuel (manager_of 0x1000 MoreExamples.chunk_start_module)
                       "AA ?? ?? ?? ??" (-1) 7
      = Some (0, set_last_error (manager_of 0x1000 MoreExamples.chunk_start_module)
                   "Manual scan failed: unpack requires a buffer of 4 bytes")) ∧
   (∀ C' fuel,
      Z.of_nat (length MoreExamples.chunk_start_module) ≤ C' → (0 < fuel)%nat →
      manual_scan_with C' fuel (manager_of 0x1000 MoreExamples.chunk_start_module)
                       "AA ?? ?? ?? ??" (-1) 7
      = Some (0x1000 + (CHUNK_SIZE - 4) + 7 + le_signed [0; 0xAA; 1; 2],
              manager_of 0x1000 MoreExamples.chunk_start_module))) ∧
  (CHUNK_SIZE < Z.of_nat (length MoreExamples.chunk_end_module) ∧
   (∀ j, matches_at [0xAA; 0; 0; 0; 0] [true; false; false; false; false]
                    MoreExamples.chunk_end_module j
         ↔ Z.of_nat j = CHUNK_SIZE - 5) ∧
   (∀ fuel, (0 < fuel)%nat →
      _manual_scan_aob fuel (manager_of 0x1000 MoreExamples.chunk_end_module)
                       "AA ?? ?? ?? ??" 2 7
      = Some (0, set_last_error (manager_of 0x1000 MoreExamples.chunk_end_module)
                   "Manual scan failed: unpack requires a buffer of 4 bytes")) ∧
   (∀ C' fuel,
      Z.of_nat (length MoreExamples.chunk_end_module) ≤ C' → (0 < fuel)%nat →
      manual_scan_with C' fuel (manager_of 0x1000 MoreExamples.chunk_end_module)
                       "AA ?? ?? ?? ??" 2 7
      = Some (0x1000 + (CHUNK_SIZE - 5) + 7 + le_signed [2; 3; 4; 5],
              manager_of 0x1000 MoreExamples.chunk_end_module))).
Proof.
  assert (Z.of_nat (Z.to_nat (CHUNK_SIZE - 5)) = CHUNK_SIZE - 5) as Hy
    by (unfold CHUNK_SIZE; lia).
  split; [|split].
  - assert (4 ≤ Z.to_nat (CHUNK_SIZE + 1))%nat as Ha by (unfold CHUNK_SIZE; lia).
    assert (CHUNK_SIZE < Z.of_nat (Z.to_nat (CHUNK_SIZE + 1))) as Hb
      by (unfold CHUNK_SIZE; lia).
    pose proof (pattern_longer_than_chunk CHUNK_SIZE (Z.to_nat (CHUNK_SIZE + 1))
                  0x1000 7 Ha Hb) as H.
    cbv zeta in H. destruct H as (H1 & H2 & H3 & H4).
    split; [|split; [exact H1|split; [exact H2|split; [exact H3|exact H4]]]].
    unfold MoreExamples.long_module. rewrite length_replicate. exact Hb.
  - pose proof (field_before_chunk_start CHUNK_SIZE (Z.to_nat (CHUNK_SIZE - 5))
                  0x1000 7 Hy) as H.
    cbv zeta in H. destruct H as (H1 & H2 & H3).
    split; [|split; [|split; [exact H2|exact H3]]].
    + unfold MoreExamples.chunk_start_module. rewrite length_app, length_replicate.
      cbn [length]. lia.
    + intros j. etransitivity; [exact (H1 j)|]. lia.
  - pose proof (field_behind_chunk_end CHUNK_SIZE (Z.to_nat (CHUNK_SIZE - 5))
                  0x1000 7 Hy) as H.
    cbv zeta in H. destruct H as (H1 & H2 & H3).
    split; [|split; [|split; [exact H2|exact H3]]].
    + unfold MoreExamples.chunk_end_module. rewrite length_app, length_replicate.
      cbn [length]. lia.
    + intros j. etransitivity; [exact (H1 j)|]. lia.
Qed.

End ChunkBoundary.
